(** * Probability-density maps from GCMC snapshots

    A shallow embedding of [codes/generate_cube_files_from_GCMC_snapshots.py]:
    the trajectory parser and density estimator [make_prob_density], the
    smoothing filter [local_average_3d] and the orchestrator
    [get_filtered_prob_density], together with the NumPy operations they call.

    Numbers.  A float64 is idealised as an exact rational, extended with the
    three IEEE special values the program can meet ([inf], [-inf], [nan]).
    Rounding and the sign of zero are not modelled.  Comparisons, counts and
    the selection of cells are exact in binary64 as well; where rounding
    decides a property, the filter is also run over binary64 itself
    ([local_average_3d_binary64]).

    Arrays.  A 3-D [ndarray] is a list of planes, a plane a list of rows, a
    row a list of cells (C order).  Its shape is read off the data.

    Sizes.  [grid_size] and [padding_n] are natural numbers; the program is
    only run with non-negative values ([np.pad] rejects a negative width).

    Effects.  Reading is a lookup in the world's files; the external cube
    writer either adds a file to the world or raises. *)

From Stdlib Require Import PrimFloat.
From Stdlib Require Import String Ascii.
From Stdlib Require Import QArith Qcanon ZArith List Bool Arith Lia Permutation.
Import ListNotations.

Local Open Scope string_scope.
Local Open Scope list_scope.
Local Open Scope nat_scope.

(* A decimal literal of a binary64 number denotes the nearest one, as in
   Python. *)
Local Set Warnings "-inexact-float".

(* ================================================================== *)
(** * Part I: the model                                                *)
(* ================================================================== *)

(** ** Python exceptions and fallible computations *)

Inductive exn : Set :=
| FileNotFoundError
| UnboundLocalError
| ValueError
| OSError.

Inductive result (A : Type) : Type :=
| Ok (a : A)
| Raise (e : exn).

Arguments Ok {A} a.
Arguments Raise {A} e.

Definition bind {A B : Type} (r : result A) (k : A -> result B) : result B :=
  match r with
  | Ok a => k a
  | Raise e => Raise e
  end.

Notation "x <- r ;; k" := (bind r (fun x => k))
  (at level 61, r at next level, right associativity).

Definition is_ok {A : Type} (r : result A) : bool :=
  match r with Ok _ => true | Raise _ => false end.

(** ** Floating-point values *)

Inductive npfloat : Type :=
| Fin (q : Qc)
| PInf
| NInf
| NaN.

Definition Qc_leb (x y : Qc) : bool := Qle_bool x y.
Definition Qc_ltb (x y : Qc) : bool := negb (Qle_bool y x).

Definition Qc_of_nat (k : nat) : Qc := Q2Qc (inject_Z (Z.of_nat k)).

Definition fzero : npfloat := Fin 0%Qc.
Definition fone : npfloat := Fin 1%Qc.
Definition fnat (k : nat) : npfloat := Fin (Qc_of_nat k).

Definition is_finite (x : npfloat) : bool :=
  match x with Fin _ => true | _ => false end.

Definition is_nan (x : npfloat) : bool :=
  match x with NaN => true | _ => false end.

Definition fneg (x : npfloat) : npfloat :=
  match x with
  | Fin q => Fin (- q)%Qc
  | PInf => NInf
  | NInf => PInf
  | NaN => NaN
  end.

Definition fadd (x y : npfloat) : npfloat :=
  match x, y with
  | NaN, _ => NaN
  | _, NaN => NaN
  | Fin p, Fin q => Fin (p + q)%Qc
  | PInf, NInf => NaN
  | NInf, PInf => NaN
  | PInf, _ => PInf
  | _, PInf => PInf
  | NInf, _ => NInf
  | _, NInf => NInf
  end.

Definition fsub (x y : npfloat) : npfloat := fadd x (fneg y).

(** The sign of an infinity after scaling by the finite value [q];
    [0 * inf] is [nan]. *)
Definition scale_inf (positive : bool) (q : Qc) : npfloat :=
  if Qc_eq_bool q 0%Qc then NaN
  else if xorb positive (Qc_ltb q 0%Qc) then PInf else NInf.

Definition fmul (x y : npfloat) : npfloat :=
  match x, y with
  | NaN, _ => NaN
  | _, NaN => NaN
  | Fin p, Fin q => Fin (p * q)%Qc
  | Fin p, PInf => scale_inf true p
  | Fin p, NInf => scale_inf false p
  | PInf, Fin q => scale_inf true q
  | NInf, Fin q => scale_inf false q
  | PInf, PInf => PInf
  | NInf, NInf => PInf
  | PInf, NInf => NInf
  | NInf, PInf => NInf
  end.

(** NumPy's [true_divide]: a zero divisor raises nothing; it produces
    [nan] for [0/0] and a signed infinity otherwise. *)
Definition fdiv (x y : npfloat) : npfloat :=
  match x, y with
  | NaN, _ => NaN
  | _, NaN => NaN
  | Fin p, Fin q =>
      if Qc_eq_bool q 0%Qc then
        if Qc_eq_bool p 0%Qc then NaN
        else if Qc_ltb 0%Qc p then PInf else NInf
      else Fin (p / q)%Qc
  | Fin _, PInf => fzero
  | Fin _, NInf => fzero
  | PInf, Fin q => if Qc_ltb q 0%Qc then NInf else PInf
  | NInf, Fin q => if Qc_ltb q 0%Qc then PInf else NInf
  | PInf, PInf => NaN
  | PInf, NInf => NaN
  | NInf, PInf => NaN
  | NInf, NInf => NaN
  end.

(** IEEE comparisons: every comparison with [nan] is false. *)
Definition fle (x y : npfloat) : bool :=
  match x, y with
  | NaN, _ => false
  | _, NaN => false
  | NInf, _ => true
  | _, PInf => true
  | Fin p, Fin q => Qc_leb p q
  | _, _ => false
  end.

Definition flt (x y : npfloat) : bool :=
  match x, y with
  | NaN, _ => false
  | _, NaN => false
  | Fin p, Fin q => Qc_ltb p q
  | NInf, NInf => false
  | PInf, _ => false
  | NInf, _ => true
  | _, PInf => true
  | _, NInf => false
  end.

Definition feqb (x y : npfloat) : bool :=
  match x, y with
  | Fin p, Fin q => Qc_eq_bool p q
  | PInf, PInf => true
  | NInf, NInf => true
  | _, _ => false
  end.

(** [np.minimum] and [np.maximum], which propagate [nan]. *)
Definition fminimum (x y : npfloat) : npfloat :=
  match x, y with
  | NaN, _ => NaN
  | _, NaN => NaN
  | _, _ => if flt y x then y else x
  end.

Definition fmaximum (x y : npfloat) : npfloat :=
  match x, y with
  | NaN, _ => NaN
  | _, NaN => NaN
  | _, _ => if flt x y then y else x
  end.

(** The order NumPy sorts and searches by: as [<=], with [nan] last. *)
Definition sort_le (e x : npfloat) : bool := is_nan x || fle e x.

(** Structural equality test on values, used to compare concrete arrays. *)
Definition npfloat_eqb (x y : npfloat) : bool :=
  match x, y with
  | Fin p, Fin q => Qc_eq_bool p q
  | PInf, PInf => true
  | NInf, NInf => true
  | NaN, NaN => true
  | _, _ => false
  end.

Arguments fadd : simpl never.
Arguments fsub : simpl never.
Arguments fmul : simpl never.
Arguments fdiv : simpl never.

Definition fsum (l : list npfloat) : npfloat := fold_right fadd fzero l.

(** ** Three-dimensional arrays *)

Abbreviation row := (list npfloat) (only parsing).
Abbreviation plane := (list (list npfloat)) (only parsing).
Abbreviation grid := (list (list (list npfloat))) (only parsing).

Definition shape (a : grid) : nat * nat * nat :=
  (length a, length (hd [] a), length (hd [] (hd [] a))).

(** [has_shape a X Y Z]: the nested lists are rectangular, as every
    ndarray is. *)
Definition has_shape (a : grid) (X Y Z : nat) : Prop :=
  length a = X /\
  Forall (fun p : plane => length p = Y /\ Forall (fun r : row => length r = Z) p) a.

Definition flatten (a : grid) : list npfloat := concat (concat a).

Definition map3 (f : npfloat -> npfloat) (a : grid) : grid :=
  map (map (map f)) a.

Fixpoint zip_with {A B C : Type} (f : A -> B -> C) (l : list A) (m : list B) : list C :=
  match l, m with
  | x :: l', y :: m' => f x y :: zip_with f l' m'
  | _, _ => []
  end.

Definition zip_with3 (f : npfloat -> npfloat -> npfloat) (a b : grid) : grid :=
  zip_with (zip_with (zip_with f)) a b.

(** The array whose cell [(i, j, k)] holds [F i j k], of shape [(X, Y, Z)]. *)
Definition tabulate3 {A : Type} (X Y Z : nat) (F : nat -> nat -> nat -> A)
    : list (list (list A)) :=
  map (fun i => map (fun j => map (fun k => F i j k) (seq 0 Z)) (seq 0 Y)) (seq 0 X).

(** [a[i, j, k]], when the index is in bounds. *)
Definition lookup3 (a : grid) (i j k : nat) : option npfloat :=
  match nth_error a i with
  | Some p =>
      match nth_error p j with
      | Some r => nth_error r k
      | None => None
      end
  | None => None
  end.

(** The same with a default, for sums over index ranges. *)
Definition get3 (a : grid) (i j k : nat) : npfloat :=
  nth k (nth j (nth i a []) []) fzero.

(** [a.sum()] *)
Definition asum (a : grid) : npfloat := fsum (flatten a).

(** [a.min()] and [a.max()]: reductions without identity, so an empty
    array raises ValueError. *)
Definition amin (a : grid) : result npfloat :=
  match flatten a with
  | [] => Raise ValueError
  | x :: l => Ok (fold_left fminimum l x)
  end.

Definition amax (a : grid) : result npfloat :=
  match flatten a with
  | [] => Raise ValueError
  | x :: l => Ok (fold_left fmaximum l x)
  end.

Definition all_finite (a : grid) : Prop :=
  Forall (fun x => is_finite x = true) (flatten a).

Fixpoint list_eqb {A : Type} (eqb : A -> A -> bool) (l m : list A) : bool :=
  match l, m with
  | [], [] => true
  | x :: l', y :: m' => eqb x y && list_eqb eqb l' m'
  | _, _ => false
  end.

Definition grid_eqb (a b : grid) : bool :=
  list_eqb (list_eqb (list_eqb npfloat_eqb)) a b.

(** ** The smoothing filter (source lines 58-86) *)

(** [np.pad(l, n, mode='constant', constant_values=z)] along one axis. *)
Definition pad1 {A : Type} (n : nat) (z : A) (l : list A) : list A :=
  repeat z n ++ l ++ repeat z n.

(** [np.pad(a, pad_width=n, mode='constant', constant_values=0)] *)
Definition np_pad (a : grid) (n : nat) : grid :=
  let '(_, Y, Z) := shape a in
  let zrow : row := repeat fzero (Z + 2 * n) in
  let zplane : plane := repeat zrow (Y + 2 * n) in
  pad1 n zplane (map (fun p : plane => pad1 n zrow (map (pad1 n fzero) p)) a).

(** [l[s : s + w]] *)
Definition window1 {A : Type} (s w : nat) (l : list A) : list A :=
  firstn w (skipn s l).

(** [p[i : i + w, j : j + w, k : k + w]] *)
Definition block (p : grid) (i j k w : nat) : grid :=
  map (fun pl : plane => map (window1 k w) (window1 j w pl)) (window1 i w p).

(** [sliding_window_view(p, (w, w, w))]: the array of all [w*w*w]
    blocks, indexed by their corner.  NumPy raises ValueError when the
    window is longer than an axis of [p]. *)
Definition sliding_window_view (p : grid) (w : nat) : result (list (list (list grid))) :=
  let '(px, py, pz) := shape p in
  if (px <? w) || (py <? w) || (pz <? w) then Raise ValueError
  else
    Ok (tabulate3 (px - w + 1) (py - w + 1) (pz - w + 1)
          (fun i j k => block p i j k w)).

(** [windows.sum(axis=(-3, -2, -1))] *)
Definition window_sums (ws : list (list (list grid))) : grid :=
  map (map (map asum)) ws.

(** [np.ones_like(a)] *)
Definition ones_like (a : grid) : grid := map3 (fun _ => fone) a.

Definition local_average_3d (array : grid) (n : nat) : result grid :=
  let padded := np_pad array n in
  let window_size := 2 * n + 1 in
  windows <- sliding_window_view padded window_size ;;
  (* line 77 computes windows.mean(...) into avg_array, which line 84
     overwrites before any use *)
  let mask := ones_like array in
  let padded_mask := np_pad mask n in
  mask_windows <- sliding_window_view padded_mask window_size ;;
  let counts := window_sums mask_windows in
  let avg_array := zip_with3 fdiv (window_sums windows) counts in
  Ok avg_array.

(** *** The filter as the specification words it

    The mean over the in-bounds cells within Chebyshev distance [n]. *)

Definition absdiff (x y : nat) : nat := (x - y) + (y - x).

Definition chebyshev (c d : nat * nat * nat) : nat :=
  let '(i, j, k) := c in
  let '(i', j', k') := d in
  Nat.max (Nat.max (absdiff i i') (absdiff j j')) (absdiff k k').

(** Every index of an array of shape [(X, Y, Z)]. *)
Definition all_cells (X Y Z : nat) : list (nat * nat * nat) :=
  flat_map (fun i =>
    flat_map (fun j => map (fun k => (i, j, k)) (seq 0 Z)) (seq 0 Y))
    (seq 0 X).

Definition neighbourhood (X Y Z n : nat) (c : nat * nat * nat) : list (nat * nat * nat) :=
  filter (fun d => chebyshev c d <=? n) (all_cells X Y Z).

Definition neighbourhood_sum (a : grid) (n : nat) (c : nat * nat * nat) : npfloat :=
  let '(X, Y, Z) := shape a in
  fsum (map (fun d : nat * nat * nat => let '(i, j, k) := d in get3 a i j k)
            (neighbourhood X Y Z n c)).

Definition neighbourhood_count (a : grid) (n : nat) (c : nat * nat * nat) : nat :=
  let '(X, Y, Z) := shape a in
  length (neighbourhood X Y Z n c).

Definition neighbourhood_mean (a : grid) (n : nat) (c : nat * nat * nat) : npfloat :=
  fdiv (neighbourhood_sum a n c) (fnat (neighbourhood_count a n c)).

(** ** Text handling *)

(** [s.startswith(p)] *)
Definition startswith (p s : string) : bool := prefix p s.

(** [s[i:j]] for [0 <= i <= j]; a short string gives a short slice. *)
Definition slice (i j : nat) (s : string) : string := substring i (j - i) s.

(** ASCII white space, as [str.strip] removes it. *)
Definition is_space (c : ascii) : bool :=
  let n := nat_of_ascii c in
  ((9 <=? n) && (n <=? 13)) || ((28 <=? n) && (n <=? 32)).

Fixpoint lstrip (s : string) : string :=
  match s with
  | EmptyString => EmptyString
  | String c s' => if is_space c then lstrip s' else s
  end.

Fixpoint rstrip (s : string) : string :=
  match s with
  | EmptyString => EmptyString
  | String c s' =>
      match rstrip s' with
      | EmptyString => if is_space c then EmptyString else String c EmptyString
      | t => String c t
      end
  end.

Definition strip (s : string) : string := lstrip (rstrip s).

(** A reader of plain decimal literals ([  12.345], [-0.5], [7]), the
    form the fixed-width fields of a PDB file hold; on these it agrees with
    Python's [float].  The general statements below take the conversion as a
    parameter instead. *)
Definition digit_of (c : ascii) : option Z :=
  let n := nat_of_ascii c in
  if (48 <=? n) && (n <=? 57) then Some (Z.of_nat (n - 48)) else None.

Fixpoint read_digits (s : string) (acc : Z) (len : nat) : Z * nat * string :=
  match s with
  | EmptyString => (acc, len, s)
  | String c s' =>
      match digit_of c with
      | Some d => read_digits s' (10 * acc + d)%Z (S len)
      | None => (acc, len, s)
      end
  end.

Fixpoint pow10 (n : nat) : positive :=
  match n with
  | 0 => 1%positive
  | S n' => (10 * pow10 n')%positive
  end.

Definition decimal_float (s : string) : option npfloat :=
  let s0 := strip s in
  let '(negative, s1) :=
    match s0 with
    | String "-"%char t => (true, t)
    | String "+"%char t => (false, t)
    | _ => (false, s0)
    end in
  let '(ip, ilen, s2) := read_digits s1 0%Z 0 in
  let '(num, flen, s3) :=
    match s2 with
    | String "."%char t => read_digits t ip 0
    | _ => (ip, 0, s2)
    end in
  match s3 with
  | EmptyString =>
      if 0 <? ilen + flen then
        Some (Fin (Q2Qc (Qmake (if negative then - num else num)%Z (pow10 flen))))
      else None
  | _ => None
  end.

(** ** The density estimator (source lines 6-56) *)

Definition point : Type := npfloat * npfloat * npfloat.

(** [np.linspace(start, stop, num)]: [num - 1] equal steps, the last
    point set to [stop] itself. *)
Definition linspace (start stop : npfloat) (num : nat) : list npfloat :=
  match num with
  | 0 => []
  | 1 => [fadd (fmul (fnat 0) (fsub stop start)) start]
  | S div =>
      let step := fdiv (fsub stop start) (fnat div) in
      map (fun k => fadd (fmul (fnat k) step) start) (seq 0 div) ++ [stop]
  end.

(** [np.any(e[:-1] > e[1:])] *)
Fixpoint any_decreasing (e : list npfloat) : bool :=
  match e with
  | x :: ((y :: _) as e') => flt y x || any_decreasing e'
  | _ => false
  end.

(** [np.searchsorted(edges, x, side='right')] on sorted edges: the
    number of edges that do not exceed [x]. *)
Definition searchsorted_right (edges : list npfloat) (x : npfloat) : nat :=
  length (filter (fun e => sort_le e x) edges).

(** The bin number histogramdd gives a coordinate on one axis: 0 and
    [length edges] are the two outlier bins; a coordinate equal to the
    last edge is moved one bin to the left. *)
Definition bin_number (edges : list npfloat) (x : npfloat) : nat :=
  let idx := searchsorted_right edges x in
  if feqb x (last edges NaN) then idx - 1 else idx.

Definition in_cell (ex ey ez : list npfloat) (i j k : nat) (p : point) : bool :=
  let '(x, y, z) := p in
  (bin_number ex x =? S i) && (bin_number ey y =? S j) && (bin_number ez z =? S k).

(** [np.histogramdd(sample, bins=[ex, ey, ez])[0]].

    The sample is [np.array(coords)].  For a non-empty list of triples it
    has shape [(N, 3)].  For the empty list it has shape [(0,)]; histogramdd
    then fails to unpack [N, D = sample.shape], falls back to
    [np.atleast_2d(sample).T] of shape [(0, 1)], reads [D = 1], and raises
    ValueError because three bin arrays were given for a one-dimensional
    sample.  Bin edges that decrease anywhere raise ValueError too.  The
    counts are returned without the outlier bins. *)
Definition histogramdd (sample : list point) (ex ey ez : list npfloat) : result grid :=
  match sample with
  | [] => Raise ValueError
  | _ =>
      if any_decreasing ex || any_decreasing ey || any_decreasing ez
      then Raise ValueError
      else
        Ok (tabulate3 (length ex - 1) (length ey - 1) (length ez - 1)
              (fun i j k => fnat (length (filter (in_cell ex ey ez i j k) sample))))
  end.

(** Lines 45-56: from the coordinates to the probability density. *)
Definition density_of_coords (coords : list point) (a b c : npfloat)
    (grid_size : nat) : result grid :=
  let ex := linspace fzero a (grid_size + 1) in
  let ey := linspace fzero b (grid_size + 1) in
  let ez := linspace fzero c (grid_size + 1) in
  hist <- histogramdd coords ex ey ez ;;
  let prob_density := map3 (fun v => fdiv v (asum hist)) hist in
  Ok prob_density.

Section Parser.

(** Python's [float(s)]; [None] stands for its ValueError. *)
Variable py_float : string -> option npfloat.

Definition to_float (s : string) : result npfloat :=
  match py_float s with
  | Some x => Ok x
  | None => Raise ValueError
  end.

(** Lines 21-28: the first CRYST1 record gives the cell; without one
    the names [a], [b], [c] are unbound when line 28 prints them. *)
Fixpoint read_cell (lines : list string) : result (npfloat * npfloat * npfloat) :=
  match lines with
  | [] => Raise UnboundLocalError
  | line :: rest =>
      if startswith "CRYST1" line then
        a <- to_float (slice 6 15 line) ;;
        b <- to_float (slice 15 24 line) ;;
        c <- to_float (slice 24 33 line) ;;
        Ok (a, b, c)
      else read_cell rest
  end.

(** Lines 30-44: the coordinates of the atoms of element [atm] inside
    MODEL ... ENDMDL blocks. *)
Fixpoint read_coords (atm : string) (in_model : bool) (lines : list string)
    : result (list point) :=
  match lines with
  | [] => Ok []
  | line :: rest =>
      if startswith "MODEL" line then read_coords atm true rest
      else if startswith "ENDMDL" line then read_coords atm false rest
      else if in_model && startswith "ATOM" line then
        let element := strip (slice 76 78 line) in
        if String.eqb element atm then
          x <- to_float (slice 30 38 line) ;;
          y <- to_float (slice 38 46 line) ;;
          z <- to_float (slice 46 54 line) ;;
          coords <- read_coords atm in_model rest ;;
          Ok ((x, y, z) :: coords)
        else read_coords atm in_model rest
      else read_coords atm in_model rest
  end.

(** [open(pdb_filename)]: the lines of the file, or FileNotFoundError. *)
Definition open_file (files : string -> option (list string)) (name : string)
    : result (list string) :=
  match files name with
  | Some lines => Ok lines
  | None => Raise FileNotFoundError
  end.

Definition make_prob_density (files : string -> option (list string))
    (pdb_filename atm : string) (grid_size : nat) : result grid :=
  lines <- open_file files pdb_filename ;;
  cell <- read_cell lines ;;
  let '(a, b, c) := cell in
  lines' <- open_file files pdb_filename ;;
  coords <- read_coords atm false lines' ;;
  density_of_coords coords a b c grid_size.

End Parser.

(** The lines of a file that lines 38-40 select: atom records of the
    target element inside a model block. *)
Fixpoint matching_atoms (atm : string) (in_model : bool) (lines : list string)
    : list string :=
  match lines with
  | [] => []
  | line :: rest =>
      if startswith "MODEL" line then matching_atoms atm true rest
      else if startswith "ENDMDL" line then matching_atoms atm false rest
      else if in_model && startswith "ATOM" line
                && String.eqb (strip (slice 76 78 line)) atm
      then line :: matching_atoms atm in_model rest
      else matching_atoms atm in_model rest
  end.

(** ** The orchestrator (source lines 88-115) *)

(** Lines 98-99: [(d - d.min()) / (d.max() - d.min())] *)
Definition minmax_normalize (d : grid) : result grid :=
  lo <- amin d ;;
  hi <- amax d ;;
  lo' <- amin d ;;
  Ok (map3 (fun v => fdiv (fsub v lo) (fsub hi lo')) d).

(** What the external writer receives: the path, the cubic periodic
    cell [np.eye(3) * cell_a] and the scalar field. *)
Record cube : Type := {
  cube_path : string;
  cube_cell : npfloat;
  cube_data : grid
}.

(** The outside world: the input files, which output paths the writer
    can write, and the cube files written so far. *)
Record world : Type := {
  files : string -> option (list string);
  writable : string -> bool;
  written : list cube
}.

(** [write(path, atoms, data=data)] of the external collaborator: it
    adds the file, or raises OSError and adds nothing. *)
Definition write (path : string) (cell_a : npfloat) (data : grid) (w : world)
    : result unit * world :=
  if writable w path then
    (Ok tt,
     {| files := files w; writable := writable w;
        written := written w ++ [{| cube_path := path; cube_cell := cell_a;
                                    cube_data := data |}] |})
  else (Raise OSError, w).

Inductive pyvalue : Type :=
| PyInt (z : Z)
| PyNdarray (a : grid).

Section Orchestrator.

Variable py_float : string -> option npfloat.

(** Lines 95-102: everything computed before the first write. *)
Definition compute_densities (w : world) (pdb_filename_before pdb_filename_after : string)
    (grid_size : nat) (atm : string) (padding_n : nat)
    : result (grid * grid * grid * grid) :=
  prob_density_before <- make_prob_density py_float (files w) pdb_filename_before atm grid_size ;;
  prob_density_after <- make_prob_density py_float (files w) pdb_filename_after atm grid_size ;;
  prob_density_before <- minmax_normalize prob_density_before ;;
  prob_density_after <- minmax_normalize prob_density_after ;;
  let prob_density_diff := zip_with3 fsub prob_density_after prob_density_before in
  prob_density_diff_filtered <- local_average_3d prob_density_diff padding_n ;;
  Ok (prob_density_before, prob_density_after, prob_density_diff,
      prob_density_diff_filtered).

Definition get_filtered_prob_density (pdb_filename_before pdb_filename_after : string)
    (grid_size : nat) (cell_a : npfloat) (atm : string) (padding_n : nat)
    (w : world) : result pyvalue * world :=
  match compute_densities w pdb_filename_before pdb_filename_after
          grid_size atm padding_n with
  | Raise e => (Raise e, w)
  | Ok (before, after, diff, diff_filtered) =>
      match write ("prob_density_" ++ atm ++ "_before_step.cube") cell_a before w with
      | (Raise e, w1) => (Raise e, w1)
      | (Ok _, w1) =>
      match write ("prob_density_" ++ atm ++ "_after_step.cube") cell_a after w1 with
      | (Raise e, w2) => (Raise e, w2)
      | (Ok _, w2) =>
      match write ("prob_density_" ++ atm ++ "_difference.cube") cell_a diff w2 with
      | (Raise e, w3) => (Raise e, w3)
      | (Ok _, w3) =>
      match write ("prob_density_" ++ atm ++ "_difference_filtered.cube") cell_a
              diff_filtered w3 with
      | (Raise e, w4) => (Raise e, w4)
      | (Ok _, w4) => (Ok (PyInt 0), w4)
      end end end end
  end.

End Orchestrator.

(** The four cube files of a successful run, in the order written. *)
Definition four_cubes (atm : string) (cell_a : npfloat)
    (before after diff diff_filtered : grid) : list cube :=
  [ {| cube_path := "prob_density_" ++ atm ++ "_before_step.cube";
       cube_cell := cell_a; cube_data := before |};
    {| cube_path := "prob_density_" ++ atm ++ "_after_step.cube";
       cube_cell := cell_a; cube_data := after |};
    {| cube_path := "prob_density_" ++ atm ++ "_difference.cube";
       cube_cell := cell_a; cube_data := diff |};
    {| cube_path := "prob_density_" ++ atm ++ "_difference_filtered.cube";
       cube_cell := cell_a; cube_data := diff_filtered |} ].

(** ** The top-level script (source lines 120-131) *)

Module Script.

Definition grid_size : nat := 200.
Definition cell_a : npfloat := Fin (Q2Qc (50256 # 1000)).
Definition atm : string := "Ar".
Definition padding_n : nat := 15.
Definition pdb_filename_before : string :=
  "Movie_CU-6_Cr_P1_pacman_1.1.1_87.000000_6000.000000_allcomponents.pdb".
Definition pdb_filename_after : string :=
  "Movie_CU-6_Cr_P1_pacman_1.1.1_87.000000_10000.000000_allcomponents.pdb".

(** Line 130: the value the name [prob_density_diff_filtered] is
    bound to at module level, and the world afterwards. *)
Definition prob_density_diff_filtered (py_float : string -> option npfloat)
    (w : world) : result pyvalue * world :=
  get_filtered_prob_density py_float pdb_filename_before pdb_filename_after
    grid_size cell_a atm padding_n w.

End Script.

(** ** Sample inputs *)

(** The numbers 1 to 5 along the first axis: the one-dimensional array
    [[1, 2, 3, 4, 5]] as an array of shape [(5, 1, 1)]. *)
Definition column5 : grid :=
  [ [[fnat 1]]; [[fnat 2]]; [[fnat 3]]; [[fnat 4]]; [[fnat 5]] ].

(** The rational [p / q] as a value. *)
Definition frac (p : Z) (q : positive) : npfloat := Fin (Q2Qc (Qmake p q)).

(** Two small trajectory files over a 10 x 10 x 10 cell.  The first has
    three argon atoms and one carbon atom inside its model block and one
    argon atom after it; the second has two argon atoms. *)
Definition sample_before : list string :=
  [ "CRYST1   10.000   10.000   10.000  90.00  90.00  90.00 P 1           1";
    "MODEL    1";
    "ATOM      1 Ar   MOL     1       2.500   2.500   2.500  1.00  0.00          Ar";
    "ATOM      2 Ar   MOL     1       7.500   2.500   2.500  1.00  0.00          Ar";
    "ATOM      3 C    MOL     1       1.000   1.000   1.000  1.00  0.00           C";
    "ATOM      4 Ar   MOL     1       2.500   5.000   7.500  1.00  0.00          Ar";
    "ENDMDL";
    "ATOM      5 Ar   MOL     1       9.000   9.000   9.000  1.00  0.00          Ar" ].

Definition sample_after : list string :=
  [ "CRYST1   10.000   10.000   10.000  90.00  90.00  90.00 P 1           1";
    "MODEL    1";
    "ATOM      1 Ar   MOL     1       7.500   7.500   7.500  1.00  0.00          Ar";
    "ATOM      2 Ar   MOL     1       7.500   7.500   2.500  1.00  0.00          Ar";
    "ENDMDL" ].

Definition sample_files (name : string) : option (list string) :=
  if String.eqb name "before.pdb" then Some sample_before
  else if String.eqb name "after.pdb" then Some sample_after
  else None.

(** A world where every output path can be written, and one where the
    third output cannot. *)
Definition sample_world : world :=
  {| files := sample_files; writable := fun _ => true; written := [] |}.

Definition sample_world_unwritable : world :=
  {| files := sample_files;
     writable := fun path => negb (String.eqb path "prob_density_Ar_difference.cube");
     written := [] |}.

(** The four grids computed from the two sample files, and from the
    first sample file compared with itself (empty grids should the
    computation fail). *)
Definition sample_grids : grid * grid * grid * grid :=
  match compute_densities decimal_float sample_world "before.pdb" "after.pdb"
          2 "Ar" 1 with
  | Ok t => t
  | Raise _ => ([], [], [], [])
  end.

Definition sample_self_grids : grid * grid * grid * grid :=
  match compute_densities decimal_float sample_world "before.pdb" "before.pdb"
          2 "Ar" 1 with
  | Ok t => t
  | Raise _ => ([], [], [], [])
  end.

(** Edges of two bins on [[0, 10]], and four points: one on the interior
    edge of every axis, one inside a bin, one on the last edge of every axis
    and one beyond the edges. *)
Definition sample_edges : list Qc := [Q2Qc 0; Q2Qc 5; Q2Qc 10].


(** A difference grid of shape [(3, 1, 1)] with cells in [[-1, 1]]. *)
Definition sample_difference : grid :=
  [ [[frac (-1) 1]]; [[frac 1 2]]; [[frac 1 1]] ].

(** ** Auxiliary notions *)

(** The [k]-th of the [g + 1] equally spaced boundaries of [[0, a]]. *)
Definition edge (a : Qc) (g k : nat) : Qc :=
  (Qc_of_nat k * (a / Qc_of_nat g))%Qc.

(** A point with finite coordinates in the closed box
    [[0,a] x [0,b] x [0,c]], and one strictly inside it. *)
Definition in_closed_box (a b c : Qc) (p : point) : Prop :=
  exists x y z : Qc, p = (Fin x, Fin y, Fin z) /\
    (0 <= x)%Qc /\ (x <= a)%Qc /\ (0 <= y)%Qc /\ (y <= b)%Qc /\
    (0 <= z)%Qc /\ (z <= c)%Qc.

Definition strictly_inside (a b c : Qc) (p : point) : Prop :=
  exists x y z : Qc, p = (Fin x, Fin y, Fin z) /\
    (0 < x)%Qc /\ (x < a)%Qc /\ (0 < y)%Qc /\ (y < b)%Qc /\
    (0 < z)%Qc /\ (z < c)%Qc.

(** Triple sums of natural numbers over the cells of a table. *)
Definition nsum3 (X Y Z : nat) (h : nat -> nat -> nat -> nat) : nat :=
  list_sum (map (fun i =>
    list_sum (map (fun j =>
      list_sum (map (fun k => h i j k) (seq 0 Z))) (seq 0 Y))) (seq 0 X)).

(** Position [p] of a padded axis holds a cell of the original axis of
    length [X]. *)
Definition inside (n X p : nat) : bool := (n <=? p) && (p <? n + X).

(** The cell at position [(p, q, r)] of an array of shape [(X, Y, Z)]
    padded by [n] zeros on every side. *)
Definition padded_cell (a : grid) (X Y Z n p q r : nat) : npfloat :=
  if inside n X p && inside n Y q && inside n Z r
  then get3 a (p - n) (q - n) (r - n) else fzero.

(** ** Further notions *)

(** Lines 79-82 of [local_average_3d] on their own: the array of
    divisors [counts]. *)
Definition mask_counts (array : grid) (n : nat) : result grid :=
  let window_size := 2 * n + 1 in
  let mask := ones_like array in
  let padded_mask := np_pad mask n in
  mask_windows <- sliding_window_view padded_mask window_size ;;
  Ok (window_sums mask_windows).

(** How many indices of an axis of length [X] lie within [n] of [i]. *)
Definition axis_count (X n i : nat) : nat := Nat.min X (i + n + 1) - (i - n).

(** The flag [in_model] of lines 32-37 after a run of lines. *)
Fixpoint model_state (in_model : bool) (lines : list string) : bool :=
  match lines with
  | [] => in_model
  | line :: rest =>
      if startswith "MODEL" line then model_state true rest
      else if startswith "ENDMDL" line then model_state false rest
      else model_state in_model rest
  end.

(** A point with finite coordinates, one of them outside its axis. *)
Definition outside_box (a b c : Qc) (p : point) : Prop :=
  exists x y z : Qc, p = (Fin x, Fin y, Fin z) /\
    ((x < 0)%Qc \/ (a < x)%Qc \/ (y < 0)%Qc \/ (b < y)%Qc \/
     (z < 0)%Qc \/ (c < z)%Qc).

(** The array of shape [(X, Y, Z)] with the same value in every cell. *)
Definition full (X Y Z : nat) (v : npfloat) : grid :=
  tabulate3 X Y Z (fun _ _ _ => v).

(** *** The binning rule as the specification words it

    Bin [i] of the edges [es] is the half-open interval
    [[es[i], es[i+1])]; the last bin also holds its right edge. *)





(** ** The filter over any arithmetic

    [local_average_3d] uses the cells of its array through four operations
    only: the constants 0 (the padding) and 1 (the mask), the additions of
    [sum] and the division of line 84.  The same lines over any type of
    cells that has these operations: *)

Section FilterOver.

Variable T : Type.
Variables zero one : T.
Variables add div : T -> T -> T.

Definition shape_over (a : list (list (list T))) : nat * nat * nat :=
  (length a, length (hd [] a), length (hd [] (hd [] a))).

Definition np_pad_over (a : list (list (list T))) (n : nat) : list (list (list T)) :=
  let '(_, Y, Z) := shape_over a in
  let zrow := repeat zero (Z + 2 * n) in
  let zplane := repeat zrow (Y + 2 * n) in
  pad1 n zplane (map (fun p => pad1 n zrow (map (pad1 n zero) p)) a).

Definition block_over (p : list (list (list T))) (i j k w : nat)
    : list (list (list T)) :=
  map (fun pl => map (window1 k w) (window1 j w pl)) (window1 i w p).

Definition sliding_window_view_over (p : list (list (list T))) (w : nat)
    : result (list (list (list (list (list (list T)))))) :=
  let '(px, py, pz) := shape_over p in
  if (px <? w) || (py <? w) || (pz <? w) then Raise ValueError
  else
    Ok (tabulate3 (px - w + 1) (py - w + 1) (pz - w + 1)
          (fun i j k => block_over p i j k w)).

Definition sum_over (a : list (list (list T))) : T :=
  fold_right add zero (concat (concat a)).

Definition local_average_3d_over (array : list (list (list T))) (n : nat)
    : result (list (list (list T))) :=
  let padded := np_pad_over array n in
  let window_size := 2 * n + 1 in
  windows <- sliding_window_view_over padded window_size ;;
  let mask := map (map (map (fun _ => one))) array in
  let padded_mask := np_pad_over mask n in
  mask_windows <- sliding_window_view_over padded_mask window_size ;;
  let counts := map (map (map sum_over)) mask_windows in
  let avg_array :=
    zip_with (zip_with (zip_with div)) (map (map (map sum_over)) windows) counts in
  Ok avg_array.

End FilterOver.

(** *** The filter in binary64

    The cells are IEEE 754 binary64 numbers with round-to-nearest addition
    and division, as NumPy's float64.  A decimal literal denotes the nearest
    binary64 number, as it does in Python.  The cells of a window are added
    in C order; the arrays this development evaluates have at most three
    non-zero cells in a window, all equal, so that every order of the
    additions gives the same sums. *)

Definition local_average_3d_binary64 (array : list (list (list float))) (n : nat)
    : result (list (list (list float))) :=
  local_average_3d_over float 0%float 1%float PrimFloat.add PrimFloat.div array n.

(* ================================================================== *)
(** * Part II: properties                                              *)
(* ================================================================== *)

(** ** Arithmetic of the values *)

Lemma Qc_eq_bool_true (p q : Qc) : Qc_eq_bool p q = true <-> p = q.
Proof.
  split.
  - apply Qc_eq_bool_correct.
  - intros ->. unfold Qc_eq_bool. destruct (Qc_eq_dec q q); congruence.
Qed.

Lemma Qc_eq_bool_false (p q : Qc) : Qc_eq_bool p q = false <-> p <> q.
Proof.
  split.
  - intros H E. apply Qc_eq_bool_true in E. congruence.
  - intros H. destruct (Qc_eq_bool p q) eqn:E; [|reflexivity].
    apply Qc_eq_bool_true in E. contradiction.
Qed.

Lemma Qc_leb_le (p q : Qc) : Qc_leb p q = true <-> (p <= q)%Qc.
Proof. unfold Qc_leb, Qcle. apply Qle_bool_iff. Qed.

Lemma Qc_ltb_lt (p q : Qc) : Qc_ltb p q = true <-> (p < q)%Qc.
Proof.
  unfold Qc_ltb. rewrite negb_true_iff. split.
  - intros H. apply Qcnot_le_lt. intros L. apply Qc_leb_le in L.
    unfold Qc_leb in L. congruence.
  - intros H. destruct (Qle_bool q p) eqn:E; [|reflexivity].
    apply Qle_bool_iff in E. exfalso. apply (Qclt_not_le _ _ H). exact E.
Qed.

Lemma Qc_ltb_ge (p q : Qc) : Qc_ltb p q = false <-> (q <= p)%Qc.
Proof.
  unfold Qc_ltb. rewrite negb_false_iff. apply Qle_bool_iff.
Qed.

Lemma Qc_of_nat_S (k : nat) : Qc_of_nat (S k) = (1 + Qc_of_nat k)%Qc.
Proof.
  apply Qc_is_canon. unfold Qc_of_nat, Qcplus, Q2Qc; cbn [this].
  rewrite !Qred_correct, Nat2Z.inj_succ.
  unfold Qeq, Qplus, inject_Z; cbn [Qnum Qden]. lia.
Qed.

Lemma Qc_of_nat_0 : Qc_of_nat 0 = 0%Qc.
Proof. apply Qc_is_canon. reflexivity. Qed.

Lemma Qc_of_nat_pos (k : nat) : 1 <= k -> (0 < Qc_of_nat k)%Qc.
Proof.
  intros H. unfold Qclt, Qc_of_nat, Q2Qc; cbn [this]. rewrite !Qred_correct.
  unfold Qlt, inject_Z; cbn [Qnum Qden]. lia.
Qed.

Lemma fadd_0_l (x : npfloat) : fadd fzero x = x.
Proof. destruct x; unfold fadd, fzero; try reflexivity. f_equal. ring. Qed.

Lemma fadd_0_r (x : npfloat) : fadd x fzero = x.
Proof. destruct x; unfold fadd, fzero; try reflexivity. f_equal. ring. Qed.

Lemma fadd_assoc (x y z : npfloat) : fadd x (fadd y z) = fadd (fadd x y) z.
Proof. destruct x, y, z; unfold fadd; try reflexivity. f_equal. ring. Qed.

Lemma fnat_S (k : nat) : fnat (S k) = fadd fone (fnat k).
Proof. unfold fnat, fone, fadd. now rewrite Qc_of_nat_S. Qed.

(** ** Sums over lists *)

Lemma fsum_app (l m : list npfloat) : fsum (l ++ m) = fadd (fsum l) (fsum m).
Proof.
  induction l as [|x l IH]; simpl.
  - now rewrite fadd_0_l.
  - now rewrite IH, fadd_assoc.
Qed.

Lemma fsum_concat (ll : list (list npfloat)) : fsum (concat ll) = fsum (map fsum ll).
Proof.
  induction ll as [|l ll IH]; simpl; [reflexivity|].
  now rewrite fsum_app, IH.
Qed.

Lemma fsum_zero {A : Type} (l : list A) : fsum (map (fun _ => fzero) l) = fzero.
Proof.
  induction l as [|x l IH]; simpl; [reflexivity|].
  now rewrite IH, fadd_0_l.
Qed.

Lemma fsum_ones {A : Type} (l : list A) : fsum (map (fun _ => fone) l) = fnat (length l).
Proof.
  induction l as [|x l IH]; simpl.
  - unfold fnat. now rewrite Qc_of_nat_0.
  - now rewrite IH, fnat_S.
Qed.

Lemma fsum_filter {A : Type} (P : A -> bool) (g : A -> npfloat) (l : list A) :
  fsum (map g (filter P l)) = fsum (map (fun x => if P x then g x else fzero) l).
Proof.
  induction l as [|x l IH]; simpl; [reflexivity|].
  destruct (P x); simpl; rewrite IH; [reflexivity|].
  now rewrite fadd_0_l.
Qed.

Lemma fsum_flat_map {A B : Type} (h : A -> list B) (g : B -> npfloat) (l : list A) :
  fsum (map g (flat_map h l)) = fsum (map (fun x => fsum (map g (h x))) l).
Proof.
  induction l as [|x l IH]; simpl; [reflexivity|].
  now rewrite map_app, fsum_app, IH.
Qed.

Lemma fsum_if {A : Type} (c : bool) (g : A -> npfloat) (l : list A) :
  fsum (map (fun x => if c then g x else fzero) l) =
  if c then fsum (map g l) else fzero.
Proof. destruct c; [reflexivity|apply fsum_zero]. Qed.

Lemma asum_nested (a : grid) :
  asum a = fsum (map (fun p : plane => fsum (map fsum p)) a).
Proof.
  unfold asum, flatten.
  rewrite fsum_concat, concat_map, fsum_concat, map_map.
  reflexivity.
Qed.

(** ** Index ranges *)

Lemma filter_seq_interval (lo hi len s : nat) :
  filter (fun x => (lo <=? x) && (x <? hi)) (seq s len) =
  seq (Nat.max s lo) (Nat.min (s + len) hi - Nat.max s lo).
Proof.
  revert s. induction len as [|len IH]; intros s; cbn [seq filter].
  - replace (Nat.min (s + 0) hi - Nat.max s lo) with 0 by lia. reflexivity.
  - rewrite IH.
    destruct (Nat.leb_spec lo s) as [E1|E1];
      destruct (Nat.ltb_spec s hi) as [E2|E2]; cbn [andb].
    + replace (Nat.max s lo) with s by lia.
      replace (Nat.max (S s) lo) with (S s) by lia.
      replace (Nat.min (s + S len) hi - s)
        with (S (Nat.min (S s + len) hi - S s)) by lia.
      reflexivity.
    + replace (Nat.min (S s + len) hi - Nat.max (S s) lo) with 0 by lia.
      replace (Nat.min (s + S len) hi - Nat.max s lo) with 0 by lia.
      reflexivity.
    + replace (Nat.max (S s) lo) with (Nat.max s lo) by lia.
      replace (S s + len) with (s + S len) by lia. reflexivity.
    + replace (Nat.min (S s + len) hi - Nat.max (S s) lo) with 0 by lia.
      replace (Nat.min (s + S len) hi - Nat.max s lo) with 0 by lia.
      reflexivity.
Qed.

Lemma map_seq_shift (f : nat -> nat) (len s : nat) :
  (forall d, s <= d -> f d = f s + (d - s)) ->
  map f (seq s len) = seq (f s) len.
Proof.
  revert s. induction len as [|len IH]; intros s H; simpl; [reflexivity|].
  f_equal. rewrite IH.
  - f_equal. rewrite (H (S s)); lia.
  - intros d Hd. rewrite (H d), (H (S s)); lia.
Qed.

Lemma absdiff_le (x y n : nat) :
  (absdiff x y <=? n) = ((x - n <=? y) && (y <? x + n + 1)).
Proof.
  unfold absdiff.
  destruct (Nat.leb_spec (x - n) y) as [E1|E1];
    destruct (Nat.ltb_spec y (x + n + 1)) as [E2|E2]; simpl;
    try (apply Nat.leb_le; lia); apply Nat.leb_gt; lia.
Qed.

(** The offsets of a window of radius [n] around [i] that fall inside an
    axis of length [X], shifted back by the padding, are the indices of the
    axis within distance [n] of [i]. *)
Lemma window_indices (X n i : nat) :
  i < X ->
  map (fun d => i + d - n)
      (filter (fun d => (n <=? i + d) && (i + d <? n + X)) (seq 0 (2 * n + 1))) =
  filter (fun i' => absdiff i i' <=? n) (seq 0 X).
Proof.
  intros Hi.
  rewrite (filter_ext _ (fun d => (n - i <=? d) && (d <? n + X - i))).
  2:{ intros d.
      destruct (Nat.leb_spec n (i + d)) as [E1|E1];
        destruct (Nat.ltb_spec (i + d) (n + X)) as [E2|E2];
        destruct (Nat.leb_spec (n - i) d) as [E3|E3];
        destruct (Nat.ltb_spec d (n + X - i)) as [E4|E4];
        simpl; try reflexivity; lia. }
  rewrite (filter_ext _ _ (fun i' => absdiff_le i i' n)).
  rewrite !filter_seq_interval.
  rewrite map_seq_shift by (intros; lia).
  f_equal; lia.
Qed.

Lemma window_sum_1d (F : nat -> npfloat) (X n i : nat) :
  i < X ->
  fsum (map (fun d => if (n <=? i + d) && (i + d <? n + X)
                      then F (i + d - n) else fzero) (seq 0 (2 * n + 1))) =
  fsum (map (fun i' => if absdiff i i' <=? n then F i' else fzero) (seq 0 X)).
Proof.
  intros Hi.
  rewrite <- (fsum_filter (fun d => (n <=? i + d) && (i + d <? n + X))
                (fun d => F (i + d - n))).
  rewrite <- (fsum_filter (fun i' => absdiff i i' <=? n) F).
  rewrite <- (window_indices X n i Hi), map_map. reflexivity.
Qed.

(** ** Tabulated arrays *)

Lemma map_const_seq {A : Type} (z : A) (m s : nat) :
  map (fun _ => z) (seq s m) = repeat z m.
Proof.
  revert s. induction m as [|m IH]; intros s; simpl; [reflexivity|].
  now rewrite IH.
Qed.

Lemma seq_from_0 (s m : nat) : seq s m = map (fun d => s + d) (seq 0 m).
Proof.
  rewrite map_seq_shift by (intros; lia).
  now rewrite Nat.add_0_r.
Qed.

Lemma map_nth_seq {A : Type} (l : list A) (d : A) :
  map (fun i => nth i l d) (seq 0 (length l)) = l.
Proof.
  induction l as [|x l IH]; simpl; [reflexivity|].
  f_equal. rewrite <- seq_shift, map_map. exact IH.
Qed.

Lemma nth_map_seq {A : Type} (f : nat -> A) (m i : nat) (d : A) :
  i < m -> nth i (map f (seq 0 m)) d = f i.
Proof.
  intros H. rewrite (nth_indep _ d (f 0)) by now rewrite length_map, length_seq.
  rewrite (map_nth f (seq 0 m) 0 i), seq_nth by exact H. reflexivity.
Qed.

Lemma nth_error_map_seq {A : Type} (f : nat -> A) (m i : nat) :
  i < m -> nth_error (map f (seq 0 m)) i = Some (f i).
Proof.
  intros H. rewrite nth_error_map, nth_error_seq.
  destruct (Nat.ltb_spec i m); [reflexivity|lia].
Qed.

Lemma firstn_seq_min (w s m : nat) : firstn w (seq s m) = seq s (Nat.min w m).
Proof.
  revert s m. induction w as [|w IH]; intros s m; [reflexivity|].
  destruct m as [|m]; simpl; [reflexivity|].
  now rewrite IH.
Qed.

Lemma window1_map_seq {A : Type} (f : nat -> A) (m s w : nat) :
  s + w <= m ->
  window1 s w (map f (seq 0 m)) = map (fun d => f (s + d)) (seq 0 w).
Proof.
  intros H. unfold window1.
  rewrite skipn_map, firstn_map, skipn_seq, firstn_seq_min.
  replace (Nat.min w (m - s)) with w by lia.
  rewrite (seq_from_0 (0 + s)), map_map. reflexivity.
Qed.

Lemma zip_with_map {A B C D : Type} (f : B -> C -> D) (g : A -> B) (h : A -> C)
    (l : list A) :
  zip_with f (map g l) (map h l) = map (fun x => f (g x) (h x)) l.
Proof. induction l as [|x l IH]; simpl; [reflexivity|now rewrite IH]. Qed.

Section Tabulate.

Context {A : Type}.
Variables X Y Z : nat.

Lemma tabulate3_ext (F G : nat -> nat -> nat -> A) :
  (forall i j k, i < X -> j < Y -> k < Z -> F i j k = G i j k) ->
  tabulate3 X Y Z F = tabulate3 X Y Z G.
Proof.
  intros H. unfold tabulate3.
  apply map_ext_in; intros i Hi. apply in_seq in Hi.
  apply map_ext_in; intros j Hj. apply in_seq in Hj.
  apply map_ext_in; intros k Hk. apply in_seq in Hk.
  apply H; lia.
Qed.

Lemma length_tabulate3 (F : nat -> nat -> nat -> A) :
  length (tabulate3 X Y Z F) = X.
Proof. unfold tabulate3. now rewrite length_map, length_seq. Qed.

End Tabulate.

Lemma has_shape_tabulate3 (X Y Z : nat) (F : nat -> nat -> nat -> npfloat) :
  has_shape (tabulate3 X Y Z F) X Y Z.
Proof.
  split; [apply length_tabulate3|].
  unfold tabulate3. apply Forall_map, Forall_forall. intros i _.
  rewrite length_map, length_seq. split; [reflexivity|].
  apply Forall_map, Forall_forall. intros j _.
  now rewrite length_map, length_seq.
Qed.

Lemma get3_tabulate3 (X Y Z : nat) (F : nat -> nat -> nat -> npfloat) (i j k : nat) :
  i < X -> j < Y -> k < Z -> get3 (tabulate3 X Y Z F) i j k = F i j k.
Proof.
  intros Hi Hj Hk. unfold get3, tabulate3.
  rewrite (nth_map_seq _ X i) by exact Hi.
  rewrite (nth_map_seq _ Y j) by exact Hj.
  now rewrite (nth_map_seq _ Z k) by exact Hk.
Qed.

Lemma lookup3_tabulate3 (X Y Z : nat) (F : nat -> nat -> nat -> npfloat) (i j k : nat) :
  i < X -> j < Y -> k < Z -> lookup3 (tabulate3 X Y Z F) i j k = Some (F i j k).
Proof.
  intros Hi Hj Hk. unfold lookup3, tabulate3.
  rewrite (nth_error_map_seq _ X i) by exact Hi.
  rewrite (nth_error_map_seq _ Y j) by exact Hj.
  now rewrite (nth_error_map_seq _ Z k) by exact Hk.
Qed.

Lemma zip_with3_tabulate3 (f : npfloat -> npfloat -> npfloat) (X Y Z : nat)
    (F G : nat -> nat -> nat -> npfloat) :
  zip_with3 f (tabulate3 X Y Z F) (tabulate3 X Y Z G) =
  tabulate3 X Y Z (fun i j k => f (F i j k) (G i j k)).
Proof.
  unfold zip_with3, tabulate3. rewrite zip_with_map.
  apply map_ext; intros i. rewrite zip_with_map.
  apply map_ext; intros j. now rewrite zip_with_map.
Qed.

Lemma map_tabulate3 {A B : Type} (f : A -> B) (X Y Z : nat)
    (F : nat -> nat -> nat -> A) :
  map (map (map f)) (tabulate3 X Y Z F) = tabulate3 X Y Z (fun i j k => f (F i j k)).
Proof.
  unfold tabulate3. rewrite map_map.
  apply map_ext; intros i. rewrite map_map.
  apply map_ext; intros j. now rewrite map_map.
Qed.

Lemma map3_tabulate3 (f : npfloat -> npfloat) (X Y Z : nat)
    (F : nat -> nat -> nat -> npfloat) :
  map3 f (tabulate3 X Y Z F) = tabulate3 X Y Z (fun i j k => f (F i j k)).
Proof. apply map_tabulate3. Qed.

(** Every rectangular array is the table of its own cells. *)
Lemma tabulate3_get3 (a : grid) (X Y Z : nat) :
  has_shape a X Y Z -> tabulate3 X Y Z (get3 a) = a.
Proof.
  intros [HX HF]. unfold tabulate3, get3. subst X.
  etransitivity; [|apply (map_nth_seq a [])].
  apply map_ext_in; intros i Hi. apply in_seq in Hi.
  assert (Hp : In (nth i a []) a) by (apply nth_In; lia).
  rewrite Forall_forall in HF. destruct (HF _ Hp) as [HY HR].
  rewrite <- HY.
  etransitivity; [|apply (map_nth_seq (nth i a []) [])].
  apply map_ext_in; intros j Hj. apply in_seq in Hj.
  assert (Hr : In (nth j (nth i a []) []) (nth i a [])) by (apply nth_In; lia).
  rewrite Forall_forall in HR. rewrite <- (HR _ Hr).
  apply map_nth_seq.
Qed.

Lemma has_shape_shape (a : grid) (X Y Z : nat) :
  has_shape a X Y Z -> 1 <= X -> 1 <= Y -> shape a = (X, Y, Z).
Proof.
  intros [HX HF] H1 H2. unfold shape.
  destruct a as [|p a]; simpl in *; [lia|].
  inversion HF as [|? ? [HY HR] _]; subst.
  destruct p as [|r p]; simpl in *; [lia|].
  inversion HR; subst. reflexivity.
Qed.

Lemma asum_tabulate3 (X Y Z : nat) (F : nat -> nat -> nat -> npfloat) :
  asum (tabulate3 X Y Z F) =
  fsum (map (fun i => fsum (map (fun j => fsum (map (fun k => F i j k) (seq 0 Z)))
                                (seq 0 Y))) (seq 0 X)).
Proof.
  rewrite asum_nested. unfold tabulate3. rewrite map_map.
  f_equal. apply map_ext; intros i. now rewrite map_map.
Qed.

Lemma block_tabulate3 (PX PY PZ : nat) (G : nat -> nat -> nat -> npfloat)
    (i j k w : nat) :
  i + w <= PX -> j + w <= PY -> k + w <= PZ ->
  block (tabulate3 PX PY PZ G) i j k w =
  tabulate3 w w w (fun di dj dk => G (i + di) (j + dj) (k + dk)).
Proof.
  intros Hi Hj Hk. unfold block, tabulate3.
  rewrite (window1_map_seq _ PX i w Hi), map_map.
  apply map_ext; intros di.
  rewrite (window1_map_seq _ PY j w Hj), map_map.
  apply map_ext; intros dj.
  now rewrite (window1_map_seq _ PZ k w Hk).
Qed.

(** ** Padding *)

Lemma pad1_tabulate {A : Type} (n : nat) (z : A) (l : list A) :
  pad1 n z l =
  map (fun p => if inside n (length l) p then nth (p - n) l z else z)
      (seq 0 (length l + 2 * n)).
Proof.
  unfold pad1, inside.
  replace (length l + 2 * n) with (n + (length l + n)) by lia.
  rewrite seq_app, (seq_app (length l) n), !map_app. f_equal; [|f_equal].
  - rewrite <- (map_const_seq z n 0). apply map_ext_in; intros p Hp.
    apply in_seq in Hp. destruct (Nat.leb_spec n p); [lia|reflexivity].
  - cbn [Nat.add]. symmetry. etransitivity; [|apply (map_nth_seq l z)].
    rewrite (seq_from_0 n), map_map. apply map_ext_in; intros d Hd.
    apply in_seq in Hd.
    destruct (Nat.leb_spec n (n + d)); [|lia].
    destruct (Nat.ltb_spec (n + d) (n + length l)); [|lia].
    cbn [andb]. f_equal. lia.
  - rewrite <- (map_const_seq z n (0 + n + length l)).
    apply map_ext_in; intros p Hp. apply in_seq in Hp.
    destruct (Nat.ltb_spec p (n + length l)); [lia|].
    now rewrite andb_false_r.
Qed.

Lemma nth_map_in {A B : Type} (f : A -> B) (l : list A) (i : nat) (d : A) (e : B) :
  i < length l -> nth i (map f l) e = f (nth i l d).
Proof.
  intros H. rewrite (nth_indep _ e (f d)) by now rewrite length_map.
  apply map_nth.
Qed.

Lemma np_pad_tabulate (a : grid) (X Y Z n : nat) :
  has_shape a X Y Z -> 1 <= X -> 1 <= Y ->
  np_pad a n =
  tabulate3 (X + 2 * n) (Y + 2 * n) (Z + 2 * n) (padded_cell a X Y Z n).
Proof.
  intros Hs HX HY. unfold np_pad.
  rewrite (has_shape_shape a X Y Z Hs HX HY).
  destruct Hs as [HL HF]. rewrite Forall_forall in HF.
  rewrite pad1_tabulate, length_map, HL. unfold tabulate3.
  apply map_ext_in; intros p Hp. apply in_seq in Hp.
  unfold padded_cell.
  destruct (inside n X p) eqn:Ep; cbn [andb].
  2:{ rewrite <- (map_const_seq _ (Y + 2 * n) 0). apply map_ext; intros q.
      rewrite <- (map_const_seq _ (Z + 2 * n) 0). reflexivity. }
  assert (Hpn : p - n < length a).
  { unfold inside in Ep. apply andb_true_iff in Ep. destruct Ep as [E1 E2].
    apply Nat.leb_le in E1. apply Nat.ltb_lt in E2. lia. }
  rewrite (nth_map_in _ a (p - n) []) by exact Hpn.
  destruct (HF (nth (p - n) a [])) as [HpY HR]; [now apply nth_In|].
  rewrite Forall_forall in HR.
  rewrite pad1_tabulate, length_map, HpY.
  apply map_ext_in; intros q Hq. apply in_seq in Hq.
  destruct (inside n Y q) eqn:Eq; cbn [andb].
  2:{ rewrite <- (map_const_seq _ (Z + 2 * n) 0). reflexivity. }
  assert (Hqn : q - n < length (nth (p - n) a [])).
  { unfold inside in Eq. apply andb_true_iff in Eq. destruct Eq as [E1 E2].
    apply Nat.leb_le in E1. apply Nat.ltb_lt in E2. lia. }
  rewrite (nth_map_in _ (nth (p - n) a []) (q - n) []) by exact Hqn.
  assert (HZ : length (nth (q - n) (nth (p - n) a []) []) = Z)
    by (apply HR; now apply nth_In).
  rewrite pad1_tabulate, HZ.
  apply map_ext; intros r. reflexivity.
Qed.

Lemma has_shape_ones_like (a : grid) (X Y Z : nat) :
  has_shape a X Y Z -> has_shape (ones_like a) X Y Z.
Proof.
  intros [HL HF]. unfold ones_like, map3. split; [now rewrite length_map|].
  apply Forall_map. revert HF. apply Forall_impl. intros p [HY HR].
  rewrite length_map. split; [exact HY|].
  apply Forall_map. revert HR. apply Forall_impl. intros r Hr.
  now rewrite length_map.
Qed.

Lemma ones_like_tabulate (a : grid) (X Y Z : nat) :
  has_shape a X Y Z -> ones_like a = tabulate3 X Y Z (fun _ _ _ => fone).
Proof.
  intros Hs. unfold ones_like.
  rewrite <- (tabulate3_get3 a X Y Z Hs) at 1. apply map3_tabulate3.
Qed.

(** ** The filter computes the neighbourhood mean *)

Lemma chebyshev_le (i j k i' j' k' n : nat) :
  (chebyshev (i, j, k) (i', j', k') <=? n) =
  (absdiff i i' <=? n) && (absdiff j j' <=? n) && (absdiff k k' <=? n).
Proof.
  unfold chebyshev.
  destruct (Nat.leb_spec (absdiff i i') n);
    destruct (Nat.leb_spec (absdiff j j') n);
    destruct (Nat.leb_spec (absdiff k k') n); cbn [andb];
    try (apply Nat.leb_le; lia); apply Nat.leb_gt; lia.
Qed.

Lemma in_all_cells (X Y Z i j k : nat) :
  In (i, j, k) (all_cells X Y Z) <-> i < X /\ j < Y /\ k < Z.
Proof.
  unfold all_cells. rewrite in_flat_map. split.
  - intros [i' [Hi H]]. apply in_flat_map in H. destruct H as [j' [Hj H]].
    apply in_map_iff in H. destruct H as [k' [E Hk]].
    inversion E; subst. apply in_seq in Hi, Hj, Hk. lia.
  - intros (Hi & Hj & Hk). exists i. split; [apply in_seq; lia|].
    apply in_flat_map. exists j. split; [apply in_seq; lia|].
    apply in_map_iff. exists k. split; [reflexivity|apply in_seq; lia].
Qed.

Lemma fsum_nest {A B C : Type} (c1 : A -> bool) (c2 : B -> bool) (c3 : C -> bool)
    (v : A -> B -> C -> npfloat) (L1 : list A) (L2 : list B) (L3 : list C) :
  fsum (map (fun x => fsum (map (fun y => fsum (map (fun z =>
     if c1 x && c2 y && c3 z then v x y z else fzero) L3)) L2)) L1) =
  fsum (map (fun x => if c1 x then
     fsum (map (fun y => if c2 y then
        fsum (map (fun z => if c3 z then v x y z else fzero) L3)
        else fzero) L2)
     else fzero) L1).
Proof.
  f_equal. apply map_ext; intros x. destruct (c1 x); cbn [andb].
  - f_equal. apply map_ext; intros y. destruct (c2 y); cbn [andb].
    + reflexivity.
    + apply fsum_zero.
  - rewrite (map_ext _ (fun _ => fzero)) by (intros; apply fsum_zero).
    apply fsum_zero.
Qed.

(** The sum of a window of the padded array is the sum over the
    neighbourhood of its centre. *)
Lemma window_sum_neighbourhood (G : nat -> nat -> nat -> npfloat)
    (X Y Z n i j k : nat) :
  i < X -> j < Y -> k < Z ->
  asum (tabulate3 (2 * n + 1) (2 * n + 1) (2 * n + 1)
          (fun di dj dk =>
             if inside n X (i + di) && inside n Y (j + dj) && inside n Z (k + dk)
             then G (i + di - n) (j + dj - n) (k + dk - n) else fzero)) =
  fsum (map (fun d : nat * nat * nat => let '(i', j', k') := d in G i' j' k')
            (neighbourhood X Y Z n (i, j, k))).
Proof.
  intros Hi Hj Hk.
  rewrite asum_tabulate3.
  rewrite (fsum_nest (fun di => inside n X (i + di)) (fun dj => inside n Y (j + dj))
             (fun dk => inside n Z (k + dk))
             (fun di dj dk => G (i + di - n) (j + dj - n) (k + dk - n))).
  unfold neighbourhood, all_cells.
  rewrite fsum_filter, fsum_flat_map.
  rewrite (map_ext _ _ (fun i' => fsum_flat_map _ _ _)).
  rewrite (map_ext
    (fun i' => fsum (map (fun j' => fsum (map _ (map (fun k' => (i', j', k')) (seq 0 Z))))
                         (seq 0 Y)))
    (fun i' => fsum (map (fun j' => fsum (map (fun k' =>
        if (absdiff i i' <=? n) && (absdiff j j' <=? n) && (absdiff k k' <=? n)
        then G i' j' k' else fzero) (seq 0 Z))) (seq 0 Y)))).
  2:{ intros i'. f_equal. apply map_ext; intros j'. rewrite map_map. f_equal.
      apply map_ext; intros k'. now rewrite chebyshev_le. }
  rewrite (fsum_nest (fun i' => absdiff i i' <=? n) (fun j' => absdiff j j' <=? n)
             (fun k' => absdiff k k' <=? n) G).
  rewrite <- (window_sum_1d
    (fun i' => fsum (map (fun j' => if absdiff j j' <=? n then
       fsum (map (fun k' => if absdiff k k' <=? n then G i' j' k' else fzero) (seq 0 Z))
       else fzero) (seq 0 Y))) X n i Hi).
  f_equal. apply map_ext; intros di. unfold inside at 1.
  destruct ((n <=? i + di) && (i + di <? n + X)); [|reflexivity].
  rewrite <- (window_sum_1d
    (fun j' => fsum (map (fun k' => if absdiff k k' <=? n
                                    then G (i + di - n) j' k' else fzero) (seq 0 Z)))
    Y n j Hj).
  f_equal. apply map_ext; intros dj. unfold inside at 1.
  destruct ((n <=? j + dj) && (j + dj <? n + Y)); [|reflexivity].
  rewrite <- (window_sum_1d (fun k' => G (i + di - n) (j + dj - n) k') Z n k Hk).
  reflexivity.
Qed.

Lemma padded_window_sum (a : grid) (X Y Z n i j k : nat) :
  has_shape a X Y Z -> i < X -> j < Y -> k < Z ->
  asum (block (np_pad a n) i j k (2 * n + 1)) =
  fsum (map (fun d : nat * nat * nat => let '(i', j', k') := d in get3 a i' j' k')
            (neighbourhood X Y Z n (i, j, k))).
Proof.
  intros Hs Hi Hj Hk.
  rewrite (np_pad_tabulate a X Y Z n Hs) by lia.
  rewrite block_tabulate3 by lia.
  unfold padded_cell.
  apply (window_sum_neighbourhood (get3 a) X Y Z n i j k Hi Hj Hk).
Qed.

Lemma neighbourhood_in_bounds (X Y Z n : nat) (c d : nat * nat * nat) :
  In d (neighbourhood X Y Z n c) ->
  let '(i, j, k) := d in i < X /\ j < Y /\ k < Z.
Proof.
  unfold neighbourhood. intros H. apply filter_In in H. destruct H as [H _].
  destruct d as [[i j] k]. now apply in_all_cells.
Qed.

Lemma padded_mask_window_sum (a : grid) (X Y Z n i j k : nat) :
  has_shape a X Y Z -> i < X -> j < Y -> k < Z ->
  asum (block (np_pad (ones_like a) n) i j k (2 * n + 1)) =
  fnat (length (neighbourhood X Y Z n (i, j, k))).
Proof.
  intros Hs Hi Hj Hk.
  rewrite (padded_window_sum _ X Y Z n i j k (has_shape_ones_like a X Y Z Hs) Hi Hj Hk).
  rewrite <- fsum_ones. f_equal. apply map_ext_in. intros [[i' j'] k'] Hd.
  apply neighbourhood_in_bounds in Hd. destruct Hd as (Hi' & Hj' & Hk').
  rewrite (ones_like_tabulate a X Y Z Hs). now apply get3_tabulate3.
Qed.

Lemma sliding_window_view_padded (a : grid) (X Y Z n : nat) :
  has_shape a X Y Z -> 1 <= X -> 1 <= Y -> 1 <= Z ->
  sliding_window_view (np_pad a n) (2 * n + 1) =
  Ok (tabulate3 X Y Z (fun i j k => block (np_pad a n) i j k (2 * n + 1))).
Proof.
  intros Hs HX HY HZ. unfold sliding_window_view.
  rewrite (has_shape_shape (np_pad a n) (X + 2 * n) (Y + 2 * n) (Z + 2 * n)); try lia.
  2:{ rewrite (np_pad_tabulate a X Y Z n Hs HX HY). apply has_shape_tabulate3. }
  destruct (Nat.ltb_spec (X + 2 * n) (2 * n + 1)); [lia|].
  destruct (Nat.ltb_spec (Y + 2 * n) (2 * n + 1)); [lia|].
  destruct (Nat.ltb_spec (Z + 2 * n) (2 * n + 1)); [lia|].
  cbn [orb].
  replace (X + 2 * n - (2 * n + 1) + 1) with X by lia.
  replace (Y + 2 * n - (2 * n + 1) + 1) with Y by lia.
  replace (Z + 2 * n - (2 * n + 1) + 1) with Z by lia.
  reflexivity.
Qed.

(** On an array with at least one cell along every axis the filter
    succeeds: each cell is a window sum of the padded array divided by the
    same window sum of the padded mask. *)
Lemma local_average_3d_blocks (a : grid) (X Y Z n : nat) :
  has_shape a X Y Z -> 1 <= X -> 1 <= Y -> 1 <= Z ->
  local_average_3d a n =
  Ok (tabulate3 X Y Z (fun i j k =>
        fdiv (asum (block (np_pad a n) i j k (2 * n + 1)))
             (asum (block (np_pad (ones_like a) n) i j k (2 * n + 1))))).
Proof.
  intros Hs HX HY HZ. unfold local_average_3d.
  rewrite (sliding_window_view_padded a X Y Z n Hs HX HY HZ).
  rewrite (sliding_window_view_padded (ones_like a) X Y Z n
             (has_shape_ones_like a X Y Z Hs) HX HY HZ).
  cbn [bind]. f_equal. unfold window_sums.
  now rewrite !map_tabulate3, zip_with3_tabulate3.
Qed.

(** Cell by cell, that quotient is the mean over the in-bounds
    neighbourhood. *)
Lemma local_average_3d_tabulate (a : grid) (X Y Z n : nat) :
  has_shape a X Y Z -> 1 <= X -> 1 <= Y -> 1 <= Z ->
  local_average_3d a n =
  Ok (tabulate3 X Y Z (fun i j k => neighbourhood_mean a n (i, j, k))).
Proof.
  intros Hs HX HY HZ.
  rewrite (local_average_3d_blocks a X Y Z n Hs HX HY HZ). f_equal.
  apply tabulate3_ext; intros i j k Hi Hj Hk.
  rewrite (padded_window_sum a X Y Z n i j k Hs Hi Hj Hk).
  rewrite (padded_mask_window_sum a X Y Z n i j k Hs Hi Hj Hk).
  unfold neighbourhood_mean, neighbourhood_sum, neighbourhood_count.
  now rewrite (has_shape_shape a X Y Z Hs HX HY).
Qed.

(** ** Comparing concrete arrays *)

Lemma npfloat_eqb_eq (x y : npfloat) : npfloat_eqb x y = true -> x = y.
Proof.
  destruct x, y; simpl; try discriminate; try reflexivity.
  intros H. apply Qc_eq_bool_true in H. now subst.
Qed.

Lemma list_eqb_eq {A : Type} (eqb : A -> A -> bool) :
  (forall x y, eqb x y = true -> x = y) ->
  forall l m, list_eqb eqb l m = true -> l = m.
Proof.
  intros H l. induction l as [|x l IH]; intros [|y m]; simpl;
    try discriminate; try reflexivity.
  intros E. apply andb_true_iff in E. destruct E as [E1 E2].
  f_equal; [now apply H|now apply IH].
Qed.

Lemma grid_eqb_eq (a b : grid) : grid_eqb a b = true -> a = b.
Proof.
  apply list_eqb_eq, list_eqb_eq, list_eqb_eq. exact npfloat_eqb_eq.
Qed.

Lemma result_grid_eq (r : result grid) (b : grid) :
  match r with Ok a => grid_eqb a b | Raise _ => false end = true -> r = Ok b.
Proof.
  destruct r as [a|e]; [|discriminate].
  intros H. f_equal. now apply grid_eqb_eq.
Qed.

Lemma column5_shape : has_shape column5 5 1 1.
Proof. split; [reflexivity|]. repeat constructor. Qed.

(** ** The smoothing filter: claims *)

(** C1.  For every 3-D array, every radius [n >= 1] and every cell of the
    array, the filter succeeds and its output at that cell is the sum of
    the in-bounds cells within Chebyshev distance [n] divided by the number
    of those cells (not by the window volume [(2n+1)^3]).  In particular, on
    [[1,2,3,4,5]] laid along one axis with [n = 1], the output at index 0 is
    the mean 3/2 of its 2 in-bounds neighbours and at index 2 the mean 3 of
    its 3 neighbours. *)
Theorem local_average_3d_in_bounds_mean :
  (forall (a : grid) (X Y Z n i j k : nat),
      has_shape a X Y Z -> 1 <= n -> i < X -> j < Y -> k < Z ->
      exists out,
        local_average_3d a n = Ok out /\
        has_shape out X Y Z /\
        lookup3 out i j k =
          Some (fdiv (neighbourhood_sum a n (i, j, k))
                     (fnat (neighbourhood_count a n (i, j, k))))) /\
  (exists out,
      local_average_3d column5 1 = Ok out /\
      neighbourhood_count column5 1 (0, 0, 0) = 2 /\
      lookup3 out 0 0 0 = Some (frac 3 2) /\
      neighbourhood_count column5 1 (2, 0, 0) = 3 /\
      lookup3 out 2 0 0 = Some (frac 3 1)).
Proof.
  split.
  - intros a X Y Z n i j k Hs _ Hi Hj Hk.
    eexists. split; [|split].
    + apply (local_average_3d_tabulate a X Y Z n Hs); lia.
    + apply has_shape_tabulate3.
    + now rewrite lookup3_tabulate3.
  - eexists. split; [|split; [|split; [|split]]].
    + apply (local_average_3d_tabulate column5 5 1 1 1 column5_shape); lia.
    + reflexivity.
    + rewrite lookup3_tabulate3 by lia.
      apply f_equal, npfloat_eqb_eq. vm_compute. reflexivity.
    + reflexivity.
    + rewrite lookup3_tabulate3 by lia.
      apply f_equal, npfloat_eqb_eq. vm_compute. reflexivity.
Qed.

Lemma local_average_3d_in_bounds_mean_witness :
  has_shape column5 5 1 1 /\ 1 <= 1 /\ 0 < 5 /\ 0 < 1 /\
  exists out,
    local_average_3d column5 1 = Ok out /\
    has_shape out 5 1 1 /\
    lookup3 out 0 0 0 =
      Some (fdiv (neighbourhood_sum column5 1 (0, 0, 0))
                 (fnat (neighbourhood_count column5 1 (0, 0, 0)))).
Proof.
  split; [exact column5_shape|].
  split; [lia|]. split; [lia|]. split; [lia|].
  apply (proj1 local_average_3d_in_bounds_mean column5 5 1 1 1 0 0 0).
  - exact column5_shape.
  - lia.
  - lia.
  - lia.
  - lia.
Defined.

Lemma fdiv_1_r (x : npfloat) : fdiv x fone = x.
Proof.
  destruct x; unfold fdiv, fone; try reflexivity.
  replace (Qc_eq_bool 1 0) with false by (symmetry; now apply Qc_eq_bool_false).
  f_equal. field. discriminate.
Qed.

Lemma inside_0 (X i : nat) : i < X -> inside 0 X (i + 0) = true.
Proof.
  intros H. unfold inside. rewrite Nat.add_0_r. cbn [Nat.leb andb Nat.add].
  now apply Nat.ltb_lt.
Qed.

Lemma unit_window_sum (a : grid) (X Y Z i j k : nat) :
  has_shape a X Y Z -> i < X -> j < Y -> k < Z ->
  asum (block (np_pad a 0) i j k (2 * 0 + 1)) = get3 a i j k.
Proof.
  intros Hs Hi Hj Hk.
  rewrite (np_pad_tabulate a X Y Z 0 Hs) by lia.
  rewrite block_tabulate3 by lia.
  rewrite asum_tabulate3. cbn [Nat.mul Nat.add seq map fsum fold_right].
  rewrite !fadd_0_r. unfold padded_cell.
  rewrite (inside_0 X i Hi), (inside_0 Y j Hj), (inside_0 Z k Hk).
  cbn [andb]. rewrite !Nat.add_0_r, !Nat.sub_0_r. reflexivity.
Qed.

(** C6, as amended.  For every 3-D array with at least one cell along
    every axis, the filter with radius 0 returns its input. *)
Theorem local_average_3d_radius_0_identity (a : grid) (X Y Z : nat) :
  has_shape a X Y Z -> 1 <= X -> 1 <= Y -> 1 <= Z ->
  local_average_3d a 0 = Ok a.
Proof.
  intros Hs HX HY HZ.
  rewrite (local_average_3d_blocks a X Y Z 0 Hs HX HY HZ). f_equal.
  etransitivity; [|apply (tabulate3_get3 a X Y Z Hs)].
  apply tabulate3_ext; intros i j k Hi Hj Hk.
  rewrite (unit_window_sum a X Y Z i j k Hs Hi Hj Hk).
  rewrite (unit_window_sum (ones_like a) X Y Z i j k
             (has_shape_ones_like a X Y Z Hs) Hi Hj Hk).
  rewrite (ones_like_tabulate a X Y Z Hs), get3_tabulate3 by assumption.
  apply fdiv_1_r.
Qed.

Lemma local_average_3d_radius_0_identity_witness :
  has_shape column5 5 1 1 /\ 1 <= 5 /\ 1 <= 1 /\
  local_average_3d column5 0 = Ok column5.
Proof.
  split; [exact column5_shape|]. split; [lia|]. split; [lia|].
  apply (local_average_3d_radius_0_identity column5 5 1 1).
  - exact column5_shape.
  - lia.
  - lia.
  - lia.
Defined.

(** C6, as stated, fails on an array with an empty axis: the padded
    array is then shorter than the window, and [sliding_window_view]
    raises ValueError instead of returning the (empty) input. *)
Lemma local_average_3d_radius_0_empty_array :
  local_average_3d [] 0 = Raise ValueError /\
  local_average_3d [] 0 <> Ok [] /\
  local_average_3d [[]; []] 0 = Raise ValueError /\
  local_average_3d [[]; []] 0 <> Ok [[]; []].
Proof. repeat split; try reflexivity; discriminate. Qed.

(** ** Bounds on sums and means *)

Lemma fsum_bounds (lo hi : Qc) (l : list npfloat) :
  Forall (fun x => exists q, x = Fin q /\ (lo <= q)%Qc /\ (q <= hi)%Qc) l ->
  exists s, fsum l = Fin s /\
            (Qc_of_nat (length l) * lo <= s)%Qc /\
            (s <= Qc_of_nat (length l) * hi)%Qc.
Proof.
  induction 1 as [|x l (q & -> & Hlo & Hhi) _ (s & Es & Slo & Shi)].
  - exists 0%Qc. simpl. rewrite Qc_of_nat_0.
    split; [reflexivity|]. split.
    + replace (0 * lo)%Qc with 0%Qc by ring. apply Qcle_refl.
    + replace (0 * hi)%Qc with 0%Qc by ring. apply Qcle_refl.
  - exists (q + s)%Qc. cbn [fsum fold_right length].
    fold (fsum l). rewrite Es. split; [reflexivity|].
    rewrite Qc_of_nat_S. split.
    + replace ((1 + Qc_of_nat (length l)) * lo)%Qc
        with (lo + Qc_of_nat (length l) * lo)%Qc by ring.
      now apply Qcplus_le_compat.
    + replace ((1 + Qc_of_nat (length l)) * hi)%Qc
        with (hi + Qc_of_nat (length l) * hi)%Qc by ring.
      now apply Qcplus_le_compat.
Qed.

Lemma Qc_pos_neq_0 (c : Qc) : (0 < c)%Qc -> c <> 0%Qc.
Proof. intros H E. subst. now apply (Qclt_not_eq _ _ H). Qed.

Lemma mean_bounds (lo hi s c : Qc) :
  (0 < c)%Qc -> (c * lo <= s)%Qc -> (s <= c * hi)%Qc ->
  (lo <= s / c)%Qc /\ (s / c <= hi)%Qc.
Proof.
  intros Hc Hlo Hhi. pose proof (Qc_pos_neq_0 c Hc) as Hn. split.
  - apply (Qcmult_lt_0_le_reg_r _ _ c Hc).
    replace (s / c * c)%Qc with s by (field; exact Hn).
    now rewrite Qcmult_comm.
  - apply (Qcmult_lt_0_le_reg_r _ _ c Hc).
    replace (s / c * c)%Qc with s by (field; exact Hn).
    now rewrite (Qcmult_comm hi c).
Qed.

Lemma fdiv_by_count (s : Qc) (c : nat) :
  1 <= c -> fdiv (Fin s) (fnat c) = Fin (s / Qc_of_nat c)%Qc.
Proof.
  intros H. unfold fdiv, fnat.
  replace (Qc_eq_bool (Qc_of_nat c) 0) with false; [reflexivity|].
  symmetry. apply Qc_eq_bool_false, Qc_pos_neq_0, Qc_of_nat_pos, H.
Qed.

Lemma get3_in_flatten (a : grid) (X Y Z i j k : nat) :
  has_shape a X Y Z -> i < X -> j < Y -> k < Z ->
  In (get3 a i j k) (flatten a).
Proof.
  intros [HL HF] Hi Hj Hk. rewrite Forall_forall in HF.
  assert (Hp : In (nth i a []) a) by (apply nth_In; lia).
  destruct (HF _ Hp) as [HY HR]. rewrite Forall_forall in HR.
  assert (Hr : In (nth j (nth i a []) []) (nth i a [])) by (apply nth_In; lia).
  unfold flatten, get3. apply in_concat.
  exists (nth j (nth i a []) []). split.
  - apply in_concat. exists (nth i a []). now split.
  - apply nth_In. rewrite (HR _ Hr). exact Hk.
Qed.

Lemma in_flatten_tabulate3 (X Y Z : nat) (F : nat -> nat -> nat -> npfloat)
    (v : npfloat) :
  In v (flatten (tabulate3 X Y Z F)) ->
  exists i j k, i < X /\ j < Y /\ k < Z /\ v = F i j k.
Proof.
  unfold flatten, tabulate3. intros H.
  apply in_concat in H. destruct H as (r & Hr & Hv).
  apply in_concat in Hr. destruct Hr as (p & Hp & Hr).
  apply in_map_iff in Hp. destruct Hp as (i & <- & Hi).
  apply in_map_iff in Hr. destruct Hr as (j & <- & Hj).
  apply in_map_iff in Hv. destruct Hv as (k & <- & Hk).
  apply in_seq in Hi, Hj, Hk. exists i, j, k. repeat split; lia.
Qed.

Lemma centre_in_neighbourhood (X Y Z n i j k : nat) :
  i < X -> j < Y -> k < Z -> In (i, j, k) (neighbourhood X Y Z n (i, j, k)).
Proof.
  intros Hi Hj Hk. unfold neighbourhood. apply filter_In. split.
  - now apply in_all_cells.
  - rewrite chebyshev_le. unfold absdiff. rewrite !Nat.sub_diag. reflexivity.
Qed.

(** Where every cell lies in [[lo, hi]], so does every neighbourhood
    mean. *)
Lemma neighbourhood_mean_interval (lo hi : Qc) (a : grid) (X Y Z n i j k : nat) :
  has_shape a X Y Z -> 1 <= X -> 1 <= Y -> i < X -> j < Y -> k < Z ->
  Forall (fun x => exists q, x = Fin q /\ (lo <= q)%Qc /\ (q <= hi)%Qc) (flatten a) ->
  exists q, neighbourhood_mean a n (i, j, k) = Fin q /\ (lo <= q)%Qc /\ (q <= hi)%Qc.
Proof.
  intros Hs HX HY Hi Hj Hk Hall.
  unfold neighbourhood_mean, neighbourhood_sum, neighbourhood_count.
  rewrite (has_shape_shape a X Y Z Hs HX HY).
  destruct (fsum_bounds lo hi
    (map (fun d : nat * nat * nat => let '(i', j', k') := d in get3 a i' j' k')
         (neighbourhood X Y Z n (i, j, k)))) as (s & Es & Slo & Shi).
  { apply Forall_map, Forall_forall. intros [[i' j'] k'] Hd.
    apply neighbourhood_in_bounds in Hd. destruct Hd as (Hi' & Hj' & Hk').
    rewrite Forall_forall in Hall. apply Hall.
    now apply (get3_in_flatten a X Y Z). }
  rewrite length_map in Slo, Shi.
  assert (Hc : 1 <= length (neighbourhood X Y Z n (i, j, k))).
  { pose proof (centre_in_neighbourhood X Y Z n i j k Hi Hj Hk) as Hin.
    destruct (neighbourhood X Y Z n (i, j, k)); [contradiction|simpl; lia]. }
  rewrite Es, (fdiv_by_count s _ Hc).
  eexists. split; [reflexivity|].
  apply mean_bounds; [now apply Qc_of_nat_pos|assumption|assumption].
Qed.

Lemma local_average_3d_interval (lo hi : Qc) (a : grid) (X Y Z n : nat) :
  has_shape a X Y Z -> 1 <= X -> 1 <= Y -> 1 <= Z ->
  Forall (fun x => exists q, x = Fin q /\ (lo <= q)%Qc /\ (q <= hi)%Qc) (flatten a) ->
  exists out,
    local_average_3d a n = Ok out /\
    has_shape out X Y Z /\
    Forall (fun v => exists q, v = Fin q /\ (lo <= q)%Qc /\ (q <= hi)%Qc) (flatten out).
Proof.
  intros Hs HX HY HZ Hall. eexists. split; [|split].
  - apply (local_average_3d_tabulate a X Y Z n Hs HX HY HZ).
  - apply has_shape_tabulate3.
  - apply Forall_forall. intros v Hv.
    apply in_flatten_tabulate3 in Hv.
    destruct Hv as (i & j & k & Hi & Hj & Hk & ->).
    now apply (neighbourhood_mean_interval lo hi a X Y Z n i j k).
Qed.

(** ** Minimum and maximum of a finite array *)

Lemma fold_minimum_spec (l : list npfloat) (q : Qc) :
  Forall (fun x => is_finite x = true) l ->
  exists m, fold_left fminimum l (Fin q) = Fin m /\
            (m = q \/ In (Fin m) l) /\
            (m <= q)%Qc /\
            (forall p, In (Fin p) l -> (m <= p)%Qc).
Proof.
  intros H. revert q. induction H as [|x l Hx _ IH]; intros q.
  - exists q. simpl. repeat split; [now left|apply Qcle_refl|contradiction].
  - destruct x as [p| | |]; try discriminate. cbn [fold_left].
    unfold fminimum at 2. unfold flt.
    destruct (Qc_ltb p q) eqn:E.
    + apply Qc_ltb_lt in E. destruct (IH p) as (m & Em & Hin & Hle & Hall).
      exists m. split; [exact Em|]. split; [|split].
      * right. destruct Hin as [->|Hin]; [now left|now right].
      * apply Qcle_trans with p; [exact Hle|now apply Qclt_le_weak].
      * intros p' [Ep|Hp']; [|now apply Hall].
        inversion Ep; subst. exact Hle.
    + apply Qc_ltb_ge in E. destruct (IH q) as (m & Em & Hin & Hle & Hall).
      exists m. split; [exact Em|]. split; [|split].
      * destruct Hin as [->|Hin]; [now left|right; now right].
      * exact Hle.
      * intros p' [Ep|Hp']; [|now apply Hall].
        inversion Ep; subst. now apply Qcle_trans with q.
Qed.

Lemma fold_maximum_spec (l : list npfloat) (q : Qc) :
  Forall (fun x => is_finite x = true) l ->
  exists m, fold_left fmaximum l (Fin q) = Fin m /\
            (m = q \/ In (Fin m) l) /\
            (q <= m)%Qc /\
            (forall p, In (Fin p) l -> (p <= m)%Qc).
Proof.
  intros H. revert q. induction H as [|x l Hx _ IH]; intros q.
  - exists q. simpl. repeat split; [now left|apply Qcle_refl|contradiction].
  - destruct x as [p| | |]; try discriminate. cbn [fold_left].
    unfold fmaximum at 2. unfold flt.
    destruct (Qc_ltb q p) eqn:E.
    + apply Qc_ltb_lt in E. destruct (IH p) as (m & Em & Hin & Hle & Hall).
      exists m. split; [exact Em|]. split; [|split].
      * right. destruct Hin as [->|Hin]; [now left|now right].
      * apply Qcle_trans with p; [now apply Qclt_le_weak|exact Hle].
      * intros p' [Ep|Hp']; [|now apply Hall].
        inversion Ep; subst. exact Hle.
    + apply Qc_ltb_ge in E. destruct (IH q) as (m & Em & Hin & Hle & Hall).
      exists m. split; [exact Em|]. split; [|split].
      * destruct Hin as [->|Hin]; [now left|right; now right].
      * exact Hle.
      * intros p' [Ep|Hp']; [|now apply Hall].
        inversion Ep; subst. now apply Qcle_trans with q.
Qed.

Lemma amin_spec (a : grid) :
  all_finite a -> flatten a <> [] ->
  exists m, amin a = Ok (Fin m) /\ In (Fin m) (flatten a) /\
            (forall p, In (Fin p) (flatten a) -> (m <= p)%Qc).
Proof.
  unfold all_finite, amin. intros Hf Hne.
  destruct (flatten a) as [|x l]; [contradiction|].
  inversion Hf as [|? ? Hx Hl]; subst.
  destruct x as [q| | |]; try discriminate.
  destruct (fold_minimum_spec l q Hl) as (m & Em & Hin & Hle & Hall).
  exists m. rewrite Em. split; [reflexivity|]. split.
  - destruct Hin as [->|Hin]; [now left|now right].
  - intros p [Ep|Hp]; [inversion Ep; now subst|now apply Hall].
Qed.

Lemma amax_spec (a : grid) :
  all_finite a -> flatten a <> [] ->
  exists m, amax a = Ok (Fin m) /\ In (Fin m) (flatten a) /\
            (forall p, In (Fin p) (flatten a) -> (p <= m)%Qc).
Proof.
  unfold all_finite, amax. intros Hf Hne.
  destruct (flatten a) as [|x l]; [contradiction|].
  inversion Hf as [|? ? Hx Hl]; subst.
  destruct x as [q| | |]; try discriminate.
  destruct (fold_maximum_spec l q Hl) as (m & Em & Hin & Hle & Hall).
  exists m. rewrite Em. split; [reflexivity|]. split.
  - destruct Hin as [->|Hin]; [now left|now right].
  - intros p [Ep|Hp]; [inversion Ep; now subst|now apply Hall].
Qed.

Lemma flatten_nonempty (a : grid) (X Y Z : nat) :
  has_shape a X Y Z -> 1 <= X -> 1 <= Y -> 1 <= Z -> flatten a <> [].
Proof.
  intros Hs HX HY HZ E.
  pose proof (get3_in_flatten a X Y Z 0 0 0 Hs HX HY HZ) as H.
  rewrite E in H. contradiction.
Qed.

Lemma fle_Fin (p q : Qc) : fle (Fin p) (Fin q) = true <-> (p <= q)%Qc.
Proof. unfold fle. apply Qc_leb_le. Qed.

Lemma between_finite (lo hi : Qc) (x : npfloat) :
  fle (Fin lo) x = true /\ fle x (Fin hi) = true <->
  exists q, x = Fin q /\ (lo <= q)%Qc /\ (q <= hi)%Qc.
Proof.
  split.
  - intros [H1 H2]. destruct x as [q| | |]; try discriminate.
    exists q. split; [reflexivity|]. split; now apply fle_Fin.
  - intros (q & -> & H1 & H2). split; now apply fle_Fin.
Qed.

(** The exact model of the filter is [local_average_3d_over] at the
    values [npfloat]. *)
Lemma local_average_3d_over_npfloat (a : grid) (n : nat) :
  local_average_3d_over npfloat fzero fone fadd fdiv a n = local_average_3d a n.
Proof. reflexivity. Qed.

(** C9, as stated, fails: an output cell can lie outside the range of
    the input.  In binary64 the filter of radius 1 turns the array of shape
    [(3, 1, 1)] that holds 0.1 in every cell, whose minimum and maximum are
    0.1, into [[0.1, 0.10000000000000002, 0.1]]: the middle cell
    [(0.1 + 0.1 + 0.1) / 3] exceeds the maximum of the input.  Two cells
    1e308 are averaged to [inf], as their sum overflows.  An array that
    holds [inf] and [-inf] is filtered to [nan], which no comparison places
    between the minimum [-inf] and the maximum [inf]. *)
Lemma local_average_3d_leaves_input_range :
  local_average_3d_binary64 [[[0.1]]; [[0.1]]; [[0.1]]]%float 1 =
    Ok [[[0.1]]; [[0.10000000000000002]]; [[0.1]]]%float /\
  PrimFloat.ltb 0.1 0.10000000000000002 = true /\
  local_average_3d_binary64 [[[1e308]]; [[1e308]]]%float 1 =
    Ok [[[infinity]]; [[infinity]]] /\
  local_average_3d [[[PInf]]; [[NInf]]] 1 = Ok [[[NaN]]; [[NaN]]] /\
  amin [[[PInf]]; [[NInf]]] = Ok NInf /\
  amax [[[PInf]]; [[NInf]]] = Ok PInf /\
  fle NInf NaN = false /\ fle NaN PInf = false.
Proof.
  repeat split; vm_compute; reflexivity.
Qed.

(** C9, as amended.  For every array with at least one cell along every
    axis whose cells all lie in [[-1, 1]], and every radius, the filter
    succeeds; each cell of its output is the mean over a neighbourhood of at
    least one cell of the input, and lies in [[-1, 1]].  (These bounds do
    not depend on the arithmetic being exact: a sum of [c] cells of
    [[-1, 1]] rounds to a value of magnitude at most [c], and its quotient
    by [c] to one of magnitude at most 1.) *)
Theorem local_average_3d_keeps_unit_range (a : grid) (X Y Z n : nat) :
  has_shape a X Y Z -> 1 <= X -> 1 <= Y -> 1 <= Z ->
  Forall (fun x => fle (frac (-1) 1) x = true /\ fle x (frac 1 1) = true)
         (flatten a) ->
  exists out,
    local_average_3d a n = Ok out /\
    has_shape out X Y Z /\
    (forall i j k, i < X -> j < Y -> k < Z ->
       1 <= neighbourhood_count a n (i, j, k) /\
       lookup3 out i j k = Some (neighbourhood_mean a n (i, j, k))) /\
    Forall (fun v => fle (frac (-1) 1) v = true /\ fle v (frac 1 1) = true)
           (flatten out).
Proof.
  intros Hs HX HY HZ Hall.
  destruct (local_average_3d_interval (Q2Qc (-1 # 1)) (Q2Qc (1 # 1)) a X Y Z n
              Hs HX HY HZ) as (out & Eout & Hso & Hout).
  { revert Hall. apply Forall_impl. intros x Hx. now apply between_finite. }
  exists out. split; [exact Eout|]. split; [exact Hso|]. split.
  - intros i j k Hi Hj Hk. split.
    + unfold neighbourhood_count. rewrite (has_shape_shape a X Y Z Hs HX HY).
      pose proof (centre_in_neighbourhood X Y Z n i j k Hi Hj Hk) as Hin.
      destruct (neighbourhood X Y Z n (i, j, k)); [contradiction|simpl; lia].
    + rewrite (local_average_3d_tabulate a X Y Z n Hs HX HY HZ) in Eout.
      injection Eout as <-. now apply lookup3_tabulate3.
  - revert Hout. apply Forall_impl. intros v Hv. now apply between_finite.
Qed.

Lemma sample_difference_shape : has_shape sample_difference 3 1 1.
Proof. split; [reflexivity|]. repeat constructor. Qed.

Lemma sample_difference_range :
  Forall (fun x => fle (frac (-1) 1) x = true /\ fle x (frac 1 1) = true)
         (flatten sample_difference).
Proof. repeat constructor. Qed.

Lemma local_average_3d_keeps_unit_range_witness :
  has_shape sample_difference 3 1 1 /\ 1 <= 3 /\ 1 <= 1 /\
  Forall (fun x => fle (frac (-1) 1) x = true /\ fle x (frac 1 1) = true)
         (flatten sample_difference) /\
  exists out,
    local_average_3d sample_difference 1 = Ok out /\
    has_shape out 3 1 1 /\
    (forall i j k, i < 3 -> j < 1 -> k < 1 ->
       1 <= neighbourhood_count sample_difference 1 (i, j, k) /\
       lookup3 out i j k = Some (neighbourhood_mean sample_difference 1 (i, j, k))) /\
    Forall (fun v => fle (frac (-1) 1) v = true /\ fle v (frac 1 1) = true)
           (flatten out).
Proof.
  split; [exact sample_difference_shape|]. split; [lia|]. split; [lia|].
  split; [exact sample_difference_range|].
  apply (local_average_3d_keeps_unit_range sample_difference 3 1 1 1).
  - exact sample_difference_shape.
  - lia.
  - lia.
  - lia.
  - exact sample_difference_range.
Defined.

Lemma column5_finite : all_finite column5.
Proof. unfold all_finite. simpl. repeat constructor. Qed.

(** ** Min-max normalisation (lines 98-99) *)

Lemma flatten_map3 (f : npfloat -> npfloat) (a : grid) :
  flatten (map3 f a) = map f (flatten a).
Proof.
  unfold flatten, map3. now rewrite <- !concat_map.
Qed.

Lemma map3_ext_in (f g : npfloat -> npfloat) (a : grid) :
  (forall x, In x (flatten a) -> f x = g x) -> map3 f a = map3 g a.
Proof.
  intros H. unfold map3.
  apply map_ext_in; intros p Hp.
  apply map_ext_in; intros r Hr.
  apply map_ext_in; intros x Hx.
  apply H. unfold flatten. apply in_concat. exists r. split; [|exact Hx].
  apply in_concat. exists p. now split.
Qed.

Lemma fsub_Fin (p q : Qc) : fsub (Fin p) (Fin q) = Fin (p + - q)%Qc.
Proof. reflexivity. Qed.

Lemma fdiv_Fin (p q : Qc) : q <> 0%Qc -> fdiv (Fin p) (Fin q) = Fin (p / q)%Qc.
Proof.
  intros H. unfold fdiv.
  now replace (Qc_eq_bool q 0) with false by (symmetry; now apply Qc_eq_bool_false).
Qed.

Lemma fdiv_0_0 : fdiv (Fin 0%Qc) (Fin 0%Qc) = NaN.
Proof. reflexivity. Qed.

Lemma Qc_gap_pos (m M : Qc) : (m < M)%Qc -> (0 < M + - m)%Qc.
Proof. intros H. exact (proj1 (Qclt_minus_iff m M) H). Qed.

(** The normalised value of a cell [q] of a grid with extremes
    [m < M] lies in [[0, 1]]. *)
Lemma normalised_cell_range (m M q : Qc) :
  (m < M)%Qc -> (m <= q)%Qc -> (q <= M)%Qc ->
  (0 <= (q + - m) / (M + - m))%Qc /\ ((q + - m) / (M + - m) <= 1)%Qc.
Proof.
  intros HmM Hm HM. apply mean_bounds.
  - now apply Qc_gap_pos.
  - replace ((M + - m) * 0)%Qc with 0%Qc by ring.
    exact (proj1 (Qcle_minus_iff m q) Hm).
  - replace ((M + - m) * 1)%Qc with (M + - m)%Qc by ring.
    apply Qcplus_le_compat; [exact HM|apply Qcle_refl].
Qed.

Lemma minmax_normalize_eq (d : grid) (lo hi : npfloat) :
  amin d = Ok lo -> amax d = Ok hi ->
  minmax_normalize d = Ok (map3 (fun v => fdiv (fsub v lo) (fsub hi lo)) d).
Proof. intros Elo Ehi. unfold minmax_normalize. now rewrite Elo, Ehi. Qed.

Lemma amin_nonempty (d : grid) (lo : npfloat) : amin d = Ok lo -> flatten d <> [].
Proof. unfold amin. destruct (flatten d); [discriminate|discriminate]. Qed.

(** A grid of finite values with [min < max] is normalised to a grid
    with minimum 0 and maximum 1. *)
Lemma minmax_normalize_finite (d : grid) (lo hi : npfloat) :
  all_finite d -> amin d = Ok lo -> amax d = Ok hi -> flt lo hi = true ->
  exists d',
    minmax_normalize d = Ok d' /\
    amin d' = Ok (Fin 0%Qc) /\ amax d' = Ok (Fin 1%Qc).
Proof.
  intros Hf Elo Ehi Hlt.
  pose proof (amin_nonempty d lo Elo) as Hne.
  destruct (amin_spec d Hf Hne) as (m & Em & Hmin & Hm).
  destruct (amax_spec d Hf Hne) as (M & EM & Hmax & HM).
  rewrite Em in Elo. rewrite EM in Ehi.
  inversion Elo; subst lo. inversion Ehi; subst hi.
  unfold flt in Hlt. apply Qc_ltb_lt in Hlt.
  pose proof (Qc_pos_neq_0 _ (Qc_gap_pos m M Hlt)) as Hgap.
  set (f := fun v => fdiv (fsub v (Fin m)) (fsub (Fin M) (Fin m))).
  assert (Hcell : forall q, f (Fin q) = Fin ((q + - m) / (M + - m))%Qc).
  { intros q. unfold f. rewrite !fsub_Fin. now apply fdiv_Fin. }
  exists (map3 f d). split; [apply (minmax_normalize_eq d _ _ Em EM)|].
  assert (Hf' : all_finite (map3 f d)).
  { unfold all_finite in *. rewrite flatten_map3. apply Forall_map.
    revert Hf. apply Forall_impl. intros x Hx.
    destruct x as [q| | |]; try discriminate. now rewrite Hcell. }
  assert (Hne' : flatten (map3 f d) <> []).
  { rewrite flatten_map3. destruct (flatten d); [contradiction|discriminate]. }
  assert (Hrange : forall p, In (Fin p) (flatten (map3 f d)) ->
                             (0 <= p)%Qc /\ (p <= 1)%Qc).
  { intros p Hp. rewrite flatten_map3 in Hp. apply in_map_iff in Hp.
    destruct Hp as (x & Ex & Hx).
    unfold all_finite in Hf. rewrite Forall_forall in Hf.
    pose proof (Hf x Hx) as Fx. destruct x as [q| | |]; try discriminate.
    rewrite Hcell in Ex. inversion Ex; subst p.
    apply normalised_cell_range; [exact Hlt|now apply Hm|now apply HM]. }
  assert (H0 : In (Fin 0%Qc) (flatten (map3 f d))).
  { rewrite flatten_map3. apply in_map_iff. exists (Fin m). split; [|exact Hmin].
    rewrite Hcell. f_equal. field. exact Hgap. }
  assert (H1 : In (Fin 1%Qc) (flatten (map3 f d))).
  { rewrite flatten_map3. apply in_map_iff. exists (Fin M). split; [|exact Hmax].
    rewrite Hcell. f_equal. field. exact Hgap. }
  destruct (amin_spec _ Hf' Hne') as (m' & Em' & Hin' & Hm').
  destruct (amax_spec _ Hf' Hne') as (M' & EM' & Hax' & HM').
  split.
  - rewrite Em'. do 2 f_equal. apply Qcle_antisym.
    + now apply Hm'.
    + now apply Hrange.
  - rewrite EM'. do 2 f_equal. apply Qcle_antisym.
    + now apply Hrange.
    + now apply HM'.
Qed.

(** C5, as amended.  On a flat grid of finite values the normalisation
    step raises nothing: it divides 0 by 0 in every cell and returns a grid
    of the same shape filled with [nan]. *)
Theorem minmax_normalize_flat_gives_nan (d : grid) (v : npfloat) :
  all_finite d -> amin d = Ok v -> amax d = Ok v ->
  minmax_normalize d = Ok (map3 (fun _ => NaN) d).
Proof.
  intros Hf Elo Ehi.
  pose proof (amin_nonempty d v Elo) as Hne.
  destruct (amin_spec d Hf Hne) as (m & Em & _ & Hm).
  destruct (amax_spec d Hf Hne) as (M & EM & _ & HM).
  rewrite Em in Elo. rewrite EM in Ehi.
  inversion Elo; subst v. inversion Ehi; subst M.
  rewrite (minmax_normalize_eq d _ _ Em EM). f_equal.
  apply map3_ext_in. intros x Hx.
  unfold all_finite in Hf. rewrite Forall_forall in Hf.
  pose proof (Hf x Hx) as Fx. destruct x as [q| | |]; try discriminate.
  assert (q = m) by (apply Qcle_antisym; [now apply HM|now apply Hm]).
  subst q. rewrite fsub_Fin.
  replace (m + - m)%Qc with 0%Qc by ring. apply fdiv_0_0.
Qed.

Lemma minmax_normalize_flat_gives_nan_witness :
  all_finite [[[fone]]] /\ amin [[[fone]]] = Ok fone /\ amax [[[fone]]] = Ok fone /\
  minmax_normalize [[[fone]]] = Ok [[[NaN]]].
Proof.
  assert (Hf : all_finite [[[fone]]]) by (unfold all_finite; simpl; repeat constructor).
  split; [exact Hf|]. split; [reflexivity|]. split; [reflexivity|].
  apply (minmax_normalize_flat_gives_nan [[[fone]]] fone Hf); reflexivity.
Defined.

(** ** Bin edges *)

Lemma Qc_of_nat_neq_0 (g : nat) : 1 <= g -> Qc_of_nat g <> 0%Qc.
Proof. intros H. now apply Qc_pos_neq_0, Qc_of_nat_pos. Qed.

Lemma Qc_div_pos (a c : Qc) : (0 < a)%Qc -> (0 < c)%Qc -> (0 < a / c)%Qc.
Proof.
  intros Ha Hc. apply Qcnot_le_lt. intros H.
  apply (Qclt_not_le _ _ Ha).
  replace a with (a / c * c)%Qc by (field; now apply Qc_pos_neq_0).
  replace 0%Qc with (0 * c)%Qc by ring.
  apply Qcmult_le_compat_r; [exact H|now apply Qclt_le_weak].
Qed.

Lemma edge_0 (a : Qc) (g : nat) : edge a g 0 = 0%Qc.
Proof. unfold edge. rewrite Qc_of_nat_0. ring. Qed.

Lemma edge_last (a : Qc) (g : nat) : 1 <= g -> edge a g g = a.
Proof. intros H. unfold edge. field. now apply Qc_of_nat_neq_0. Qed.

Lemma edge_S (a : Qc) (g k : nat) :
  edge a g (S k) = (edge a g k + a / Qc_of_nat g)%Qc.
Proof. unfold edge. rewrite Qc_of_nat_S. ring. Qed.

Lemma edge_lt_S (a : Qc) (g k : nat) :
  (0 < a)%Qc -> 1 <= g -> (edge a g k < edge a g (S k))%Qc.
Proof.
  intros Ha Hg. rewrite edge_S.
  apply Qclt_minus_iff.
  replace (edge a g k + a / Qc_of_nat g + - edge a g k)%Qc
    with (a / Qc_of_nat g)%Qc by ring.
  apply Qc_div_pos; [exact Ha|now apply Qc_of_nat_pos].
Qed.

Lemma edge_lt (a : Qc) (g k k' : nat) :
  (0 < a)%Qc -> 1 <= g -> k < k' -> (edge a g k < edge a g k')%Qc.
Proof.
  intros Ha Hg H. induction H as [|k' _ IH].
  - now apply edge_lt_S.
  - apply Qclt_trans with (edge a g k'); [exact IH|now apply edge_lt_S].
Qed.

Lemma edge_le (a : Qc) (g k k' : nat) :
  (0 < a)%Qc -> 1 <= g -> k <= k' -> (edge a g k <= edge a g k')%Qc.
Proof.
  intros Ha Hg H. destruct (Nat.eq_dec k k') as [->|Hn].
  - apply Qcle_refl.
  - apply Qclt_le_weak, edge_lt; [assumption|assumption|lia].
Qed.

(** The edges [np.linspace(0, a, grid_size + 1)] are the boundaries
    [k * a / grid_size]. *)
Lemma linspace_edges (a : Qc) (g : nat) :
  1 <= g ->
  linspace fzero (Fin a) (g + 1) = map (fun k => Fin (edge a g k)) (seq 0 (g + 1)).
Proof.
  intros Hg. rewrite Nat.add_1_r. destruct g as [|g']; [lia|].
  cbn [linspace]. rewrite (seq_S (S g') 0), map_app. cbn [map Nat.add]. f_equal.
  - apply map_ext; intros k. unfold fzero, fnat.
    rewrite fsub_Fin, fdiv_Fin by now apply Qc_of_nat_neq_0.
    unfold fmul, fadd, edge. f_equal. field. now apply Qc_of_nat_neq_0.
  - now rewrite edge_last.
Qed.

Lemma length_linspace_edges (a : Qc) (g : nat) :
  1 <= g -> length (linspace fzero (Fin a) (g + 1)) = g + 1.
Proof.
  intros Hg. now rewrite linspace_edges, length_map, length_seq.
Qed.

Lemma any_decreasing_monotone (h : nat -> Qc) (n s : nat) :
  (forall k, (h k <= h (S k))%Qc) ->
  any_decreasing (map (fun k => Fin (h k)) (seq s n)) = false.
Proof.
  intros Hh. revert s. induction n as [|n IH]; intros s; [reflexivity|].
  specialize (IH (S s)). destruct n as [|n]; [reflexivity|].
  cbn [seq map any_decreasing] in *. rewrite IH, orb_false_r.
  unfold flt. now apply Qc_ltb_ge.
Qed.

Lemma linspace_not_decreasing (a : Qc) (g : nat) :
  (0 < a)%Qc -> 1 <= g ->
  any_decreasing (linspace fzero (Fin a) (g + 1)) = false.
Proof.
  intros Ha Hg. rewrite linspace_edges by exact Hg.
  apply (any_decreasing_monotone (edge a g)).
  intros k. now apply Qclt_le_weak, edge_lt_S.
Qed.

Lemma last_linspace (a : Qc) (g : nat) :
  1 <= g -> last (linspace fzero (Fin a) (g + 1)) NaN = Fin a.
Proof.
  intros Hg. rewrite linspace_edges by exact Hg.
  rewrite Nat.add_1_r, seq_S, map_app. cbn [map Nat.add].
  now rewrite last_last, edge_last.
Qed.

(** ** Bin numbers *)

Lemma filter_map_comm {A B : Type} (P : B -> bool) (f : A -> B) (l : list A) :
  filter P (map f l) = map f (filter (fun x => P (f x)) l).
Proof.
  induction l as [|x l IH]; simpl; [reflexivity|].
  destruct (P (f x)); simpl; now rewrite IH.
Qed.

Lemma filter_ext_in' {A : Type} (P Q : A -> bool) (l : list A) :
  (forall x, In x l -> P x = Q x) -> filter P l = filter Q l.
Proof.
  induction l as [|x l IH]; intros H; simpl; [reflexivity|].
  rewrite (H x) by now left. rewrite IH; [reflexivity|].
  intros y Hy. apply H. now right.
Qed.

Lemma sort_le_Fin (p q : Qc) : sort_le (Fin p) (Fin q) = Qc_leb p q.
Proof. reflexivity. Qed.

Lemma Qc_leb_false (p q : Qc) : Qc_leb p q = false <-> (q < p)%Qc.
Proof.
  split.
  - intros H. apply Qcnot_le_lt. intros L. apply Qc_leb_le in L. congruence.
  - intros H. destruct (Qc_leb p q) eqn:E; [|reflexivity].
    apply Qc_leb_le in E. exfalso. now apply (Qclt_not_le _ _ H).
Qed.

Section Bins.

Variable a : Qc.
Variable g : nat.
Hypothesis a_pos : (0 < a)%Qc.
Hypothesis g_pos : 1 <= g.

Let edges := linspace fzero (Fin a) (g + 1).

Lemma edge_le_a (k : nat) : k <= g -> (edge a g k <= a)%Qc.
Proof.
  intros Hk. pose proof (edge_le a g k g a_pos g_pos Hk) as H.
  now rewrite (edge_last a g g_pos) in H.
Qed.

Lemma edge_ge_0 (k : nat) : (0 <= edge a g k)%Qc.
Proof.
  pose proof (edge_le a g 0 k a_pos g_pos (Nat.le_0_l k)) as H.
  now rewrite edge_0 in H.
Qed.

(** The edges up to [x] are the first [m] ones. *)
Lemma searchsorted_right_count (x : Qc) (m : nat) :
  m <= g + 1 ->
  (forall k, k < m -> (edge a g k <= x)%Qc) ->
  (forall k, m <= k -> k <= g -> (x < edge a g k)%Qc) ->
  searchsorted_right edges (Fin x) = m.
Proof.
  intros Hm Hlow Hhigh. unfold searchsorted_right, edges.
  rewrite linspace_edges by exact g_pos.
  rewrite filter_map_comm, length_map.
  rewrite (filter_ext_in' _ (fun k => (0 <=? k) && (k <? m))).
  - rewrite filter_seq_interval, length_seq. lia.
  - intros k Hk. apply in_seq in Hk. rewrite sort_le_Fin. cbn [Nat.leb andb].
    destruct (Nat.ltb_spec k m) as [E|E].
    + now apply Qc_leb_le, Hlow.
    + apply Qc_leb_false, Hhigh; lia.
Qed.

Lemma feqb_Fin_false (x y : Qc) : x <> y -> feqb (Fin x) (Fin y) = false.
Proof. intros H. now apply Qc_eq_bool_false. Qed.

Lemma feqb_Fin_refl (x : Qc) : feqb (Fin x) (Fin x) = true.
Proof. now apply Qc_eq_bool_true. Qed.

Lemma bin_number_interior (x : Qc) (i : nat) :
  i < g -> (edge a g i <= x)%Qc -> (x < edge a g (S i))%Qc ->
  bin_number edges (Fin x) = S i.
Proof.
  intros Hi Hlo Hhi. unfold bin_number.
  rewrite (searchsorted_right_count x (S i)).
  - unfold edges. rewrite last_linspace by exact g_pos.
    rewrite feqb_Fin_false; [reflexivity|].
    intros ->. apply (Qclt_not_le _ _ Hhi). apply edge_le_a. lia.
  - lia.
  - intros k Hk. apply Qcle_trans with (edge a g i); [|exact Hlo].
    apply edge_le; [exact a_pos|exact g_pos|lia].
  - intros k Hk _. apply Qclt_le_trans with (edge a g (S i)); [exact Hhi|].
    apply edge_le; [exact a_pos|exact g_pos|lia].
Qed.

Lemma bin_number_last_edge : bin_number edges (Fin a) = g.
Proof.
  unfold bin_number. rewrite (searchsorted_right_count a (g + 1)).
  - unfold edges. rewrite last_linspace by exact g_pos.
    rewrite feqb_Fin_refl. lia.
  - lia.
  - intros k Hk. apply edge_le_a. lia.
  - intros k Hk1 Hk2. lia.
Qed.

Lemma bin_number_below (x : Qc) : (x < 0)%Qc -> bin_number edges (Fin x) = 0.
Proof.
  intros Hx. unfold bin_number. rewrite (searchsorted_right_count x 0).
  - unfold edges. rewrite last_linspace by exact g_pos.
    rewrite feqb_Fin_false; [reflexivity|].
    intros ->. apply (Qclt_not_le _ _ Hx). now apply Qclt_le_weak.
  - lia.
  - intros k Hk. lia.
  - intros k _ Hk. apply Qclt_le_trans with 0%Qc; [exact Hx|].
    apply edge_ge_0.
Qed.

Lemma bin_number_above (x : Qc) : (a < x)%Qc -> bin_number edges (Fin x) = S g.
Proof.
  intros Hx. unfold bin_number. rewrite (searchsorted_right_count x (g + 1)).
  - unfold edges. rewrite last_linspace by exact g_pos.
    rewrite feqb_Fin_false; [lia|].
    intros ->. now apply (Qclt_not_eq _ _ Hx).
  - lia.
  - intros k Hk. apply Qclt_le_weak.
    apply Qcle_lt_trans with a; [|exact Hx].
    apply edge_le_a. lia.
  - intros k Hk1 Hk2. lia.
Qed.

(** Every coordinate of [[0, a)] lies in one half-open bin. *)
Lemma locate_bin (x : Qc) :
  (0 <= x)%Qc -> (x < a)%Qc ->
  exists i, i < g /\ (edge a g i <= x)%Qc /\ (x < edge a g (S i))%Qc.
Proof.
  intros H0 Ha.
  assert (H : forall n, (x < edge a g n)%Qc ->
            exists i, i < n /\ (edge a g i <= x)%Qc /\ (x < edge a g (S i))%Qc).
  { induction n as [|n IH]; intros Hn.
    - rewrite edge_0 in Hn. exfalso. now apply (Qclt_not_le _ _ Hn).
    - destruct (Qclt_le_dec x (edge a g n)) as [L|L].
      + destruct (IH L) as (i & Hi & Hlo & Hhi). exists i. repeat split; auto.
      + exists n. repeat split; auto. }
  apply H. now rewrite edge_last.
Qed.

Lemma bin_number_closed_box (x : Qc) :
  (0 <= x)%Qc -> (x <= a)%Qc ->
  exists i, i < g /\ bin_number edges (Fin x) = S i.
Proof.
  intros H0 Ha. destruct (Qcle_lt_or_eq _ _ Ha) as [L| ->].
  - destruct (locate_bin x H0 L) as (i & Hi & Hlo & Hhi).
    exists i. split; [exact Hi|now apply bin_number_interior].
  - exists (g - 1). split; [lia|].
    rewrite bin_number_last_edge. lia.
Qed.

(** The convention: bin [i] holds [[edge i, edge (i + 1))], and the
    last bin also holds the right end [a]. *)
Lemma bin_number_half_open (x : Qc) (i : nat) :
  i < g ->
  (bin_number edges (Fin x) = S i <->
   ((edge a g i <= x)%Qc /\ (x < edge a g (S i))%Qc) \/ (S i = g /\ x = a)).
Proof.
  intros Hi. split.
  - intros Hb. destruct (Qclt_le_dec x 0) as [L0|L0].
    { rewrite (bin_number_below x L0) in Hb. discriminate. }
    destruct (Qc_dec x a) as [[L|L]|E].
    + destruct (locate_bin x L0 L) as (i0 & Hi0 & Hlo & Hhi).
      rewrite (bin_number_interior x i0 Hi0 Hlo Hhi) in Hb.
      inversion Hb; subst i0. left. now split.
    + rewrite (bin_number_above x L) in Hb. lia.
    + subst x. rewrite bin_number_last_edge in Hb. right. now split.
  - intros [[Hlo Hhi]|[Hg ->]].
    + now apply bin_number_interior.
    + rewrite bin_number_last_edge. lia.
Qed.

Lemma nth_edges (k : nat) : k <= g -> nth k edges NaN = Fin (edge a g k).
Proof.
  intros Hk. unfold edges. rewrite linspace_edges by exact g_pos.
  rewrite (nth_map_seq (fun k => Fin (edge a g k))) by lia. reflexivity.
Qed.

(** A coordinate on an interior boundary is counted in the bin that
    starts there. *)
Lemma bin_number_interior_boundary (k : nat) :
  1 <= k -> k < g -> bin_number edges (nth k edges NaN) = S k.
Proof.
  intros H1 Hk. rewrite nth_edges by lia.
  apply bin_number_interior; [exact Hk|apply Qcle_refl|].
  now apply edge_lt_S.
Qed.

End Bins.

(** ** Counting the sample *)

Lemma list_sum_map_add {A : Type} (f h : A -> nat) (l : list A) :
  list_sum (map (fun x => f x + h x) l) = list_sum (map f l) + list_sum (map h l).
Proof. induction l as [|x l IH]; simpl; [reflexivity|]. rewrite IH. lia. Qed.

Lemma list_sum_map_zero {A : Type} (l : list A) :
  list_sum (map (fun _ => 0) l) = 0.
Proof. induction l as [|x l IH]; simpl; [reflexivity|exact IH]. Qed.

Lemma list_sum_indicator (c i len s : nat) :
  s <= i -> i < s + len ->
  list_sum (map (fun i' => if i =? i' then c else 0) (seq s len)) = c.
Proof.
  revert s. induction len as [|len IH]; intros s H1 H2; [lia|].
  cbn [seq map list_sum fold_right]. fold (list_sum (map (fun i' => if i =? i' then c else 0)
                                             (seq (S s) len))).
  destruct (Nat.eqb_spec i s) as [->|Hn].
  - rewrite (map_ext_in _ (fun _ => 0)), list_sum_map_zero; [lia|].
    intros k Hk. apply in_seq in Hk.
    destruct (Nat.eqb_spec s k); [lia|reflexivity].
  - rewrite IH by lia. reflexivity.
Qed.

Lemma nsum3_ext (X Y Z : nat) (F G : nat -> nat -> nat -> nat) :
  (forall i j k, F i j k = G i j k) -> nsum3 X Y Z F = nsum3 X Y Z G.
Proof.
  intros H. unfold nsum3. f_equal.
  apply map_ext; intros i. f_equal.
  apply map_ext; intros j. f_equal.
  apply map_ext; intros k. apply H.
Qed.

Lemma nsum3_add (X Y Z : nat) (F G : nat -> nat -> nat -> nat) :
  nsum3 X Y Z (fun i j k => F i j k + G i j k) = nsum3 X Y Z F + nsum3 X Y Z G.
Proof.
  unfold nsum3. rewrite <- list_sum_map_add. f_equal.
  apply map_ext; intros i. rewrite <- list_sum_map_add. f_equal.
  apply map_ext; intros j. apply list_sum_map_add.
Qed.

Lemma nsum3_indicator (X Y Z i j k : nat) :
  i < X -> j < Y -> k < Z ->
  nsum3 X Y Z (fun i' j' k' =>
    if (i =? i') && (j =? j') && (k =? k') then 1 else 0) = 1.
Proof.
  intros Hi Hj Hk. unfold nsum3.
  rewrite (map_ext _ (fun i' => if i =? i' then 1 else 0)).
  { apply list_sum_indicator; lia. }
  intros i'. destruct (i =? i'); cbn [andb].
  - rewrite (map_ext _ (fun j' => if j =? j' then 1 else 0)).
    { apply list_sum_indicator; lia. }
    intros j'. destruct (j =? j'); cbn [andb].
    + apply list_sum_indicator; lia.
    + apply list_sum_map_zero.
  - rewrite (map_ext _ (fun _ => 0)); [apply list_sum_map_zero|].
    intros j'. apply list_sum_map_zero.
Qed.

Lemma Qc_of_nat_add (m n : nat) :
  Qc_of_nat (m + n) = (Qc_of_nat m + Qc_of_nat n)%Qc.
Proof.
  induction m as [|m IH]; cbn [Nat.add].
  - rewrite Qc_of_nat_0. ring.
  - rewrite !Qc_of_nat_S, IH. ring.
Qed.

Section Homomorphism.

(** Sums of values that depend additively on a count. *)
Variable phi : nat -> npfloat.
Hypothesis phi_0 : phi 0 = fzero.
Hypothesis phi_add : forall m n, phi (m + n) = fadd (phi m) (phi n).

Lemma fsum_additive {A : Type} (h : A -> nat) (l : list A) :
  fsum (map (fun x => phi (h x)) l) = phi (list_sum (map h l)).
Proof.
  induction l as [|x l IH]; simpl; [now rewrite phi_0|].
  now rewrite phi_add, <- IH.
Qed.

Lemma asum_tabulate3_additive (X Y Z : nat) (h : nat -> nat -> nat -> nat) :
  asum (tabulate3 X Y Z (fun i j k => phi (h i j k))) = phi (nsum3 X Y Z h).
Proof.
  rewrite asum_tabulate3. unfold nsum3.
  rewrite <- fsum_additive. f_equal. apply map_ext; intros i.
  rewrite <- fsum_additive. f_equal. apply map_ext; intros j.
  apply fsum_additive.
Qed.

End Homomorphism.

Lemma fnat_add (m n : nat) : fnat (m + n) = fadd (fnat m) (fnat n).
Proof. unfold fnat, fadd. now rewrite Qc_of_nat_add. Qed.

Lemma fnat_0 : fnat 0 = fzero.
Proof. unfold fnat, fzero. now rewrite Qc_of_nat_0. Qed.

Lemma share_0 (N : nat) : 1 <= N -> fdiv (fnat 0) (fnat N) = fzero.
Proof.
  intros H. unfold fnat. rewrite fdiv_Fin by now apply Qc_of_nat_neq_0.
  unfold fzero. f_equal. rewrite Qc_of_nat_0. field. now apply Qc_of_nat_neq_0.
Qed.

Lemma share_add (N m n : nat) :
  1 <= N ->
  fdiv (fnat (m + n)) (fnat N) = fadd (fdiv (fnat m) (fnat N)) (fdiv (fnat n) (fnat N)).
Proof.
  intros H. unfold fnat. rewrite !fdiv_Fin by now apply Qc_of_nat_neq_0.
  unfold fadd. f_equal. rewrite Qc_of_nat_add. field. now apply Qc_of_nat_neq_0.
Qed.

Lemma share_all (N : nat) : 1 <= N -> fdiv (fnat N) (fnat N) = fone.
Proof.
  intros H. unfold fnat. rewrite fdiv_Fin by now apply Qc_of_nat_neq_0.
  unfold fone. f_equal. field. now apply Qc_of_nat_neq_0.
Qed.

Section Histogram.

Variables a b c : Qc.
Variable g : nat.
Hypothesis a_pos : (0 < a)%Qc.
Hypothesis b_pos : (0 < b)%Qc.
Hypothesis c_pos : (0 < c)%Qc.
Hypothesis g_pos : 1 <= g.

Let ex := linspace fzero (Fin a) (g + 1).
Let ey := linspace fzero (Fin b) (g + 1).
Let ez := linspace fzero (Fin c) (g + 1).

(** A point of the closed box falls in exactly one cell. *)
Lemma in_cell_unique (p : point) :
  in_closed_box a b c p ->
  exists i j k, i < g /\ j < g /\ k < g /\
    forall i' j' k',
      in_cell ex ey ez i' j' k' p = (i =? i') && (j =? j') && (k =? k').
Proof.
  intros (x & y & z & -> & Hx0 & Hxa & Hy0 & Hyb & Hz0 & Hzc).
  destruct (bin_number_closed_box a g a_pos g_pos x Hx0 Hxa) as (i & Hi & Ei).
  destruct (bin_number_closed_box b g b_pos g_pos y Hy0 Hyb) as (j & Hj & Ej).
  destruct (bin_number_closed_box c g c_pos g_pos z Hz0 Hzc) as (k & Hk & Ek).
  exists i, j, k. repeat (split; [assumption|]).
  intros i' j' k'. unfold in_cell, ex, ey, ez. now rewrite Ei, Ej, Ek.
Qed.

Lemma histogram_total (sample : list point) :
  Forall (in_closed_box a b c) sample ->
  nsum3 g g g (fun i j k => length (filter (in_cell ex ey ez i j k) sample)) =
  length sample.
Proof.
  induction 1 as [|p l Hp _ IH].
  - cbn [filter length]. unfold nsum3.
    rewrite (map_ext _ (fun _ => 0)); [apply list_sum_map_zero|].
    intros i. rewrite (map_ext _ (fun _ => 0)); [apply list_sum_map_zero|].
    intros j. apply list_sum_map_zero.
  - destruct (in_cell_unique p Hp) as (i & j & k & Hi & Hj & Hk & Hcell).
    rewrite (nsum3_ext _ _ _ _
      (fun i' j' k' =>
         (if (i =? i') && (j =? j') && (k =? k') then 1 else 0) +
         length (filter (in_cell ex ey ez i' j' k') l))).
    + rewrite nsum3_add, IH, nsum3_indicator by assumption. reflexivity.
    + intros i' j' k'. cbn [filter]. rewrite Hcell.
      destruct ((i =? i') && (j =? j') && (k =? k')); reflexivity.
Qed.

Lemma histogramdd_ok (sample : list point) :
  sample <> [] ->
  histogramdd sample ex ey ez =
  Ok (tabulate3 g g g
        (fun i j k => fnat (length (filter (in_cell ex ey ez i j k) sample)))).
Proof.
  intros Hne. unfold histogramdd. destruct sample as [|p l]; [contradiction|].
  unfold ex, ey, ez.
  rewrite !linspace_not_decreasing by assumption.
  rewrite !length_linspace_edges by assumption.
  cbn [orb]. replace (g + 1 - 1) with g by lia. reflexivity.
Qed.

(** The density of a non-empty sample inside the closed box sums to 1. *)
Lemma density_total (coords : list point) :
  coords <> [] -> Forall (in_closed_box a b c) coords ->
  exists d,
    density_of_coords coords (Fin a) (Fin b) (Fin c) g = Ok d /\
    has_shape d g g g /\
    asum d = fone.
Proof.
  intros Hne Hbox. unfold density_of_coords. fold ex ey ez.
  rewrite (histogramdd_ok coords Hne). cbn [bind].
  assert (HN : 1 <= length coords) by (destruct coords; [contradiction|simpl; lia]).
  rewrite (asum_tabulate3_additive fnat fnat_0 fnat_add).
  rewrite (histogram_total coords Hbox).
  rewrite map3_tabulate3.
  eexists. split; [reflexivity|]. split; [apply has_shape_tabulate3|].
  rewrite (asum_tabulate3_additive (fun n => fdiv (fnat n) (fnat (length coords)))
             (share_0 _ HN) (fun m n => share_add _ m n HN)).
  rewrite (histogram_total coords Hbox). now apply share_all.
Qed.

End Histogram.

(** ** The density estimator: claims *)

Lemma strictly_inside_closed_box (a b c : Qc) (p : point) :
  strictly_inside a b c p -> in_closed_box a b c p.
Proof.
  intros (x & y & z & -> & H1 & H2 & H3 & H4 & H5 & H6).
  exists x, y, z. split; [reflexivity|].
  repeat split; now apply Qclt_le_weak.
Qed.

(** C2.  For every cell with edges [a, b, c > 0], every [grid_size >= 1]
    and every non-empty list of coordinates strictly inside
    [[0,a] x [0,b] x [0,c]], the estimator succeeds and its output grid, of
    shape [grid_size^3], sums to 1. *)
Theorem density_of_coords_sums_to_one (a b c : Qc) (grid_size : nat)
    (coords : list point) :
  (0 < a)%Qc -> (0 < b)%Qc -> (0 < c)%Qc -> 1 <= grid_size ->
  coords <> [] -> Forall (strictly_inside a b c) coords ->
  exists d,
    density_of_coords coords (Fin a) (Fin b) (Fin c) grid_size = Ok d /\
    has_shape d grid_size grid_size grid_size /\
    asum d = Fin 1%Qc.
Proof.
  intros Ha Hb Hc Hg Hne Hin.
  apply (density_total a b c grid_size Ha Hb Hc Hg coords Hne).
  revert Hin. apply Forall_impl. apply strictly_inside_closed_box.
Qed.

Lemma Qc_lt_compute (p q : Qc) : Qc_ltb p q = true -> (p < q)%Qc.
Proof. apply Qc_ltb_lt. Qed.

Lemma density_of_coords_sums_to_one_witness :
  (0 < Q2Qc 10)%Qc /\ 1 <= 2 /\
  [(frac 5 2, frac 5 1, frac 15 2)] <> [] /\
  Forall (strictly_inside (Q2Qc 10) (Q2Qc 10) (Q2Qc 10))
         [(frac 5 2, frac 5 1, frac 15 2)] /\
  exists d,
    density_of_coords [(frac 5 2, frac 5 1, frac 15 2)]
      (Fin (Q2Qc 10)) (Fin (Q2Qc 10)) (Fin (Q2Qc 10)) 2 = Ok d /\
    has_shape d 2 2 2 /\
    asum d = Fin 1%Qc.
Proof.
  assert (H10 : (0 < Q2Qc 10)%Qc) by (apply Qc_lt_compute; reflexivity).
  assert (Hin : Forall (strictly_inside (Q2Qc 10) (Q2Qc 10) (Q2Qc 10))
                       [(frac 5 2, frac 5 1, frac 15 2)]).
  { constructor; [|constructor].
    exists (Q2Qc (5 # 2)), (Q2Qc (5 # 1)), (Q2Qc (15 # 2)).
    split; [reflexivity|].
    repeat split; apply Qc_lt_compute; reflexivity. }
  split; [exact H10|]. split; [lia|]. split; [discriminate|].
  split; [exact Hin|].
  apply (density_of_coords_sums_to_one (Q2Qc 10) (Q2Qc 10) (Q2Qc 10) 2).
  - exact H10.
  - exact H10.
  - exact H10.
  - lia.
  - discriminate.
  - exact Hin.
Defined.

(** ** Bins of arbitrary edges *)





Section EdgeBins.

(** The edges of one axis: [g + 1] finite values that never decrease, as
    histogramdd requires. *)
Variable es : list Qc.
Variable g : nat.
Hypothesis es_length : length es = g + 1.
Hypothesis es_sorted : any_decreasing (map Fin es) = false.

Let e (k : nat) : Qc := nth k es 0%Qc.
















End EdgeBins.

Section EdgeHistogram.

Variables ex ey ez : list Qc.
Variable g : nat.
Hypothesis g_pos : 1 <= g.
Hypothesis ex_length : length ex = g + 1.
Hypothesis ey_length : length ey = g + 1.
Hypothesis ez_length : length ez = g + 1.
Hypothesis ex_sorted : any_decreasing (map Fin ex) = false.
Hypothesis ey_sorted : any_decreasing (map Fin ey) = false.
Hypothesis ez_sorted : any_decreasing (map Fin ez) = false.




End EdgeHistogram.


Lemma sample_edges_linspace :
  linspace fzero (fnat 10) (2 + 1) = map Fin sample_edges.
Proof.
  apply (list_eqb_eq npfloat_eqb npfloat_eqb_eq). vm_compute. reflexivity.
Qed.


(** ** Densities are finite or undefined *)

Lemma list_sum_zero_in {A : Type} (f : A -> nat) (l : list A) (x : A) :
  list_sum (map f l) = 0 -> In x l -> f x = 0.
Proof.
  induction l as [|y l IH]; intros H Hin; [contradiction|].
  cbn [map list_sum fold_right] in H. fold (list_sum (map f l)) in H.
  destruct Hin as [->|Hin]; [lia|]. apply IH; [lia|exact Hin].
Qed.

Lemma nsum3_zero_cell (X Y Z : nat) (h : nat -> nat -> nat -> nat) (i j k : nat) :
  nsum3 X Y Z h = 0 -> i < X -> j < Y -> k < Z -> h i j k = 0.
Proof.
  intros H Hi Hj Hk. unfold nsum3 in H.
  pose proof (list_sum_zero_in _ _ i H) as H1. cbv beta in H1.
  specialize (H1 ltac:(apply in_seq; lia)).
  pose proof (list_sum_zero_in _ _ j H1) as H2. cbv beta in H2.
  specialize (H2 ltac:(apply in_seq; lia)).
  apply (list_sum_zero_in _ _ k H2). apply in_seq. lia.
Qed.

Lemma fold_minimum_nan (l : list npfloat) : fold_left fminimum l NaN = NaN.
Proof. induction l as [|x l IH]; [reflexivity|exact IH]. Qed.

(** Whatever the cell and the coordinates, a density the estimator
    returns holds finite values only, or [nan] only (when no coordinate fell
    inside the cell). *)
Lemma density_of_coords_cells (coords : list point) (a b c : npfloat)
    (grid_size : nat) (d : grid) :
  density_of_coords coords a b c grid_size = Ok d ->
  all_finite d \/ Forall (fun x => x = NaN) (flatten d).
Proof.
  unfold density_of_coords, histogramdd.
  destruct coords as [|p coords]; [discriminate|].
  destruct (any_decreasing _ || any_decreasing _ || any_decreasing _);
    [discriminate|].
  cbn [bind]. intros E. inversion E as [Ed]. clear E Ed.
  rewrite (asum_tabulate3_additive fnat fnat_0 fnat_add), map3_tabulate3.
  match goal with |- context [fnat (nsum3 ?X ?Y ?Z ?h)] =>
    destruct (nsum3 X Y Z h) as [|T] eqn:ET end.
  - right. apply Forall_forall. intros v Hv.
    apply in_flatten_tabulate3 in Hv.
    destruct Hv as (i & j & k & Hi & Hj & Hk & ->).
    rewrite (nsum3_zero_cell _ _ _ _ i j k ET Hi Hj Hk).
    rewrite fnat_0. reflexivity.
  - left. apply Forall_forall. intros v Hv.
    apply in_flatten_tabulate3 in Hv.
    destruct Hv as (i & j & k & Hi & Hj & Hk & ->).
    unfold fnat at 1. rewrite fdiv_by_count by lia. reflexivity.
Qed.

(** C4.  For every grid of finite values whose maximum strictly exceeds
    its minimum, the normalisation step succeeds and the normalised grid has
    minimum exactly 0 and maximum exactly 1.  This covers every
    non-degenerate density the estimator can hand to the orchestrator. *)
Theorem minmax_normalize_range :
  (forall (d : grid) (lo hi : npfloat),
      all_finite d -> amin d = Ok lo -> amax d = Ok hi -> flt lo hi = true ->
      exists d',
        minmax_normalize d = Ok d' /\
        amin d' = Ok (Fin 0%Qc) /\ amax d' = Ok (Fin 1%Qc)) /\
  (forall (coords : list point) (a b c : npfloat) (grid_size : nat)
          (d : grid) (lo hi : npfloat),
      density_of_coords coords a b c grid_size = Ok d ->
      amin d = Ok lo -> amax d = Ok hi -> flt lo hi = true ->
      exists d',
        minmax_normalize d = Ok d' /\
        amin d' = Ok (Fin 0%Qc) /\ amax d' = Ok (Fin 1%Qc)).
Proof.
  split; [exact minmax_normalize_finite|].
  intros coords a b c g d lo hi Ed Elo Ehi Hlt.
  destruct (density_of_coords_cells coords a b c g d Ed) as [Hf|Hnan].
  - now apply (minmax_normalize_finite d lo hi).
  - exfalso. unfold amin in Elo.
    destruct (flatten d) as [|x l]; [discriminate|].
    inversion Hnan as [|? ? Hx _]; subst x.
    rewrite fold_minimum_nan in Elo. inversion Elo; subst lo. discriminate.
Qed.

Lemma column5_min : amin column5 = Ok (fnat 1).
Proof. reflexivity. Qed.

Lemma column5_max : amax column5 = Ok (fnat 5).
Proof. reflexivity. Qed.

Lemma minmax_normalize_range_witness :
  all_finite column5 /\ amin column5 = Ok (fnat 1) /\
  amax column5 = Ok (fnat 5) /\ flt (fnat 1) (fnat 5) = true /\
  exists d',
    minmax_normalize column5 = Ok d' /\
    amin d' = Ok (Fin 0%Qc) /\ amax d' = Ok (Fin 1%Qc).
Proof.
  split; [exact column5_finite|].
  split; [exact column5_min|]. split; [exact column5_max|].
  split; [reflexivity|].
  apply (proj1 minmax_normalize_range column5 (fnat 1) (fnat 5)).
  - exact column5_finite.
  - exact column5_min.
  - exact column5_max.
  - reflexivity.
Defined.


(** ** Empty selections *)

Section EmptySelection.

Variable py_float : string -> option npfloat.

Lemma read_coords_no_match (atm : string) (lines : list string) (in_model : bool) :
  matching_atoms atm in_model lines = [] ->
  read_coords py_float atm in_model lines = Ok [].
Proof.
  revert in_model. induction lines as [|line rest IH]; intros in_model H.
  - reflexivity.
  - cbn [matching_atoms read_coords] in *.
    destruct (startswith "MODEL" line); [now apply IH|].
    destruct (startswith "ENDMDL" line); [now apply IH|].
    destruct (in_model && startswith "ATOM" line); cbn [andb] in *.
    + destruct (String.eqb (strip (slice 76 78 line)) atm); [discriminate|].
      now apply IH.
    + now apply IH.
Qed.

Lemma density_of_coords_empty (a b c : npfloat) (grid_size : nat) :
  density_of_coords [] a b c grid_size = Raise ValueError.
Proof. reflexivity. Qed.

(** C3.  When no atom record inside a model block of the trajectory
    file carries the target element, [make_prob_density] returns no grid:
    it raises.  With a readable CRYST1 record the exception is the
    ValueError of [np.histogramdd], which rejects the empty sample;
    otherwise it is the exception of the header scan. *)
Theorem make_prob_density_empty_selection_raises
    (files : string -> option (list string)) (pdb_filename atm : string)
    (grid_size : nat) (lines : list string) :
  files pdb_filename = Some lines ->
  matching_atoms atm false lines = [] ->
  exists e,
    make_prob_density py_float files pdb_filename atm grid_size = Raise e /\
    (forall cell, read_cell py_float lines = Ok cell -> e = ValueError) /\
    (forall e', read_cell py_float lines = Raise e' -> e = e').
Proof.
  intros Hfile Hnone. unfold make_prob_density, open_file.
  rewrite Hfile. cbn [bind].
  destruct (read_cell py_float lines) as [[[a b] c]|e'] eqn:Ecell; cbn [bind].
  - rewrite (read_coords_no_match atm lines false Hnone). cbn [bind].
    rewrite density_of_coords_empty. exists ValueError.
    split; [reflexivity|]. split; [reflexivity|discriminate].
  - exists e'. split; [reflexivity|]. split; [discriminate|].
    intros e'' E. now inversion E.
Qed.

End EmptySelection.

Lemma make_prob_density_empty_selection_raises_witness :
  sample_files "before.pdb" = Some sample_before /\
  matching_atoms "Xe" false sample_before = [] /\
  exists e,
    make_prob_density decimal_float sample_files "before.pdb" "Xe" 2 = Raise e /\
    (forall cell, read_cell decimal_float sample_before = Ok cell -> e = ValueError) /\
    (forall e', read_cell decimal_float sample_before = Raise e' -> e = e').
Proof.
  split; [reflexivity|]. split; [reflexivity|].
  apply (make_prob_density_empty_selection_raises decimal_float sample_files
           "before.pdb" "Xe" 2 sample_before); reflexivity.
Defined.

(** ** The orchestrator: claims *)

Section Run.

Variable py_float : string -> option npfloat.

Lemma write_ok (path : string) (cell_a : npfloat) (data : grid) (w : world) :
  writable w path = true ->
  write path cell_a data w =
  (Ok tt, {| files := files w; writable := writable w;
             written := written w ++ [{| cube_path := path; cube_cell := cell_a;
                                         cube_data := data |}] |}).
Proof. intros H. unfold write. now rewrite H. Qed.

Lemma write_fails (path : string) (cell_a : npfloat) (data : grid) (w : world) :
  writable w path = false -> write path cell_a data w = (Raise OSError, w).
Proof. intros H. unfold write. now rewrite H. Qed.

(** C10.  A successful call returns the integer 0 and never an array:
    the four grids leave the function only as the data of the four cube
    files handed to the writer.  In particular the script's name
    [prob_density_diff_filtered] is bound to 0. *)
Theorem get_filtered_prob_density_returns_zero :
  (forall (pdb_filename_before pdb_filename_after : string) (grid_size : nat)
          (cell_a : npfloat) (atm : string) (padding_n : nat)
          (w w' : world) (v : pyvalue),
      get_filtered_prob_density py_float pdb_filename_before pdb_filename_after
        grid_size cell_a atm padding_n w = (Ok v, w') ->
      v = PyInt 0 /\
      (forall a, v <> PyNdarray a) /\
      exists before after diff diff_filtered,
        compute_densities py_float w pdb_filename_before pdb_filename_after
          grid_size atm padding_n = Ok (before, after, diff, diff_filtered) /\
        written w' =
          written w ++ four_cubes atm cell_a before after diff diff_filtered) /\
  (forall (w w' : world) (v : pyvalue),
      Script.prob_density_diff_filtered py_float w = (Ok v, w') -> v = PyInt 0).
Proof.
  assert (H : forall (pdb_filename_before pdb_filename_after : string)
                (grid_size : nat) (cell_a : npfloat) (atm : string)
                (padding_n : nat) (w w' : world) (v : pyvalue),
      get_filtered_prob_density py_float pdb_filename_before pdb_filename_after
        grid_size cell_a atm padding_n w = (Ok v, w') ->
      v = PyInt 0 /\
      (forall a, v <> PyNdarray a) /\
      exists before after diff diff_filtered,
        compute_densities py_float w pdb_filename_before pdb_filename_after
          grid_size atm padding_n = Ok (before, after, diff, diff_filtered) /\
        written w' =
          written w ++ four_cubes atm cell_a before after diff diff_filtered).
  { intros fb fa g cell_a atm n w w' v. unfold get_filtered_prob_density.
    destruct (compute_densities py_float w fb fa g atm n)
      as [[[[b a] d] f]|e]; [|discriminate].
    unfold write.
    destruct (writable w _); cbn [writable]; [|discriminate].
    destruct (writable w _); cbn [writable]; [|discriminate].
    destruct (writable w _); cbn [writable]; [|discriminate].
    destruct (writable w _); cbn [writable]; [|discriminate].
    intros E. inversion E; subst. split; [reflexivity|].
    split; [discriminate|].
    exists b, a, d, f. split; [reflexivity|].
    cbn [written four_cubes]. now rewrite <- !app_assoc. }
  split; [exact H|].
  intros w w' v E. unfold Script.prob_density_diff_filtered in E.
  now apply H in E.
Qed.

(** C8, as amended.  A failure before the first write (an unreadable
    or malformed input, an empty selection, an empty grid) leaves the
    outputs untouched.  Otherwise the four files are written in order and
    without rollback: the run succeeds with all four, or the first
    unwritable path stops it with OSError and the files written before it
    remain. *)
Theorem get_filtered_prob_density_writes_a_prefix
    (pdb_filename_before pdb_filename_after : string) (grid_size : nat)
    (cell_a : npfloat) (atm : string) (padding_n : nat)
    (w w' : world) (r : result pyvalue) :
  get_filtered_prob_density py_float pdb_filename_before pdb_filename_after
    grid_size cell_a atm padding_n w = (r, w') ->
  match compute_densities py_float w pdb_filename_before pdb_filename_after
          grid_size atm padding_n with
  | Raise e => r = Raise e /\ w' = w
  | Ok (before, after, diff, diff_filtered) =>
      let cubes := four_cubes atm cell_a before after diff diff_filtered in
      exists k,
        k <= 4 /\
        written w' = written w ++ firstn k cubes /\
        ((k = 4 /\ r = Ok (PyInt 0)) \/
         (k < 4 /\ r = Raise OSError /\
          exists c, nth_error cubes k = Some c /\ writable w (cube_path c) = false))
  end.
Proof.
  unfold get_filtered_prob_density.
  destruct (compute_densities py_float w pdb_filename_before pdb_filename_after
              grid_size atm padding_n) as [[[[b a] d] f]|e].
  2:{ intros E. inversion E. now split. }
  cbv zeta. unfold write.
  destruct (writable w ("prob_density_" ++ atm ++ "_before_step.cube")) eqn:W1;
    cbn [writable].
  2:{ intros E. inversion E; subst. exists 0. split; [lia|].
      split; [cbn [firstn]; now rewrite app_nil_r|].
      right. split; [lia|]. split; [reflexivity|].
      eexists. split; [reflexivity|exact W1]. }
  destruct (writable w ("prob_density_" ++ atm ++ "_after_step.cube")) eqn:W2;
    cbn [writable].
  2:{ intros E. inversion E; subst. exists 1. split; [lia|].
      split; [reflexivity|].
      right. split; [lia|]. split; [reflexivity|].
      eexists. split; [reflexivity|exact W2]. }
  destruct (writable w ("prob_density_" ++ atm ++ "_difference.cube")) eqn:W3;
    cbn [writable].
  2:{ intros E. inversion E; subst. exists 2. split; [lia|].
      split; [cbn [written firstn four_cubes]; now rewrite <- !app_assoc|].
      right. split; [lia|]. split; [reflexivity|].
      eexists. split; [reflexivity|exact W3]. }
  destruct (writable w ("prob_density_" ++ atm ++ "_difference_filtered.cube")) eqn:W4;
    cbn [writable].
  2:{ intros E. inversion E; subst. exists 3. split; [lia|].
      split; [cbn [written firstn four_cubes]; now rewrite <- !app_assoc|].
      right. split; [lia|]. split; [reflexivity|].
      eexists. split; [reflexivity|exact W4]. }
  intros E. inversion E; subst. exists 4. split; [lia|].
  split; [cbn [written firstn four_cubes]; now rewrite <- !app_assoc|].
  left. now split.
Qed.

End Run.

(** ** Runs on the sample files *)

Lemma get_filtered_prob_density_returns_zero_witness :
  get_filtered_prob_density decimal_float "before.pdb" "after.pdb" 2 (fnat 10)
    "Ar" 1 sample_world =
  (Ok (PyInt 0),
   snd (get_filtered_prob_density decimal_float "before.pdb" "after.pdb" 2 (fnat 10)
          "Ar" 1 sample_world)) /\
  PyInt 0 = PyInt 0.
Proof.
  assert (E : get_filtered_prob_density decimal_float "before.pdb" "after.pdb" 2
                (fnat 10) "Ar" 1 sample_world =
              (Ok (PyInt 0),
               snd (get_filtered_prob_density decimal_float "before.pdb" "after.pdb"
                      2 (fnat 10) "Ar" 1 sample_world)))
    by (vm_compute; reflexivity).
  split; [exact E|].
  exact (proj1 (proj1 (get_filtered_prob_density_returns_zero decimal_float)
                  "before.pdb" "after.pdb" 2 (fnat 10) "Ar" 1 sample_world _ _ E)).
Defined.

Lemma get_filtered_prob_density_writes_a_prefix_witness :
  get_filtered_prob_density decimal_float "before.pdb" "after.pdb" 2 (fnat 10)
    "Ar" 1 sample_world_unwritable =
  (Raise OSError,
   snd (get_filtered_prob_density decimal_float "before.pdb" "after.pdb" 2 (fnat 10)
          "Ar" 1 sample_world_unwritable)) /\
  match compute_densities decimal_float sample_world_unwritable "before.pdb"
          "after.pdb" 2 "Ar" 1 with
  | Raise e =>
      @Raise pyvalue OSError = Raise e /\
      snd (get_filtered_prob_density decimal_float "before.pdb" "after.pdb" 2
             (fnat 10) "Ar" 1 sample_world_unwritable) = sample_world_unwritable
  | Ok (before, after, diff, diff_filtered) =>
      let cubes := four_cubes "Ar" (fnat 10) before after diff diff_filtered in
      exists k,
        k <= 4 /\
        written (snd (get_filtered_prob_density decimal_float "before.pdb"
                        "after.pdb" 2 (fnat 10) "Ar" 1 sample_world_unwritable)) =
          written sample_world_unwritable ++ firstn k cubes /\
        ((k = 4 /\ @Raise pyvalue OSError = Ok (PyInt 0)) \/
         (k < 4 /\ @Raise pyvalue OSError = Raise OSError /\
          exists c, nth_error cubes k = Some c /\
                    writable sample_world_unwritable (cube_path c) = false))
  end.
Proof.
  assert (E : get_filtered_prob_density decimal_float "before.pdb" "after.pdb" 2
                (fnat 10) "Ar" 1 sample_world_unwritable =
              (Raise OSError,
               snd (get_filtered_prob_density decimal_float "before.pdb" "after.pdb"
                      2 (fnat 10) "Ar" 1 sample_world_unwritable)))
    by (vm_compute; reflexivity).
  split; [exact E|].
  exact (get_filtered_prob_density_writes_a_prefix decimal_float
           "before.pdb" "after.pdb" 2 (fnat 10) "Ar" 1 sample_world_unwritable _ _ E).
Defined.

(** C8, as stated, fails when a write fails part-way: with the third
    output path unwritable the run ends in OSError and leaves exactly the
    first two of the four files. *)
Lemma partial_outputs_after_failed_write :
  fst (get_filtered_prob_density decimal_float "before.pdb" "after.pdb" 2 (fnat 10)
         "Ar" 1 sample_world_unwritable) = Raise OSError /\
  map cube_path
    (written (snd (get_filtered_prob_density decimal_float "before.pdb" "after.pdb"
                     2 (fnat 10) "Ar" 1 sample_world_unwritable))) =
  [ "prob_density_Ar_before_step.cube"; "prob_density_Ar_after_step.cube" ].
Proof. split; vm_compute; reflexivity. Qed.

(** C5, as stated, fails: with one bin per axis both densities are the
    flat grid [[[[1]]]]; normalisation raises nothing and returns [nan], and
    the run goes on to write four [nan] grids and return 0. *)
Lemma flat_density_normalised_to_nan :
  make_prob_density decimal_float sample_files "before.pdb" "Ar" 1 = Ok [[[fone]]] /\
  minmax_normalize [[[fone]]] = Ok [[[NaN]]] /\
  (forall e, minmax_normalize [[[fone]]] <> Raise e) /\
  fst (get_filtered_prob_density decimal_float "before.pdb" "after.pdb" 1 (fnat 10)
         "Ar" 1 sample_world) = Ok (PyInt 0) /\
  map cube_data
    (written (snd (get_filtered_prob_density decimal_float "before.pdb" "after.pdb"
                     1 (fnat 10) "Ar" 1 sample_world))) =
  [ [[[NaN]]]; [[[NaN]]]; [[[NaN]]]; [[[NaN]]] ].
Proof.
  split; [apply result_grid_eq; vm_compute; reflexivity|].
  split; [reflexivity|]. split; [discriminate|].
  split; vm_compute; reflexivity.
Qed.

(* ================================================================== *)
(** * Part III: further properties of the code                         *)
(* ================================================================== *)

(** ** The filter on arrays with an empty axis *)

Lemma length_pad1 {A : Type} (n : nat) (z : A) (l : list A) :
  length (pad1 n z l) = length l + 2 * n.
Proof. unfold pad1. rewrite !length_app, !repeat_length. lia. Qed.

Lemma hd_pad1_pos {A : Type} (n : nat) (z d : A) (l : list A) :
  1 <= n -> hd d (pad1 n z l) = z.
Proof. intros H. destruct n; [lia|reflexivity]. Qed.

Lemma pad1_0 {A : Type} (z : A) (l : list A) : pad1 0 z l = l.
Proof. unfold pad1. simpl. apply app_nil_r. Qed.

Lemma hd_repeat_length {A : Type} (r : list A) (m : nat) :
  1 <= m -> length (hd [] (repeat r m)) = length r.
Proof. intros H. destruct m; [lia|reflexivity]. Qed.

(** Padding by [n] lengthens every axis of the shape by [2 n]. *)
Lemma shape_np_pad (a : grid) (n : nat) :
  shape (np_pad a n) =
  (let '(X, Y, Z) := shape a in (X + 2 * n, Y + 2 * n, Z + 2 * n)).
Proof.
  unfold np_pad, shape.
  destruct n as [|n].
  - rewrite !Nat.add_0_r. rewrite pad1_0, length_map.
    destruct a as [|p a]; [reflexivity|].
    cbn [map hd]. rewrite pad1_0, length_map.
    destruct p as [|r p]; [reflexivity|].
    cbn [map hd]. now rewrite pad1_0.
  - rewrite length_pad1, length_map.
    rewrite hd_pad1_pos by lia. rewrite repeat_length.
    rewrite hd_repeat_length by lia. now rewrite repeat_length.
Qed.

(** X1.  Whatever the radius, the filter raises ValueError on an array
    one of whose axes is empty. *)
Theorem local_average_3d_empty_axis (a : grid) (X Y Z n : nat) :
  shape a = (X, Y, Z) -> X = 0 \/ Y = 0 \/ Z = 0 ->
  local_average_3d a n = Raise ValueError.
Proof.
  intros Hs H0. unfold local_average_3d, sliding_window_view at 1.
  rewrite shape_np_pad, Hs.
  destruct (Nat.ltb_spec (X + 2 * n) (2 * n + 1));
    destruct (Nat.ltb_spec (Y + 2 * n) (2 * n + 1));
    destruct (Nat.ltb_spec (Z + 2 * n) (2 * n + 1));
    try reflexivity; lia.
Qed.

Lemma local_average_3d_empty_axis_witness :
  shape [[]; []] = (2, 0, 0) /\ (2 = 0 \/ 0 = 0 \/ 0 = 0) /\
  local_average_3d [[]; []] 3 = Raise ValueError.
Proof.
  split; [reflexivity|]. split; [right; left; reflexivity|].
  apply (local_average_3d_empty_axis [[]; []] 2 0 0 3).
  - reflexivity.
  - right. left. reflexivity.
Defined.

(** ** Shape and constants *)

(** X2.  On an array with at least one cell along every axis the filter
    succeeds for every radius, and its output has the shape of its input. *)
Theorem local_average_3d_keeps_shape (a : grid) (X Y Z n : nat) :
  has_shape a X Y Z -> 1 <= X -> 1 <= Y -> 1 <= Z ->
  exists out,
    local_average_3d a n = Ok out /\ has_shape out X Y Z /\ shape out = shape a.
Proof.
  intros Hs HX HY HZ. eexists. split; [|split].
  - apply (local_average_3d_tabulate a X Y Z n Hs HX HY HZ).
  - apply has_shape_tabulate3.
  - rewrite (has_shape_shape a X Y Z Hs HX HY).
    apply has_shape_shape; [apply has_shape_tabulate3|exact HX|exact HY].
Qed.

Lemma local_average_3d_keeps_shape_witness :
  has_shape column5 5 1 1 /\ 1 <= 5 /\ 1 <= 1 /\
  exists out,
    local_average_3d column5 7 = Ok out /\ has_shape out 5 1 1 /\
    shape out = shape column5.
Proof.
  split; [exact column5_shape|]. split; [lia|]. split; [lia|].
  apply (local_average_3d_keeps_shape column5 5 1 1 7).
  - exact column5_shape.
  - lia.
  - lia.
  - lia.
Defined.

Lemma has_shape_full (X Y Z : nat) (v : npfloat) : has_shape (full X Y Z v) X Y Z.
Proof. apply has_shape_tabulate3. Qed.

Lemma flatten_full (X Y Z : nat) (v x : npfloat) :
  In x (flatten (full X Y Z v)) -> x = v.
Proof.
  intros H. apply in_flatten_tabulate3 in H.
  now destruct H as (i & j & k & _ & _ & _ & ->).
Qed.

Lemma local_average_3d_full (X Y Z n : nat) (c : Qc) :
  1 <= X -> 1 <= Y -> 1 <= Z ->
  local_average_3d (full X Y Z (Fin c)) n = Ok (full X Y Z (Fin c)).
Proof.
  intros HX HY HZ.
  rewrite (local_average_3d_tabulate _ X Y Z n (has_shape_full X Y Z (Fin c)) HX HY HZ).
  f_equal. unfold full at 2. apply tabulate3_ext; intros i j k Hi Hj Hk.
  destruct (neighbourhood_mean_interval c c (full X Y Z (Fin c)) X Y Z n i j k)
    as (q & Eq & Hlo & Hhi); try assumption.
  - apply has_shape_full.
  - apply Forall_forall. intros x Hx. apply flatten_full in Hx. subst x.
    exists c. split; [reflexivity|]. split; apply Qcle_refl.
  - rewrite Eq. f_equal. now apply Qcle_antisym.
Qed.

(** ** The divisors *)

Lemma length_filter_flat_map {A B : Type} (P : B -> bool) (f : A -> list B)
    (l : list A) :
  length (filter P (flat_map f l)) =
  list_sum (map (fun x => length (filter P (f x))) l).
Proof.
  induction l as [|x l IH]; [reflexivity|].
  cbn [flat_map map list_sum fold_right].
  rewrite filter_app, length_app, IH. reflexivity.
Qed.

Lemma list_sum_if_const {A : Type} (P : A -> bool) (c : nat) (l : list A) :
  list_sum (map (fun x => if P x then c else 0) l) = length (filter P l) * c.
Proof.
  induction l as [|x l IH]; [reflexivity|].
  cbn [map list_sum fold_right filter].
  fold (list_sum (map (fun x => if P x then c else 0) l)). rewrite IH.
  destruct (P x); cbn [length]; lia.
Qed.

Lemma length_axis_filter (X n i : nat) :
  length (filter (fun i' => absdiff i i' <=? n) (seq 0 X)) = axis_count X n i.
Proof.
  rewrite (filter_ext _ _ (fun i' => absdiff_le i i' n)).
  rewrite filter_seq_interval, length_seq. unfold axis_count. lia.
Qed.

(** The neighbourhood is a box: its size is the product of its extents
    along the three axes. *)
Lemma length_neighbourhood (X Y Z n i j k : nat) :
  length (neighbourhood X Y Z n (i, j, k)) =
  axis_count X n i * axis_count Y n j * axis_count Z n k.
Proof.
  unfold neighbourhood, all_cells.
  rewrite length_filter_flat_map.
  rewrite (map_ext _ (fun i' => if absdiff i i' <=? n
                                then axis_count Y n j * axis_count Z n k else 0)).
  { rewrite list_sum_if_const, length_axis_filter. lia. }
  intros i'. rewrite length_filter_flat_map.
  rewrite (map_ext _ (fun j' => if (absdiff i i' <=? n) && (absdiff j j' <=? n)
                                then axis_count Z n k else 0)).
  - destruct (absdiff i i' <=? n); cbn [andb].
    + rewrite list_sum_if_const, length_axis_filter. reflexivity.
    + apply list_sum_map_zero.
  - intros j'. rewrite filter_map_comm, length_map.
    rewrite (filter_ext _ (fun k' => (absdiff i i' <=? n) && (absdiff j j' <=? n)
                                      && (absdiff k k' <=? n)))
      by (intros k'; apply chebyshev_le).
    destruct ((absdiff i i' <=? n) && (absdiff j j' <=? n)); cbn [andb].
    + apply length_axis_filter.
    + clear. induction (seq 0 Z) as [|x l IH]; [reflexivity|exact IH].
Qed.

(** X4.  The divisor the filter computes for cell [(i, j, k)] is the
    product over the axes of the number of in-bounds indices within [n]:
    [min(X, i+n+1) - max(0, i-n)] along the first axis, and likewise along
    the others.  For a cell at least [n] away from every face it is the
    window volume [(2n+1)^3]. *)
Theorem mask_counts_product (a : grid) (X Y Z n : nat) :
  has_shape a X Y Z -> 1 <= X -> 1 <= Y -> 1 <= Z ->
  mask_counts a n =
    Ok (tabulate3 X Y Z (fun i j k =>
          fnat (axis_count X n i * axis_count Y n j * axis_count Z n k))) /\
  (forall i j k,
      n <= i -> i + n < X -> n <= j -> j + n < Y -> n <= k -> k + n < Z ->
      axis_count X n i * axis_count Y n j * axis_count Z n k =
      (2 * n + 1) * (2 * n + 1) * (2 * n + 1)).
Proof.
  intros Hs HX HY HZ. split.
  - unfold mask_counts.
    rewrite (sliding_window_view_padded (ones_like a) X Y Z n
               (has_shape_ones_like a X Y Z Hs) HX HY HZ).
    cbn [bind]. f_equal. unfold window_sums. rewrite map_tabulate3.
    apply tabulate3_ext; intros i j k Hi Hj Hk.
    rewrite (padded_mask_window_sum a X Y Z n i j k Hs Hi Hj Hk).
    now rewrite length_neighbourhood.
  - intros i j k H1 H2 H3 H4 H5 H6. unfold axis_count.
    replace (Nat.min X (i + n + 1) - (i - n)) with (2 * n + 1) by lia.
    replace (Nat.min Y (j + n + 1) - (j - n)) with (2 * n + 1) by lia.
    replace (Nat.min Z (k + n + 1) - (k - n)) with (2 * n + 1) by lia.
    reflexivity.
Qed.

Lemma mask_counts_product_witness :
  has_shape column5 5 1 1 /\ 1 <= 5 /\ 1 <= 1 /\
  mask_counts column5 1 =
    Ok (tabulate3 5 1 1 (fun i j k =>
          fnat (axis_count 5 1 i * axis_count 1 1 j * axis_count 1 1 k))).
Proof.
  split; [exact column5_shape|]. split; [lia|]. split; [lia|].
  apply (mask_counts_product column5 5 1 1 1).
  - exact column5_shape.
  - lia.
  - lia.
  - lia.
Defined.

(** ** A radius that covers the array *)

Lemma filter_all {A : Type} (P : A -> bool) (l : list A) :
  (forall x, In x l -> P x = true) -> filter P l = l.
Proof.
  induction l as [|x l IH]; intros H; [reflexivity|].
  cbn [filter]. rewrite (H x) by now left.
  f_equal. apply IH. intros y Hy. apply H. now right.
Qed.

Lemma asum_all_cells (a : grid) (X Y Z : nat) :
  has_shape a X Y Z ->
  asum a =
  fsum (map (fun d : nat * nat * nat => let '(i, j, k) := d in get3 a i j k)
            (all_cells X Y Z)).
Proof.
  intros Hs. rewrite <- (tabulate3_get3 a X Y Z Hs) at 1.
  rewrite asum_tabulate3. unfold all_cells.
  rewrite fsum_flat_map. f_equal. apply map_ext; intros i.
  rewrite fsum_flat_map. f_equal. apply map_ext; intros j.
  now rewrite map_map.
Qed.

Lemma length_all_cells (X Y Z : nat) : length (all_cells X Y Z) = X * Y * Z.
Proof.
  unfold all_cells.
  rewrite <- (filter_all (fun _ => true) (flat_map _ (seq 0 X))) by reflexivity.
  rewrite length_filter_flat_map.
  rewrite (map_ext _ (fun i => if true then Y * Z else 0)).
  { rewrite (list_sum_if_const (fun _ => true)).
    rewrite filter_all by reflexivity. rewrite length_seq. lia. }
  intros i. rewrite length_filter_flat_map.
  rewrite (map_ext _ (fun j => if true then Z else 0)).
  { rewrite (list_sum_if_const (fun _ => true)).
    rewrite filter_all by reflexivity. now rewrite length_seq. }
  intros j. rewrite filter_all by reflexivity.
  now rewrite length_map, length_seq.
Qed.

(** X5.  When the radius reaches across the whole array
    ([n >= X-1, Y-1, Z-1]), every output cell is the mean of the whole
    array: its sum divided by its number of cells. *)
Theorem local_average_3d_global_mean (a : grid) (X Y Z n : nat) :
  has_shape a X Y Z -> 1 <= X -> 1 <= Y -> 1 <= Z ->
  X <= n + 1 -> Y <= n + 1 -> Z <= n + 1 ->
  local_average_3d a n = Ok (full X Y Z (fdiv (asum a) (fnat (X * Y * Z)))).
Proof.
  intros Hs HX HY HZ HnX HnY HnZ.
  rewrite (local_average_3d_tabulate a X Y Z n Hs HX HY HZ). f_equal.
  apply tabulate3_ext; intros i j k Hi Hj Hk.
  unfold neighbourhood_mean, neighbourhood_sum, neighbourhood_count.
  rewrite (has_shape_shape a X Y Z Hs HX HY).
  assert (E : neighbourhood X Y Z n (i, j, k) = all_cells X Y Z).
  { unfold neighbourhood. apply filter_all. intros [[i' j'] k'] Hd.
    apply in_all_cells in Hd. destruct Hd as (Hi' & Hj' & Hk').
    rewrite chebyshev_le, !absdiff_le.
    destruct (Nat.leb_spec (i - n) i'); [|lia].
    destruct (Nat.ltb_spec i' (i + n + 1)); [|lia].
    destruct (Nat.leb_spec (j - n) j'); [|lia].
    destruct (Nat.ltb_spec j' (j + n + 1)); [|lia].
    destruct (Nat.leb_spec (k - n) k'); [|lia].
    destruct (Nat.ltb_spec k' (k + n + 1)); [|lia].
    reflexivity. }
  rewrite E, length_all_cells, <- (asum_all_cells a X Y Z Hs). reflexivity.
Qed.

Lemma local_average_3d_global_mean_witness :
  has_shape column5 5 1 1 /\ 5 <= 4 + 1 /\ 1 <= 4 + 1 /\
  local_average_3d column5 4 =
  Ok (full 5 1 1 (fdiv (asum column5) (fnat (5 * 1 * 1)))).
Proof.
  split; [exact column5_shape|]. split; [lia|]. split; [lia|].
  apply (local_average_3d_global_mean column5 5 1 1 4).
  - exact column5_shape.
  - lia.
  - lia.
  - lia.
  - lia.
  - lia.
  - lia.
Defined.

(** ** Cells of combined arrays *)

Lemma zip_with3_cells (f : npfloat -> npfloat -> npfloat) (a b : grid)
    (X Y Z : nat) :
  has_shape a X Y Z -> has_shape b X Y Z ->
  zip_with3 f a b = tabulate3 X Y Z (fun i j k => f (get3 a i j k) (get3 b i j k)).
Proof.
  intros Ha Hb.
  rewrite <- (tabulate3_get3 a X Y Z Ha) at 1.
  rewrite <- (tabulate3_get3 b X Y Z Hb) at 1.
  apply zip_with3_tabulate3.
Qed.

Lemma finite_cell (a : grid) (X Y Z i j k : nat) :
  has_shape a X Y Z -> all_finite a -> i < X -> j < Y -> k < Z ->
  exists q, get3 a i j k = Fin q.
Proof.
  intros Hs Hf Hi Hj Hk. unfold all_finite in Hf. rewrite Forall_forall in Hf.
  pose proof (Hf _ (get3_in_flatten a X Y Z i j k Hs Hi Hj Hk)) as H.
  destruct (get3 a i j k) as [q| | |]; try discriminate. now exists q.
Qed.

(** ** Coordinates outside the cell *)

Section Outside.

Variables a b c : Qc.
Variable g : nat.
Hypothesis a_pos : (0 < a)%Qc.
Hypothesis b_pos : (0 < b)%Qc.
Hypothesis c_pos : (0 < c)%Qc.
Hypothesis g_pos : 1 <= g.

Let ex := linspace fzero (Fin a) (g + 1).
Let ey := linspace fzero (Fin b) (g + 1).
Let ez := linspace fzero (Fin c) (g + 1).

(** A coordinate outside [[0, a]] gets one of the two outlier bins. *)
Lemma bin_number_outlier (e : Qc) (x : Qc) (i : nat) :
  (0 < e)%Qc -> (x < 0)%Qc \/ (e < x)%Qc -> i < g ->
  (bin_number (linspace fzero (Fin e) (g + 1)) (Fin x) =? S i) = false.
Proof.
  intros He [H|H] Hi.
  - now rewrite (bin_number_below e g He g_pos x H).
  - rewrite (bin_number_above e g He g_pos x H). apply Nat.eqb_neq. lia.
Qed.

Lemma in_cell_outside (p : point) (i j k : nat) :
  outside_box a b c p -> i < g -> j < g -> k < g ->
  in_cell ex ey ez i j k p = false.
Proof.
  intros (x & y & z & -> & H) Hi Hj Hk. unfold in_cell, ex, ey, ez.
  destruct H as [H|[H|[H|[H|[H|H]]]]].
  - rewrite (bin_number_outlier a x i a_pos (or_introl H) Hi). reflexivity.
  - rewrite (bin_number_outlier a x i a_pos (or_intror H) Hi). reflexivity.
  - rewrite (bin_number_outlier b y j b_pos (or_introl H) Hj).
    now rewrite andb_false_r.
  - rewrite (bin_number_outlier b y j b_pos (or_intror H) Hj).
    now rewrite andb_false_r.
  - rewrite (bin_number_outlier c z k c_pos (or_introl H) Hk).
    now rewrite andb_false_r.
  - rewrite (bin_number_outlier c z k c_pos (or_intror H) Hk).
    now rewrite andb_false_r.
Qed.

(** X7.  A coordinate outside the cell is dropped, not clamped: adding
    it to a non-empty sample leaves the density unchanged. *)
Theorem density_of_coords_drops_outside (p : point) (coords : list point) :
  outside_box a b c p -> coords <> [] ->
  density_of_coords (p :: coords) (Fin a) (Fin b) (Fin c) g =
  density_of_coords coords (Fin a) (Fin b) (Fin c) g.
Proof.
  intros Hp Hne. unfold density_of_coords.
  rewrite (histogramdd_ok a b c g a_pos b_pos c_pos g_pos (p :: coords))
    by discriminate.
  rewrite (histogramdd_ok a b c g a_pos b_pos c_pos g_pos coords Hne).
  fold ex ey ez.
  rewrite (tabulate3_ext g g g
    (fun i j k => fnat (length (filter (in_cell ex ey ez i j k) (p :: coords))))
    (fun i j k => fnat (length (filter (in_cell ex ey ez i j k) coords)))).
  - reflexivity.
  - intros i j k Hi Hj Hk. cbn [filter].
    now rewrite (in_cell_outside p i j k Hp Hi Hj Hk).
Qed.

Lemma nsum3_zero (X Y Z : nat) : nsum3 X Y Z (fun _ _ _ => 0) = 0.
Proof.
  unfold nsum3.
  rewrite (map_ext _ (fun _ => 0)); [apply list_sum_map_zero|].
  intros i. rewrite (map_ext _ (fun _ => 0)); [apply list_sum_map_zero|].
  intros j. apply list_sum_map_zero.
Qed.

Lemma filter_outside (coords : list point) (i j k : nat) :
  Forall (outside_box a b c) coords -> i < g -> j < g -> k < g ->
  filter (in_cell ex ey ez i j k) coords = [].
Proof.
  intros H Hi Hj Hk. induction H as [|p l Hp _ IH]; [reflexivity|].
  cbn [filter]. now rewrite (in_cell_outside p i j k Hp Hi Hj Hk).
Qed.

(** X8.  When the sample is not empty but every coordinate lies outside
    the cell, the estimator raises nothing: the histogram is all zero, line
    54 divides 0 by 0, and the density returned holds [nan] in every cell. *)
Theorem density_of_coords_all_outside (coords : list point) :
  coords <> [] -> Forall (outside_box a b c) coords ->
  density_of_coords coords (Fin a) (Fin b) (Fin c) g = Ok (full g g g NaN).
Proof.
  intros Hne Hout. unfold density_of_coords.
  rewrite (histogramdd_ok a b c g a_pos b_pos c_pos g_pos coords Hne).
  fold ex ey ez.
  rewrite (tabulate3_ext g g g
    (fun i j k => fnat (length (filter (in_cell ex ey ez i j k) coords)))
    (fun _ _ _ => fnat 0)).
  2:{ intros i j k Hi Hj Hk. now rewrite (filter_outside coords i j k Hout). }
  cbn [bind]. f_equal.
  rewrite (asum_tabulate3_additive fnat fnat_0 fnat_add g g g (fun _ _ _ => 0)).
  rewrite nsum3_zero, map3_tabulate3. unfold full.
  apply tabulate3_ext; intros i j k _ _ _. rewrite fnat_0. reflexivity.
Qed.

End Outside.

Lemma Qc_ten_pos : (0 < Q2Qc 10)%Qc.
Proof. apply Qc_lt_compute. reflexivity. Qed.

Lemma sample_point_outside :
  outside_box (Q2Qc 10) (Q2Qc 10) (Q2Qc 10) (frac 12 1, frac 5 1, frac 5 1).
Proof.
  exists (Q2Qc (12 # 1)), (Q2Qc (5 # 1)), (Q2Qc (5 # 1)).
  split; [reflexivity|]. right. left. apply Qc_lt_compute. reflexivity.
Qed.

Lemma density_of_coords_drops_outside_witness :
  (0 < Q2Qc 10)%Qc /\ 1 <= 2 /\
  outside_box (Q2Qc 10) (Q2Qc 10) (Q2Qc 10) (frac 12 1, frac 5 1, frac 5 1) /\
  [(frac 5 2, frac 5 1, frac 15 2)] <> [] /\
  density_of_coords [(frac 12 1, frac 5 1, frac 5 1); (frac 5 2, frac 5 1, frac 15 2)]
    (Fin (Q2Qc 10)) (Fin (Q2Qc 10)) (Fin (Q2Qc 10)) 2 =
  density_of_coords [(frac 5 2, frac 5 1, frac 15 2)]
    (Fin (Q2Qc 10)) (Fin (Q2Qc 10)) (Fin (Q2Qc 10)) 2.
Proof.
  split; [exact Qc_ten_pos|]. split; [lia|].
  split; [exact sample_point_outside|]. split; [discriminate|].
  apply (density_of_coords_drops_outside (Q2Qc 10) (Q2Qc 10) (Q2Qc 10) 2
           Qc_ten_pos Qc_ten_pos Qc_ten_pos (le_S 1 1 (le_n 1))).
  - exact sample_point_outside.
  - discriminate.
Defined.

Lemma density_of_coords_all_outside_witness :
  (0 < Q2Qc 10)%Qc /\ 1 <= 2 /\
  [(frac 12 1, frac 5 1, frac 5 1)] <> [] /\
  Forall (outside_box (Q2Qc 10) (Q2Qc 10) (Q2Qc 10))
         [(frac 12 1, frac 5 1, frac 5 1)] /\
  density_of_coords [(frac 12 1, frac 5 1, frac 5 1)]
    (Fin (Q2Qc 10)) (Fin (Q2Qc 10)) (Fin (Q2Qc 10)) 2 = Ok (full 2 2 2 NaN).
Proof.
  split; [exact Qc_ten_pos|]. split; [lia|]. split; [discriminate|].
  split; [constructor; [exact sample_point_outside|constructor]|].
  apply (density_of_coords_all_outside (Q2Qc 10) (Q2Qc 10) (Q2Qc 10) 2
           Qc_ten_pos Qc_ten_pos Qc_ten_pos (le_S 1 1 (le_n 1))).
  - discriminate.
  - constructor; [exact sample_point_outside|constructor].
Defined.

(** ** The order of the coordinates *)

Lemma length_filter_permutation {A : Type} (P : A -> bool) (l m : list A) :
  Permutation l m -> length (filter P l) = length (filter P m).
Proof.
  induction 1 as [|x l m _ IH|x y l|l m k _ IH1 _ IH2].
  - reflexivity.
  - cbn [filter]. destruct (P x); cbn [length]; now rewrite IH.
  - cbn [filter]. destruct (P x), (P y); reflexivity.
  - now rewrite IH1.
Qed.

(** X9.  The density depends on the coordinates as a collection only:
    reordering them (for instance, reordering the snapshots of the file)
    gives the same result, error or grid. *)
Theorem density_of_coords_permutation (coords coords' : list point)
    (a b c : npfloat) (grid_size : nat) :
  Permutation coords coords' ->
  density_of_coords coords a b c grid_size =
  density_of_coords coords' a b c grid_size.
Proof.
  intros Hp. unfold density_of_coords, histogramdd.
  destruct coords as [|p l].
  { apply Permutation_nil in Hp. now subst. }
  destruct coords' as [|p' l'].
  { apply Permutation_sym, Permutation_nil in Hp. discriminate. }
  destruct (any_decreasing _ || any_decreasing _ || any_decreasing _);
    [reflexivity|].
  rewrite (tabulate3_ext _ _ _
    (fun i j k => fnat (length (filter (in_cell _ _ _ i j k) (p :: l))))
    (fun i j k => fnat (length (filter (in_cell
        (linspace fzero a (grid_size + 1)) (linspace fzero b (grid_size + 1))
        (linspace fzero c (grid_size + 1)) i j k) (p' :: l'))))).
  - reflexivity.
  - intros i j k _ _ _. f_equal. now apply length_filter_permutation.
Qed.

Lemma density_of_coords_permutation_witness :
  Permutation [(frac 5 2, frac 5 1, frac 15 2); (frac 1 1, frac 1 1, frac 1 1)]
              [(frac 1 1, frac 1 1, frac 1 1); (frac 5 2, frac 5 1, frac 15 2)] /\
  density_of_coords [(frac 5 2, frac 5 1, frac 15 2); (frac 1 1, frac 1 1, frac 1 1)]
    (fnat 10) (fnat 10) (fnat 10) 2 =
  density_of_coords [(frac 1 1, frac 1 1, frac 1 1); (frac 5 2, frac 5 1, frac 15 2)]
    (fnat 10) (fnat 10) (fnat 10) 2.
Proof.
  split; [apply perm_swap|].
  apply (density_of_coords_permutation _ _ (fnat 10) (fnat 10) (fnat 10) 2).
  apply perm_swap.
Defined.

(** ** The range of a density *)

Lemma list_sum_in_le {A : Type} (f : A -> nat) (l : list A) (x : A) :
  In x l -> f x <= list_sum (map f l).
Proof.
  induction l as [|y l IH]; intros H; [contradiction|].
  cbn [map list_sum fold_right]. fold (list_sum (map f l)).
  destruct H as [->|H]; [lia|]. specialize (IH H). lia.
Qed.

Lemma nsum3_cell_le (X Y Z : nat) (h : nat -> nat -> nat -> nat) (i j k : nat) :
  i < X -> j < Y -> k < Z -> h i j k <= nsum3 X Y Z h.
Proof.
  intros Hi Hj Hk. unfold nsum3.
  apply Nat.le_trans with (list_sum (map (fun k' => h i j k') (seq 0 Z))).
  { apply (list_sum_in_le (fun k' => h i j k')). apply in_seq. lia. }
  apply Nat.le_trans with
    (list_sum (map (fun j' => list_sum (map (fun k' => h i j' k') (seq 0 Z)))
                   (seq 0 Y))).
  { apply (list_sum_in_le (fun j' => list_sum (map (fun k' => h i j' k') (seq 0 Z)))).
    apply in_seq. lia. }
  apply (list_sum_in_le (fun i' => list_sum (map (fun j' =>
           list_sum (map (fun k' => h i' j' k') (seq 0 Z))) (seq 0 Y)))).
  apply in_seq. lia.
Qed.

Lemma Qc_of_nat_le (m n : nat) : m <= n -> (Qc_of_nat m <= Qc_of_nat n)%Qc.
Proof.
  intros H. unfold Qcle, Qc_of_nat, Q2Qc; cbn [this]. rewrite !Qred_correct.
  unfold Qle, inject_Z; cbn [Qnum Qden]. lia.
Qed.

Lemma share_range (m T : nat) :
  m <= T -> 1 <= T ->
  exists q, fdiv (fnat m) (fnat T) = Fin q /\ (0 <= q)%Qc /\ (q <= 1)%Qc.
Proof.
  intros Hm HT. unfold fnat at 1. rewrite fdiv_by_count by exact HT.
  eexists. split; [reflexivity|].
  apply mean_bounds.
  - now apply Qc_of_nat_pos.
  - replace (Qc_of_nat T * 0)%Qc with 0%Qc by ring.
    rewrite <- Qc_of_nat_0. apply Qc_of_nat_le. lia.
  - replace (Qc_of_nat T * 1)%Qc with (Qc_of_nat T) by ring.
    now apply Qc_of_nat_le.
Qed.

(** X10.  Whatever the cell, the coordinates and the grid size, a density
    the estimator returns holds either a value of [[0, 1]] in every cell or
    [nan] in every cell. *)
Theorem density_of_coords_unit_interval (coords : list point) (a b c : npfloat)
    (grid_size : nat) (d : grid) :
  density_of_coords coords a b c grid_size = Ok d ->
  Forall (fun v => fle fzero v = true /\ fle v fone = true) (flatten d) \/
  Forall (fun v => v = NaN) (flatten d).
Proof.
  unfold density_of_coords, histogramdd.
  destruct coords as [|p coords]; [discriminate|].
  destruct (any_decreasing _ || any_decreasing _ || any_decreasing _);
    [discriminate|].
  cbn [bind]. intros E. inversion E as [Ed]. clear E Ed.
  rewrite (asum_tabulate3_additive fnat fnat_0 fnat_add), map3_tabulate3.
  match goal with |- context [fnat (nsum3 ?X ?Y ?Z ?h)] =>
    destruct (nsum3 X Y Z h) as [|T] eqn:ET end.
  - right. apply Forall_forall. intros v Hv.
    apply in_flatten_tabulate3 in Hv.
    destruct Hv as (i & j & k & Hi & Hj & Hk & ->).
    rewrite (nsum3_zero_cell _ _ _ _ i j k ET Hi Hj Hk).
    rewrite fnat_0. reflexivity.
  - left. apply Forall_forall. intros v Hv.
    apply in_flatten_tabulate3 in Hv.
    destruct Hv as (i & j & k & Hi & Hj & Hk & ->).
    apply (between_finite 0%Qc 1%Qc). apply share_range; [|lia].
    rewrite <- ET.
    apply (nsum3_cell_le _ _ _
             (fun i j k => length (filter (in_cell _ _ _ i j k) (p :: coords)))
             i j k Hi Hj Hk).
Qed.

Lemma density_of_coords_unit_interval_witness :
  density_of_coords [(frac 12 1, frac 5 1, frac 5 1)]
    (fnat 10) (fnat 10) (fnat 10) 1 = Ok [[[NaN]]] /\
  (Forall (fun v => fle fzero v = true /\ fle v fone = true) (flatten [[[NaN]]]) \/
   Forall (fun v => v = NaN) (flatten [[[NaN]]])).
Proof.
  assert (E : density_of_coords [(frac 12 1, frac 5 1, frac 5 1)]
                (fnat 10) (fnat 10) (fnat 10) 1 = Ok [[[NaN]]])
    by (vm_compute; reflexivity).
  split; [exact E|].
  exact (density_of_coords_unit_interval _ _ _ _ _ _ E).
Defined.

(** ** The trajectory parser *)

Section ParserProperties.

Variable py_float : string -> option npfloat.


(** X12.  Only the first CRYST1 record is read: the lines before it and
    everything after it have no influence on the cell. *)
Theorem read_cell_first_record (pre rest : list string) (line : string) :
  Forall (fun l => startswith "CRYST1" l = false) pre ->
  startswith "CRYST1" line = true ->
  read_cell py_float (pre ++ line :: rest) = read_cell py_float [line].
Proof.
  intros Hpre Hline. induction Hpre as [|l pre Hl _ IH].
  - cbn [app read_cell]. now rewrite Hline.
  - cbn [app read_cell]. now rewrite Hl.
Qed.

Lemma read_cell_no_record (lines : list string) :
  Forall (fun l => startswith "CRYST1" l = false) lines ->
  read_cell py_float lines = Raise UnboundLocalError.
Proof.
  induction 1 as [|l rest Hl _ IH]; [reflexivity|].
  cbn [read_cell]. now rewrite Hl.
Qed.

(** X13.  A readable file without a CRYST1 record makes
    [make_prob_density] raise UnboundLocalError (line 28 uses [a] before any
    assignment), whatever coordinates the file holds. *)
Theorem make_prob_density_without_cell
    (files : string -> option (list string)) (pdb_filename atm : string)
    (grid_size : nat) (lines : list string) :
  files pdb_filename = Some lines ->
  Forall (fun l => startswith "CRYST1" l = false) lines ->
  make_prob_density py_float files pdb_filename atm grid_size =
  Raise UnboundLocalError.
Proof.
  intros Hf Hn. unfold make_prob_density, open_file. rewrite Hf. cbn [bind].
  now rewrite (read_cell_no_record lines Hn).
Qed.

(** X14.  When the coordinate scan succeeds it returns exactly one
    coordinate for each atom record of the target element inside a model
    block. *)
Theorem read_coords_length (atm : string) (lines : list string) (in_model : bool)
    (coords : list point) :
  read_coords py_float atm in_model lines = Ok coords ->
  length coords = length (matching_atoms atm in_model lines).
Proof.
  revert in_model coords.
  induction lines as [|line rest IH]; intros in_model coords H.
  - inversion H. reflexivity.
  - cbn [read_coords matching_atoms] in *.
    destruct (startswith "MODEL" line); [now apply IH|].
    destruct (startswith "ENDMDL" line); [now apply IH|].
    destruct (in_model && startswith "ATOM" line); cbn [andb].
    + destruct (String.eqb (strip (slice 76 78 line)) atm); [|now apply IH].
      destruct (to_float py_float (slice 30 38 line)) as [x|]; [|discriminate].
      destruct (to_float py_float (slice 38 46 line)) as [y|]; [|discriminate].
      destruct (to_float py_float (slice 46 54 line)) as [z|]; [|discriminate].
      cbn [bind] in H.
      destruct (read_coords py_float atm in_model rest) as [cs|] eqn:E;
        [|discriminate].
      cbn [bind] in H. inversion H; subst coords.
      cbn [length]. f_equal. now apply IH.
    + now apply IH.
Qed.

(** X15.  Reading two consecutive parts of a file gives the coordinates
    of the first followed by those of the second; the only thing carried
    from one part to the next is whether a model block is open. *)
Theorem read_coords_app (atm : string) (l1 l2 : list string) (in_model : bool) :
  read_coords py_float atm in_model (l1 ++ l2) =
  (c1 <- read_coords py_float atm in_model l1 ;;
   c2 <- read_coords py_float atm (model_state in_model l1) l2 ;;
   Ok (c1 ++ c2)).
Proof.
  revert in_model. induction l1 as [|line rest IH]; intros in_model.
  - cbn [app read_coords model_state bind].
    destruct (read_coords py_float atm in_model l2); reflexivity.
  - cbn [app read_coords model_state].
    destruct (startswith "MODEL" line); [apply IH|].
    destruct (startswith "ENDMDL" line); [apply IH|].
    destruct (in_model && startswith "ATOM" line); cbn [andb]; [|apply IH].
    destruct (String.eqb (strip (slice 76 78 line)) atm); [|apply IH].
    destruct (to_float py_float (slice 30 38 line)) as [x|]; [|reflexivity].
    destruct (to_float py_float (slice 38 46 line)) as [y|]; [|reflexivity].
    destruct (to_float py_float (slice 46 54 line)) as [z|]; [|reflexivity].
    cbn [bind]. rewrite IH.
    destruct (read_coords py_float atm in_model rest) as [cs|]; [|reflexivity].
    cbn [bind].
    destruct (read_coords py_float atm (model_state in_model rest) l2);
      reflexivity.
Qed.

End ParserProperties.


Lemma read_cell_first_record_witness :
  Forall (fun l => startswith "CRYST1" l = false) ["REMARK"] /\
  startswith "CRYST1" "CRYST1   10.000   20.000   30.000" = true /\
  read_cell decimal_float
    ("REMARK" :: "CRYST1   10.000   20.000   30.000"
       :: ["CRYST1   99.000   99.000   99.000"]) =
  read_cell decimal_float ["CRYST1   10.000   20.000   30.000"].
Proof.
  assert (H : Forall (fun l => startswith "CRYST1" l = false) ["REMARK"])
    by (repeat constructor).
  split; [exact H|]. split; [reflexivity|].
  exact (read_cell_first_record decimal_float ["REMARK"]
           ["CRYST1   99.000   99.000   99.000"]
           "CRYST1   10.000   20.000   30.000" H eq_refl).
Defined.

Lemma make_prob_density_without_cell_witness :
  (fun name : string => if String.eqb name "x.pdb" then Some ["MODEL"; "ENDMDL"] else None)
    "x.pdb" = Some ["MODEL"; "ENDMDL"] /\
  Forall (fun l => startswith "CRYST1" l = false) ["MODEL"; "ENDMDL"] /\
  make_prob_density decimal_float
    (fun name : string => if String.eqb name "x.pdb" then Some ["MODEL"; "ENDMDL"] else None)
    "x.pdb" "Ar" 2 = Raise UnboundLocalError.
Proof.
  assert (H : Forall (fun l => startswith "CRYST1" l = false) ["MODEL"; "ENDMDL"])
    by (repeat constructor).
  split; [reflexivity|]. split; [exact H|].
  exact (make_prob_density_without_cell decimal_float _ "x.pdb" "Ar" 2
           ["MODEL"; "ENDMDL"] eq_refl H).
Defined.

Lemma read_coords_length_witness :
  read_coords decimal_float "Ar" false sample_before =
    Ok (match read_coords decimal_float "Ar" false sample_before with
        | Ok cs => cs
        | Raise _ => []
        end) /\
  length (match read_coords decimal_float "Ar" false sample_before with
          | Ok cs => cs
          | Raise _ => []
          end) =
  length (matching_atoms "Ar" false sample_before).
Proof.
  assert (E : read_coords decimal_float "Ar" false sample_before =
    Ok (match read_coords decimal_float "Ar" false sample_before with
        | Ok cs => cs
        | Raise _ => []
        end)).
  { vm_compute. reflexivity. }
  split; [exact E|].
  exact (read_coords_length decimal_float "Ar" sample_before false _ E).
Defined.

(** ** More on min-max normalisation *)

Lemma amin_value (d : grid) (m : Qc) :
  all_finite d -> amin d = Ok (Fin m) ->
  In (Fin m) (flatten d) /\ (forall p, In (Fin p) (flatten d) -> (m <= p)%Qc).
Proof.
  intros Hf E. destruct (amin_spec d Hf (amin_nonempty d _ E)) as (m0 & E0 & H).
  rewrite E0 in E. inversion E; subst m0. exact H.
Qed.

Lemma amax_value (d : grid) (M : Qc) :
  all_finite d -> amax d = Ok (Fin M) ->
  In (Fin M) (flatten d) /\ (forall p, In (Fin p) (flatten d) -> (p <= M)%Qc).
Proof.
  intros Hf E.
  assert (Hne : flatten d <> []).
  { unfold amax in E. destruct (flatten d); [discriminate|discriminate]. }
  destruct (amax_spec d Hf Hne) as (m0 & E0 & H).
  rewrite E0 in E. inversion E; subst m0. exact H.
Qed.

Lemma amax_of_amin (d : grid) (lo : npfloat) :
  all_finite d -> amin d = Ok lo -> exists m M, lo = Fin m /\ amax d = Ok (Fin M).
Proof.
  intros Hf E. pose proof (amin_nonempty d lo E) as Hne.
  destruct (amin_spec d Hf Hne) as (m & Em & _).
  destruct (amax_spec d Hf Hne) as (M & EM & _).
  rewrite Em in E. inversion E. now exists m, M.
Qed.

Lemma map3_id_in (f : npfloat -> npfloat) (a : grid) :
  (forall x, In x (flatten a) -> f x = x) -> map3 f a = a.
Proof.
  intros H. rewrite (map3_ext_in f (fun x => x) a H).
  unfold map3. rewrite (map_ext _ (fun p : list (list npfloat) => p)).
  - apply map_id.
  - intros p. rewrite (map_ext _ (fun r : list npfloat => r)).
    + apply map_id.
    + intros r. apply map_id.
Qed.

(** The normalised grid, cell by cell. *)
Lemma minmax_normalize_cells (d : grid) (m M : Qc) :
  all_finite d -> amin d = Ok (Fin m) -> amax d = Ok (Fin M) -> (m < M)%Qc ->
  minmax_normalize d =
  Ok (map3 (fun v => match v with
                     | Fin q => Fin ((q + - m) / (M + - m))%Qc
                     | _ => NaN
                     end) d).
Proof.
  intros Hf Em EM Hlt. rewrite (minmax_normalize_eq d _ _ Em EM). f_equal.
  apply map3_ext_in. intros x Hx.
  unfold all_finite in Hf. rewrite Forall_forall in Hf.
  pose proof (Hf x Hx) as Fx. destruct x as [q| | |]; try discriminate.
  rewrite !fsub_Fin. apply fdiv_Fin. apply Qc_pos_neq_0. now apply Qc_gap_pos.
Qed.

Lemma minmax_normalize_flat_cells (d : grid) (m : Qc) :
  all_finite d -> amin d = Ok (Fin m) -> amax d = Ok (Fin m) ->
  minmax_normalize d = Ok (map3 (fun _ => NaN) d).
Proof.
  intros Hf Em EM. rewrite (minmax_normalize_eq d _ _ Em EM). f_equal.
  destruct (amin_value d m Hf Em) as [_ Hlo].
  destruct (amax_value d m Hf EM) as [_ Hhi].
  apply map3_ext_in. intros x Hx.
  unfold all_finite in Hf. rewrite Forall_forall in Hf.
  pose proof (Hf x Hx) as Fx. destruct x as [q| | |]; try discriminate.
  assert (q = m) by (apply Qcle_antisym; [now apply Hhi|now apply Hlo]).
  subst q. rewrite fsub_Fin.
  replace (m + - m)%Qc with 0%Qc by ring. apply fdiv_0_0.
Qed.

(** X16.  Normalising is idempotent on non-degenerate grids: a grid of
    finite values with [min < max] is normalised to a grid that a second
    normalisation returns unchanged. *)
Theorem minmax_normalize_idempotent (d d' : grid) (lo hi : npfloat) :
  all_finite d -> amin d = Ok lo -> amax d = Ok hi -> flt lo hi = true ->
  minmax_normalize d = Ok d' ->
  minmax_normalize d' = Ok d'.
Proof.
  intros Hf Elo Ehi Hlt Ed.
  destruct (amax_of_amin d lo Hf Elo) as (m & M & -> & EM).
  rewrite EM in Ehi. inversion Ehi; subst hi.
  unfold flt in Hlt. apply Qc_ltb_lt in Hlt.
  destruct (minmax_normalize_finite d (Fin m) (Fin M) Hf Elo EM)
    as (d0 & E0 & Emin & Emax).
  { unfold flt. now apply Qc_ltb_lt. }
  rewrite E0 in Ed. inversion Ed; subst d0.
  assert (Hf' : all_finite d').
  { rewrite (minmax_normalize_cells d m M Hf Elo EM Hlt) in E0.
    inversion E0 as [Ed']. unfold all_finite in *. rewrite flatten_map3.
    apply Forall_map. revert Hf. apply Forall_impl.
    intros x Hx. destruct x; try discriminate. reflexivity. }
  rewrite (minmax_normalize_eq d' _ _ Emin Emax). f_equal.
  apply map3_id_in. intros x Hx.
  unfold all_finite in Hf'. rewrite Forall_forall in Hf'.
  pose proof (Hf' x Hx) as Fx. destruct x as [q| | |]; try discriminate.
  rewrite !fsub_Fin, fdiv_Fin.
  - f_equal. field. intros E. now apply (Qc_pos_neq_0 1%Qc).
  - replace (1 + - 0)%Qc with 1%Qc by ring. discriminate.
Qed.

Lemma minmax_normalize_idempotent_witness :
  all_finite column5 /\ amin column5 = Ok (fnat 1) /\ amax column5 = Ok (fnat 5) /\
  flt (fnat 1) (fnat 5) = true /\
  minmax_normalize
    (match minmax_normalize column5 with Ok d' => d' | Raise _ => [] end) =
  Ok (match minmax_normalize column5 with Ok d' => d' | Raise _ => [] end).
Proof.
  split; [exact column5_finite|]. split; [exact column5_min|].
  split; [exact column5_max|]. split; [reflexivity|].
  apply (minmax_normalize_idempotent column5 _ (fnat 1) (fnat 5)).
  - exact column5_finite.
  - exact column5_min.
  - exact column5_max.
  - reflexivity.
  - vm_compute. reflexivity.
Defined.

(** ** The ranges of the four grids *)

Lemma length_linspace (start stop : npfloat) (num : nat) :
  length (linspace start stop num) = num.
Proof.
  destruct num as [|[|k]]; [reflexivity|reflexivity|].
  cbn [linspace]. rewrite length_app, length_map, length_seq. cbn [length]. lia.
Qed.

Lemma has_shape_map3 (f : npfloat -> npfloat) (a : grid) (X Y Z : nat) :
  has_shape a X Y Z -> has_shape (map3 f a) X Y Z.
Proof.
  intros Hs. rewrite <- (tabulate3_get3 a X Y Z Hs), map3_tabulate3.
  apply has_shape_tabulate3.
Qed.

Lemma density_of_coords_shape (coords : list point) (a b c : npfloat)
    (grid_size : nat) (d : grid) :
  density_of_coords coords a b c grid_size = Ok d ->
  has_shape d grid_size grid_size grid_size.
Proof.
  unfold density_of_coords, histogramdd.
  destruct coords as [|p coords]; [discriminate|].
  destruct (any_decreasing _ || any_decreasing _ || any_decreasing _);
    [discriminate|].
  cbn [bind]. intros E. injection E as Ed. subst d.
  rewrite !length_linspace. replace (grid_size + 1 - 1) with grid_size by lia.
  apply has_shape_map3, has_shape_tabulate3.
Qed.

Lemma minmax_normalize_shape (d d' : grid) (X Y Z : nat) :
  has_shape d X Y Z -> minmax_normalize d = Ok d' -> has_shape d' X Y Z.
Proof.
  intros Hs. unfold minmax_normalize.
  destruct (amin d); [|discriminate]. destruct (amax d); [|discriminate].
  cbn [bind]. intros E. injection E as <-. now apply has_shape_map3.
Qed.

Lemma minmax_normalize_nonempty (d d' : grid) :
  minmax_normalize d = Ok d' -> flatten d <> [].
Proof.
  unfold minmax_normalize, amin. destruct (flatten d); [discriminate|discriminate].
Qed.

Lemma has_shape_positive (a : grid) (g : nat) :
  has_shape a g g g -> flatten a <> [] -> 1 <= g.
Proof.
  intros [HL HF] Hne. destruct g as [|g]; [|lia].
  exfalso. apply Hne. destruct a; [reflexivity|discriminate].
Qed.

(** A normalised grid without [nan] or infinite cells has all its cells
    in [[0, 1]]. *)
Lemma minmax_normalize_unit_range (d d' : grid) :
  all_finite d \/ Forall (fun x => x = NaN) (flatten d) ->
  minmax_normalize d = Ok d' -> all_finite d' ->
  Forall (fun v => exists q, v = Fin q /\ (0 <= q)%Qc /\ (q <= 1)%Qc) (flatten d').
Proof.
  intros Hd E Hf'. destruct Hd as [Hf|Hnan].
  - destruct (amin d) as [lo|e] eqn:Elo.
    2:{ unfold minmax_normalize in E. rewrite Elo in E. discriminate. }
    destruct (amax_of_amin d lo Hf Elo) as (m & M & -> & EM).
    destruct (amin_value d m Hf Elo) as [Hin Hlo].
    destruct (amax_value d M Hf EM) as [_ Hhi].
    destruct (Qcle_lt_or_eq _ _ (Hhi m Hin)) as [Hlt|Heq].
    + rewrite (minmax_normalize_cells d m M Hf Elo EM Hlt) in E.
      injection E as <-. rewrite flatten_map3. apply Forall_map.
      apply Forall_forall. intros x Hx.
      unfold all_finite in Hf. rewrite Forall_forall in Hf.
      pose proof (Hf x Hx) as Fx. destruct x as [q| | |]; try discriminate.
      eexists. split; [reflexivity|].
      apply normalised_cell_range; [exact Hlt|now apply Hlo|now apply Hhi].
    + subst M. rewrite (minmax_normalize_flat_cells d m Hf Elo EM) in E.
      injection E as <-. unfold all_finite in Hf'. rewrite flatten_map3 in *.
      destruct (flatten d) as [|x l]; [constructor|].
      inversion Hf'. discriminate.
  - unfold minmax_normalize in E.
    destruct (amin d) as [lo|]; [|discriminate].
    destruct (amax d) as [hi|]; [|discriminate].
    cbn [bind] in E. injection E as <-.
    unfold all_finite in Hf'. rewrite flatten_map3 in *.
    destruct (flatten d) as [|x l]; [constructor|].
    inversion Hnan; subst. inversion Hf'. discriminate.
Qed.

Lemma difference_range (p q : Qc) :
  (0 <= p)%Qc -> (p <= 1)%Qc -> (0 <= q)%Qc -> (q <= 1)%Qc ->
  (Q2Qc (-1 # 1)%Q <= p + - q)%Qc /\ (p + - q <= Q2Qc (1 # 1)%Q)%Qc.
Proof.
  intros Hp0 Hp1 Hq0 Hq1. split.
  - replace (Q2Qc (-1 # 1)%Q) with (0 + Qcopp 1)%Qc by (apply Qc_is_canon; reflexivity).
    apply Qcplus_le_compat; [exact Hp0|now apply Qcopp_le_compat].
  - replace (Q2Qc (1 # 1)%Q) with (1 + Qcopp 0)%Qc by (apply Qc_is_canon; reflexivity).
    apply Qcplus_le_compat; [exact Hp1|now apply Qcopp_le_compat].
Qed.

Section Ranges.

Variable py_float : string -> option npfloat.

Lemma make_prob_density_inv (files : string -> option (list string))
    (name atm : string) (g : nat) (d : grid) :
  make_prob_density py_float files name atm g = Ok d ->
  exists coords a b c, density_of_coords coords a b c g = Ok d.
Proof.
  unfold make_prob_density.
  destruct (open_file files name) as [lines|]; [|discriminate]. cbn [bind].
  destruct (read_cell py_float lines) as [[[a b] c]|]; [|discriminate]. cbn [bind].
  destruct (read_coords py_float atm false lines) as [coords|]; [|discriminate].
  cbn [bind]. intros E. now exists coords, a, b, c.
Qed.

(** X18.  After a successful computation in which neither normalised
    density holds [nan], the two normalised densities have all their cells
    in [[0, 1]], and the difference and the filtered difference have all
    theirs in [[-1, 1]]; all four grids have shape [grid_size^3]. *)
Theorem compute_densities_ranges (w : world)
    (pdb_filename_before pdb_filename_after : string) (grid_size : nat)
    (atm : string) (padding_n : nat) (before after diff diff_filtered : grid) :
  compute_densities py_float w pdb_filename_before pdb_filename_after
    grid_size atm padding_n = Ok (before, after, diff, diff_filtered) ->
  all_finite before -> all_finite after ->
  (has_shape before grid_size grid_size grid_size /\
   has_shape after grid_size grid_size grid_size /\
   has_shape diff grid_size grid_size grid_size /\
   has_shape diff_filtered grid_size grid_size grid_size) /\
  Forall (fun v => fle fzero v = true /\ fle v fone = true) (flatten before) /\
  Forall (fun v => fle fzero v = true /\ fle v fone = true) (flatten after) /\
  Forall (fun v => fle (frac (-1) 1) v = true /\ fle v (frac 1 1) = true)
         (flatten diff) /\
  Forall (fun v => fle (frac (-1) 1) v = true /\ fle v (frac 1 1) = true)
         (flatten diff_filtered).
Proof.
  unfold compute_densities. intros E Fb Fa.
  destruct (make_prob_density py_float (files w) pdb_filename_before atm grid_size)
    as [db|] eqn:Edb; [|discriminate].
  destruct (make_prob_density py_float (files w) pdb_filename_after atm grid_size)
    as [da|] eqn:Eda; [|discriminate].
  cbn [bind] in E.
  destruct (minmax_normalize db) as [nb|] eqn:Enb; [|discriminate].
  destruct (minmax_normalize da) as [na|] eqn:Ena; [|discriminate].
  cbn [bind] in E.
  destruct (local_average_3d (zip_with3 fsub na nb) padding_n) as [f|] eqn:Ef;
    [|discriminate].
  cbn [bind] in E. injection E as <- <- <- <-.
  destruct (make_prob_density_inv _ _ _ _ _ Edb) as (cb & ab & bb & cb' & Hdb).
  destruct (make_prob_density_inv _ _ _ _ _ Eda) as (ca & aa & ba & ca' & Hda).
  pose proof (density_of_coords_shape _ _ _ _ _ _ Hdb) as Sdb.
  pose proof (density_of_coords_shape _ _ _ _ _ _ Hda) as Sda.
  pose proof (minmax_normalize_shape _ _ _ _ _ Sdb Enb) as Snb.
  pose proof (minmax_normalize_shape _ _ _ _ _ Sda Ena) as Sna.
  pose proof (has_shape_positive db grid_size Sdb (minmax_normalize_nonempty _ _ Enb))
    as Hg.
  pose proof (minmax_normalize_unit_range db nb
                (density_of_coords_cells _ _ _ _ _ _ Hdb) Enb Fb) as Rb.
  pose proof (minmax_normalize_unit_range da na
                (density_of_coords_cells _ _ _ _ _ _ Hda) Ena Fa) as Ra.
  assert (Sd : has_shape (zip_with3 fsub na nb) grid_size grid_size grid_size).
  { rewrite (zip_with3_cells fsub na nb _ _ _ Sna Snb). apply has_shape_tabulate3. }
  assert (Rd : Forall (fun v => exists q, v = Fin q /\
                          (Q2Qc (-1 # 1)%Q <= q)%Qc /\ (q <= Q2Qc (1 # 1)%Q)%Qc)
                      (flatten (zip_with3 fsub na nb))).
  { rewrite (zip_with3_cells fsub na nb _ _ _ Sna Snb).
    apply Forall_forall. intros v Hv. apply in_flatten_tabulate3 in Hv.
    destruct Hv as (i & j & k & Hi & Hj & Hk & ->).
    rewrite Forall_forall in Ra, Rb.
    destruct (Ra _ (get3_in_flatten na _ _ _ i j k Sna Hi Hj Hk))
      as (p & -> & Hp0 & Hp1).
    destruct (Rb _ (get3_in_flatten nb _ _ _ i j k Snb Hi Hj Hk))
      as (q & -> & Hq0 & Hq1).
    rewrite fsub_Fin. eexists. split; [reflexivity|].
    now apply difference_range. }
  destruct (local_average_3d_interval (Q2Qc (-1 # 1)) (Q2Qc (1 # 1)) _
              grid_size grid_size grid_size padding_n Sd Hg Hg Hg Rd)
    as (out & Eout & Sout & Rout).
  rewrite Ef in Eout. injection Eout as <-.
  split; [split; [exact Snb|split; [exact Sna|split; [exact Sd|exact Sout]]]|].
  split; [revert Rb; apply Forall_impl; intros v Hv; now apply between_finite|].
  split; [revert Ra; apply Forall_impl; intros v Hv; now apply between_finite|].
  split; [revert Rd; apply Forall_impl; intros v Hv; now apply between_finite|].
  revert Rout. apply Forall_impl. intros v Hv. now apply between_finite.
Qed.

(** X19.  Comparing a trajectory file with itself: the two normalised
    densities are the same grid, and when it holds no [nan] the difference
    and the filtered difference are zero in every cell. *)
Theorem compute_densities_same_file (w : world) (pdb_filename : string)
    (grid_size : nat) (atm : string) (padding_n : nat)
    (before after diff diff_filtered : grid) :
  compute_densities py_float w pdb_filename pdb_filename
    grid_size atm padding_n = Ok (before, after, diff, diff_filtered) ->
  after = before /\
  (all_finite before ->
   diff = full grid_size grid_size grid_size fzero /\
   diff_filtered = full grid_size grid_size grid_size fzero).
Proof.
  unfold compute_densities. intros E.
  destruct (make_prob_density py_float (files w) pdb_filename atm grid_size)
    as [db|] eqn:Edb; [|discriminate].
  cbn [bind] in E.
  destruct (minmax_normalize db) as [nb|] eqn:Enb; [|discriminate].
  cbn [bind] in E.
  destruct (local_average_3d (zip_with3 fsub nb nb) padding_n) as [f|] eqn:Ef;
    [|discriminate].
  cbn [bind] in E. injection E as <- <- <- <-.
  split; [reflexivity|]. intros Fb.
  destruct (make_prob_density_inv _ _ _ _ _ Edb) as (cb & ab & bb & cb' & Hdb).
  pose proof (density_of_coords_shape _ _ _ _ _ _ Hdb) as Sdb.
  pose proof (minmax_normalize_shape _ _ _ _ _ Sdb Enb) as Snb.
  pose proof (has_shape_positive db grid_size Sdb (minmax_normalize_nonempty _ _ Enb))
    as Hg.
  assert (Ed : zip_with3 fsub nb nb = full grid_size grid_size grid_size fzero).
  { rewrite (zip_with3_cells fsub nb nb _ _ _ Snb Snb). unfold full.
    apply tabulate3_ext; intros i j k Hi Hj Hk.
    destruct (finite_cell nb _ _ _ i j k Snb Fb Hi Hj Hk) as (q & ->).
    rewrite fsub_Fin. unfold fzero. f_equal. ring. }
  split; [exact Ed|].
  rewrite Ed in Ef. unfold fzero in Ef.
  rewrite (local_average_3d_full grid_size grid_size grid_size padding_n 0%Qc
             Hg Hg Hg) in Ef.
  now injection Ef as <-.
Qed.

End Ranges.

Lemma compute_densities_ranges_witness :
  compute_densities decimal_float sample_world "before.pdb" "after.pdb" 2 "Ar" 1 =
    Ok (fst (fst (fst sample_grids)), snd (fst (fst sample_grids)),
        snd (fst sample_grids), snd sample_grids) /\
  all_finite (fst (fst (fst sample_grids))) /\
  all_finite (snd (fst (fst sample_grids))) /\
  Forall (fun v => fle (frac (-1) 1) v = true /\ fle v (frac 1 1) = true)
         (flatten (snd sample_grids)).
Proof.
  assert (E : compute_densities decimal_float sample_world "before.pdb" "after.pdb"
                2 "Ar" 1 =
              Ok (fst (fst (fst sample_grids)), snd (fst (fst sample_grids)),
                  snd (fst sample_grids), snd sample_grids))
    by (vm_compute; reflexivity).
  assert (Fb : all_finite (fst (fst (fst sample_grids))))
    by (vm_compute; repeat constructor).
  assert (Fa : all_finite (snd (fst (fst sample_grids))))
    by (vm_compute; repeat constructor).
  split; [exact E|]. split; [exact Fb|]. split; [exact Fa|].
  exact (proj2 (proj2 (proj2 (proj2
           (compute_densities_ranges decimal_float sample_world "before.pdb"
              "after.pdb" 2 "Ar" 1 _ _ _ _ E Fb Fa))))).
Defined.

Lemma compute_densities_same_file_witness :
  compute_densities decimal_float sample_world "before.pdb" "before.pdb" 2 "Ar" 1 =
    Ok (fst (fst (fst sample_self_grids)), snd (fst (fst sample_self_grids)),
        snd (fst sample_self_grids), snd sample_self_grids) /\
  snd (fst (fst sample_self_grids)) = fst (fst (fst sample_self_grids)).
Proof.
  assert (E : compute_densities decimal_float sample_world "before.pdb" "before.pdb"
                2 "Ar" 1 =
              Ok (fst (fst (fst sample_self_grids)), snd (fst (fst sample_self_grids)),
                  snd (fst sample_self_grids), snd sample_self_grids))
    by (vm_compute; reflexivity).
  split; [exact E|].
  exact (proj1 (compute_densities_same_file decimal_float sample_world "before.pdb"
                  2 "Ar" 1 _ _ _ _ E)).
Defined.

(** ** Missing input files *)

Section MissingFiles.

Variable py_float : string -> option npfloat.

(** X20.  If the first trajectory file cannot be opened, the run raises
    FileNotFoundError and writes nothing, whatever the second file holds.  If
    the second cannot be opened, the run raises as well and writes nothing;
    the exception is FileNotFoundError unless reading the first file had
    already failed. *)
Theorem get_filtered_prob_density_missing_file
    (pdb_filename_before pdb_filename_after : string) (grid_size : nat)
    (cell_a : npfloat) (atm : string) (padding_n : nat) (w : world) :
  (files w pdb_filename_before = None ->
   get_filtered_prob_density py_float pdb_filename_before pdb_filename_after
     grid_size cell_a atm padding_n w = (Raise FileNotFoundError, w)) /\
  (files w pdb_filename_after = None ->
   exists e,
     get_filtered_prob_density py_float pdb_filename_before pdb_filename_after
       grid_size cell_a atm padding_n w = (Raise e, w) /\
     (forall d, make_prob_density py_float (files w) pdb_filename_before atm
                  grid_size = Ok d -> e = FileNotFoundError)).
Proof.
  split; intros H.
  - unfold get_filtered_prob_density, compute_densities, make_prob_density,
      open_file. now rewrite H.
  - unfold get_filtered_prob_density, compute_densities.
    destruct (make_prob_density py_float (files w) pdb_filename_before atm grid_size)
      as [db|e] eqn:Edb; cbn [bind].
    + unfold make_prob_density at 1, open_file. rewrite H. cbn [bind].
      exists FileNotFoundError. split; [reflexivity|reflexivity].
    + exists e. split; [reflexivity|discriminate].
Qed.

End MissingFiles.

Lemma get_filtered_prob_density_missing_file_witness :
  files sample_world "nowhere.pdb" = None /\
  get_filtered_prob_density decimal_float "nowhere.pdb" "after.pdb" 2 (fnat 10)
    "Ar" 1 sample_world = (Raise FileNotFoundError, sample_world).
Proof.
  split; [reflexivity|].
  exact (proj1 (get_filtered_prob_density_missing_file decimal_float "nowhere.pdb"
                  "after.pdb" 2 (fnat 10) "Ar" 1 sample_world) eq_refl).
Defined.

(** ** Coordinates on the faces of the cell *)

(** X21.  Coordinates on the faces of the cell are counted too, the far
    faces [x = a], [y = b], [z = c] included: for a non-empty sample anywhere
    in the closed box the density sums to 1. *)
Theorem density_of_coords_closed_box (a b c : Qc) (grid_size : nat)
    (coords : list point) :
  (0 < a)%Qc -> (0 < b)%Qc -> (0 < c)%Qc -> 1 <= grid_size ->
  coords <> [] -> Forall (in_closed_box a b c) coords ->
  exists d,
    density_of_coords coords (Fin a) (Fin b) (Fin c) grid_size = Ok d /\
    has_shape d grid_size grid_size grid_size /\
    asum d = fone.
Proof.
  intros Ha Hb Hc Hg Hne Hbox.
  exact (density_total a b c grid_size Ha Hb Hc Hg coords Hne Hbox).
Qed.

Lemma corner_in_closed_box :
  in_closed_box (Q2Qc 10) (Q2Qc 10) (Q2Qc 10) (frac 10 1, frac 0 1, frac 10 1).
Proof.
  exists (Q2Qc (10 # 1)), (Q2Qc (0 # 1)), (Q2Qc (10 # 1)).
  split; [reflexivity|].
  repeat split; apply Qc_leb_le; reflexivity.
Qed.

Lemma density_of_coords_closed_box_witness :
  (0 < Q2Qc 10)%Qc /\ 1 <= 2 /\ [(frac 10 1, frac 0 1, frac 10 1)] <> [] /\
  Forall (in_closed_box (Q2Qc 10) (Q2Qc 10) (Q2Qc 10))
         [(frac 10 1, frac 0 1, frac 10 1)] /\
  exists d,
    density_of_coords [(frac 10 1, frac 0 1, frac 10 1)]
      (Fin (Q2Qc 10)) (Fin (Q2Qc 10)) (Fin (Q2Qc 10)) 2 = Ok d /\
    has_shape d 2 2 2 /\
    asum d = fone.
Proof.
  split; [exact Qc_ten_pos|]. split; [lia|]. split; [discriminate|].
  split; [constructor; [exact corner_in_closed_box|constructor]|].
  apply (density_of_coords_closed_box (Q2Qc 10) (Q2Qc 10) (Q2Qc 10) 2).
  - exact Qc_ten_pos.
  - exact Qc_ten_pos.
  - exact Qc_ten_pos.
  - lia.
  - discriminate.
  - constructor; [exact corner_in_closed_box|constructor].
Defined.
